(** * LicenseChain Ethereum SDK: transaction orchestration and error
      normalisation, embedded from the TypeScript sources

    The development follows the layout of the repository:
    - [Numbers] : Number values (safe integers and the other binary64
                  values), [Number::toString] and the reading of decimal
                  literals;
    - [Js]      : the JavaScript values the SDK passes around and throws
                  (data values, [Error] instances, completions, promises);
    - [Json]    : [JSON.stringify] / [JSON.parse] on those values;
    - [Errors]  : [src/errors.ts] ([ErrorCodes], [LicenseChainError] and its
                  normalising factories);
    - [Utils]   : [src/utils.ts] ([getNetworkConfig], [retryWithBackoff],
                  [withTimeout], [isRetryableError], ...);
    - [Ethers]  : the few functions of the ethers client library the SDK calls;
    - [Contract]: [src/LicenseContract.ts], the contract facade.

    The vocabulary of the properties ([Backoff], [Taxonomy], [Resolution],
    [FacadeVocabulary], [RoundTrip]) follows the embedding, the properties
    themselves come last.

    Every definition is executable.  Asynchronous code is modelled by explicit
    state passing over an abstract world (the node and the chain). *)

From Stdlib Require Import ZArith List Bool Ascii String Lia.
From Stdlib Require Import DecimalString.
From Stdlib Require Decimal DecimalFacts DecimalPos DecimalZ.
Import ListNotations.

Local Open Scope string_scope.
Local Open Scope Z_scope.
Set Warnings "-register-all".

(* ================================================================== *)
(** * Number values and their decimal notation                         *)
(* ================================================================== *)

Module Numbers.

(** [BigInt.prototype.toString()] and [Number.prototype.toString()] on an
    integer (plain decimal digits, a leading minus sign when negative). *)
Definition dec (n : Z) : string := NilZero.string_of_int (Z.to_int n).

Fixpoint zeros (n : nat) : string :=
  match n with
  | O => EmptyString
  | S n' => String "0" (zeros n')
  end.

Definition is_digit (c : ascii) : bool :=
  let n := N_of_ascii c in ((48 <=? n) && (n <=? 57))%N.

Fixpoint all_digits (s : string) : bool :=
  match s with
  | EmptyString => true
  | String c rest => is_digit c && all_digits rest
  end.

(** The value of a digit or letter as a digit of some base. *)
Definition digit_of (c : ascii) : option Z :=
  let n := N_of_ascii c in
  if ((48 <=? n) && (n <=? 57))%N then Some (Z.of_N n - 48)
  else if ((97 <=? n) && (n <=? 122))%N then Some (Z.of_N n - 87)
  else if ((65 <=? n) && (n <=? 90))%N then Some (Z.of_N n - 55)
  else None.

(** The number a digit sequence denotes in [base], continuing from [acc];
    nothing if a character is no digit of the base. *)
Fixpoint digits_value (base : Z) (s : string) (acc : Z) : option Z :=
  match s with
  | EmptyString => Some acc
  | String c rest =>
      match digit_of c with
      | Some v => if v <? base then digits_value base rest (acc * base + v) else None
      | None => None
      end
  end.

(** [s.slice(0, n)] and [s.slice(n)]. *)
Fixpoint take (n : nat) (s : string) : string :=
  match n, s with
  | S n', String c rest => String c (take n' rest)
  | _, _ => EmptyString
  end.

Fixpoint drop (n : nat) (s : string) : string :=
  match n, s with
  | S n', String _ rest => drop n' rest
  | _, _ => s
  end.

(** [Number.isSafeInteger]: the integers a number holds exactly and prints
    digit by digit. *)
Definition safe_integer (n : Z) : bool :=
  (- (2 ^ 53 - 1) <=? n) && (n <=? 2 ^ 53 - 1).

(** ** IEEE 754 binary64 *)

(** The Number values that are no safe integer.  [DFinite negative m e] is
    the number [m * 2^e], negated when [negative]; the representation with
    [m] odd is the only one used. *)
Inductive Double : Type :=
| DNaN
| DInfinity (negative : bool)
| DNegZero
| DFinite (negative : bool) (m : positive) (e : Z).

(** A Number value: a safe integer, or one of the others. *)
Inductive Number : Type :=
| NInt (n : Z)
| NDouble (x : Double).

Definition is_odd (m : positive) : bool :=
  match m with xO _ => false | _ => true end.

(** [m * 2^e] is a binary64 number: at most 53 significant bits, not below
    the unit of the subnormals, below [2^1024]. *)
Definition representable (m : positive) (e : Z) : bool :=
  (Z.log2 (Zpos m) <=? 52) && (-1074 <=? e) && (Z.log2 (Zpos m) + e <=? 1023).

Definition integral_safe (m : positive) (e : Z) : bool :=
  (0 <=? e) && (Zpos m * 2 ^ e <=? 2 ^ 53 - 1).

(** The finite values are those binary64 holds, written with an odd
    significand, the safe integers left to [NInt]. *)
Definition proper (x : Double) : bool :=
  match x with
  | DFinite _ m e => is_odd m && representable m e && negb (integral_safe m e)
  | _ => true
  end.

Definition signed (negative : bool) (n : Z) : Z := if negative then - n else n.

(** ** Rounding a ratio to binary64 *)

(** [a / b] rounded to the nearest integer, a tie to the even one. *)
Definition round_half_even (a b : Z) : Z :=
  let q := a / b in
  let r := a mod b in
  if 2 * r <? b then q
  else if b <? 2 * r then q + 1
  else if Z.even q then q else q + 1.

(** The representation with an odd significand. *)
Fixpoint canon (m : positive) (e : Z) : positive * Z :=
  match m with
  | xO m' => canon m' (e + 1)
  | _ => (m, e)
  end.

Inductive Rounded : Type :=
| ToZero
| ToInfinity
| ToFinite (m : positive) (e : Z).

(** The binary64 nearest to [num / den] (both positive), ties to the even
    significand.  The ratio is taken in units of [2^-1074], the smallest
    subnormal; above 53 bits the unit grows to the power of two that leaves
    53 bits; a result of [2^1024] or more is infinite. *)
Definition round_ratio (num den : Z) : Rounded :=
  let scaled := num * 2 ^ 1074 in
  let whole := scaled / den in
  let p := if whole <? 2 ^ 53 then 0 else Z.log2 whole - 52 in
  match round_half_even scaled (den * 2 ^ p) with
  | Zpos m =>
      if 2098 <=? Z.log2 (Zpos m) + p then ToInfinity
      else let (m', e') := canon m (p - 1074) in ToFinite m' e'
  | _ => ToZero
  end.

(** [M * 10^E] as a ratio of integers. *)
Definition ratio (M E : Z) : Z * Z :=
  if 0 <=? E then (M * 10 ^ E, 1) else (M, 10 ^ (- E)).

Definition classify (negative : bool) (m : positive) (e : Z) : Number :=
  if integral_safe m e then NInt (signed negative (Zpos m * 2 ^ e))
  else NDouble (DFinite negative m e).

Definition zero (negative : bool) : Number :=
  if negative then NDouble DNegZero else NInt 0.

(** [StringToNumber] on the decimal literal [M * 10^E] with its sign: the
    Number value nearest to its mathematical value. *)
Definition number_of_decimal (negative : bool) (M E : Z) : Number :=
  if M <=? 0 then zero negative
  else
    let (num, den) := ratio M E in
    match round_ratio num den with
    | ToZero => zero negative
    | ToInfinity => NDouble (DInfinity negative)
    | ToFinite m e => classify negative m e
    end.

(** ** Number::toString *)

Definition ndigits (s : Z) : Z := Z.of_nat (String.length (dec s)).

(** The decimal [s * 10^(n - k)], [k] the number of digits of [s], reads
    back as [m * 2^e]. *)
Definition digits_ok (m : positive) (e : Z) (s n : Z) : bool :=
  (0 <? s)
  && (let (num, den) := ratio s (n - ndigits s) in
      match round_ratio num den with
      | ToFinite m' e' => Pos.eqb m m' && (e =? e')
      | _ => false
      end).

(** [10^n <= m * 2^e]. *)
Definition at_least_pow10 (m : positive) (e n : Z) : bool :=
  2 ^ Z.max (- e) 0 * 10 ^ Z.max n 0 <=? Zpos m * 2 ^ Z.max e 0 * 10 ^ Z.max (- n) 0.

(** The [n] with [10^(n-1) <= m * 2^e < 10^n]: an estimate from the binary
    logarithm, adjusted by exact comparisons. *)
Definition decimal_exponent (m : positive) (e : Z) : Z :=
  let guess := (Z.log2 (Zpos m) + e) * 30103 / 100000 + 1 in
  let up := if at_least_pow10 m e guess then guess + 1 else guess in
  let up := if at_least_pow10 m e up then up + 1 else up in
  let down := if at_least_pow10 m e (up - 1) then up else up - 1 in
  if at_least_pow10 m e (down - 1) then down else down - 1.

(** The [k]-digit decimals just below and just above [m * 2^e]; of those
    that read back as [m * 2^e] the nearer one, the even one on a tie. *)
Definition candidate (m : positive) (e : Z) (k : Z) : option (Z * Z) :=
  let n := decimal_exponent m e in
  let j := k - n in
  let num := Zpos m * 2 ^ Z.max e 0 * 10 ^ Z.max j 0 in
  let den := 2 ^ Z.max (- e) 0 * 10 ^ Z.max (- j) 0 in
  let lo := num / den in
  let r := num mod den in
  let hi := if lo + 1 =? 10 ^ k then (10 ^ (k - 1), n + 1) else (lo + 1, n) in
  let ok_lo := digits_ok m e lo n in
  let ok_hi := digits_ok m e (fst hi) (snd hi) in
  if ok_lo && ok_hi then
    if 2 * r <? den then Some (lo, n)
    else if den <? 2 * r then Some hi
    else if Z.even lo then Some (lo, n) else Some hi
  else if ok_lo then Some (lo, n)
  else if ok_hi then Some hi
  else None.

(** The fewest digits that identify the number: [k] grows from 1. *)
Fixpoint search (m : positive) (e : Z) (k : Z) (fuel : nat) : option (Z * Z) :=
  match fuel with
  | O => None
  | S fuel' =>
      match candidate m e k with
      | Some c => Some c
      | None => search m e (k + 1) fuel'
      end
  end.

(** All the digits of [m * 2^e]: those of [m * 2^e] itself, or of
    [m * 5^(-e)] with the point moved. *)
Definition exact_digits (m : positive) (e : Z) : Z * Z :=
  if 0 <=? e then let s := Zpos m * 2 ^ e in (s, ndigits s)
  else let s := Zpos m * 5 ^ (- e) in (s, ndigits s + e).

(** The digits [s] and the exponent [n] of Number::toString.  Seventeen
    digits identify every binary64, so the search ends within its fuel;
    [exact_digits] closes the definition. *)
Definition digits_of (m : positive) (e : Z) : Z * Z :=
  match search m e 1 17 with
  | Some c => c
  | None => exact_digits m e
  end.

(** The exponent part: [e], the sign, the digits. *)
Definition exponent_text (x : Z) : string :=
  (if x <? 0 then "e-" else "e+") ++ dec (Z.abs x).

(** The layouts of Number::toString over the digits [s] ([k] of them) and
    the exponent [n]. *)
Definition layout (s n : Z) : string :=
  let d := dec s in
  let k := ndigits s in
  if (k <=? n) && (n <=? 21) then d ++ zeros (Z.to_nat (n - k))
  else if (0 <? n) && (n <=? 21) then
    take (Z.to_nat n) d ++ "." ++ drop (Z.to_nat n) d
  else if (-6 <? n) && (n <=? 0) then "0." ++ zeros (Z.to_nat (- n)) ++ d
  else if k =? 1 then d ++ exponent_text (n - 1)
  else take 1 d ++ "." ++ drop 1 d ++ exponent_text (n - 1).

Definition double_to_string (x : Double) : string :=
  match x with
  | DNaN => "NaN"
  | DInfinity false => "Infinity"
  | DInfinity true => "-Infinity"
  | DNegZero => "0"
  | DFinite negative m e =>
      let (s, n) := digits_of m e in
      (if negative then "-" else "") ++ layout s n
  end.

(** ** Reading a decimal literal *)

(** The longest prefix of decimal digits. *)
Fixpoint span_digits (s : string) : string * string :=
  match s with
  | String c r =>
      if is_digit c then let (d, rest) := span_digits r in (String c d, rest)
      else (EmptyString, s)
  | EmptyString => (EmptyString, s)
  end.

Definition value_of (digits : string) : Z :=
  match digits_value 10 digits 0 with
  | Some v => v
  | None => 0
  end.

(** An optional fraction: a point and at least one digit. *)
Definition lex_fraction (s : string) : option (string * string) :=
  match s with
  | String "." r =>
      match span_digits r with
      | (EmptyString, _) => None
      | (f, rest) => Some (f, rest)
      end
  | _ => Some (EmptyString, s)
  end.

(** An optional exponent: [e] or [E], an optional sign, at least one
    digit. *)
Definition lex_exponent (s : string) : option (Z * string) :=
  match s with
  | String c r =>
      if Ascii.eqb c "e" || Ascii.eqb c "E" then
        let (negative, body) :=
          match r with
          | String x r' =>
              if Ascii.eqb x "-" then (true, r')
              else if Ascii.eqb x "+" then (false, r')
              else (false, r)
          | EmptyString => (false, r)
          end in
        match span_digits body with
        | (EmptyString, _) => None
        | (ds, rest) => Some (signed negative (value_of ds), rest)
        end
      else Some (0, s)
  | EmptyString => Some (0, s)
  end.

(** The number after its sign: [0] or a digit sequence without leading zero,
    an optional fraction, an optional exponent. *)
Definition lex_unsigned (negative : bool) (body : string) : option (Number * string) :=
  match span_digits body with
  | (EmptyString, _) => None
  | (String c more as whole, r1) =>
      if Ascii.eqb c "0" && negb (String.eqb more "") then None
      else
        match lex_fraction r1 with
        | None => None
        | Some (frac, r2) =>
            match lex_exponent r2 with
            | None => None
            | Some (ex, r3) =>
                Some (number_of_decimal negative
                        (value_of (whole ++ frac))
                        (ex - Z.of_nat (String.length frac)),
                      r3)
            end
        end
  end.

(** A JSON number and the text after it: an optional minus sign, then the
    number. *)
Definition lex_number (s : string) : option (Number * string) :=
  match s with
  | String c r => if Ascii.eqb c "-" then lex_unsigned true r else lex_unsigned false s
  | EmptyString => None
  end.

End Numbers.
Import Numbers.

(* ================================================================== *)
(** * JavaScript values                                                *)
(* ================================================================== *)

Module Js.

(** The class of an object decides which prototype its property reads fall
    back to and which own properties [JSON.stringify] enumerates. *)
Inductive JsClass : Type :=
| ClsPlain                 (* object literal, result of JSON.parse *)
| ClsError                 (* new Error(message) *)
| ClsTypeError             (* raised by the engine, e.g. reading a property of undefined *)
| ClsSyntaxError           (* raised by JSON.parse *)
| ClsLicenseChainError.    (* new LicenseChainError(code, message, details) *)

(** Data values.  [JNum] holds the integer-valued numbers (chain ids, token
    ids, timestamps, RPC error codes), [JDouble] the other Number values; a
    string is a sequence of code units below 256; an object is the list of
    its own properties in enumeration order.  The values are finite trees
    without bigints: a value that holds a bigint or refers to itself is none
    of them. *)
Inductive JsValue : Type :=
| JUndefined
| JNull
| JBool (b : bool)
| JNum (n : Z)
| JDouble (x : Double)
| JStr (s : string)
| JArr (items : list JsValue)
| JObj (cls : JsClass) (props : list (string * JsValue)).

(** Result of evaluating an expression that may throw. *)
Inductive Completion (A : Type) : Type :=
| Normal (a : A)
| Throw (e : JsValue).
Arguments Normal {A} a.
Arguments Throw {A} e.

(** A settled promise. *)
Inductive Settled (A : Type) : Type :=
| Fulfilled (a : A)
| Rejected (e : JsValue).
Arguments Fulfilled {A} a.
Arguments Rejected {A} e.

Definition class_eqb (c d : JsClass) : bool :=
  match c, d with
  | ClsPlain, ClsPlain | ClsError, ClsError | ClsTypeError, ClsTypeError
  | ClsSyntaxError, ClsSyntaxError
  | ClsLicenseChainError, ClsLicenseChainError => true
  | _, _ => false
  end.

Fixpoint lookup {A : Type} (k : string) (l : list (string * A)) : option A :=
  match l with
  | [] => None
  | (k', v) :: rest => if String.eqb k k' then Some v else lookup k rest
  end.

Definition number_value (n : Number) : JsValue :=
  match n with
  | NInt z => JNum z
  | NDouble x => JDouble x
  end.

(** [new Error(message)]: [message] is an own property. *)
Definition new_Error (message : string) : JsValue :=
  JObj ClsError [("message", JStr message)].

(** The [TypeError] the engine raises on [v.prop] when [v] is [undefined] or
    [null]. *)
Definition TypeError_read (prop : string) (v : JsValue) : JsValue :=
  JObj ClsTypeError
    [("message",
      JStr ("Cannot read properties of "
            ++ (match v with JNull => "null" | _ => "undefined" end)
            ++ " (reading '" ++ prop ++ "')"))].

(** Property read [v.name], for the names the SDK reads on a failure cause
    ([code], [message]).  Reading a property of [undefined] or [null] throws;
    primitives and arrays have no such property; an object answers with its
    own property, else with what its prototype provides (an [Error] prototype
    supplies the empty [message] and its class [name]). *)
Definition proto_name (cls : JsClass) : string :=
  match cls with
  | ClsPlain => ""
  | ClsError | ClsLicenseChainError => "Error"
  | ClsTypeError => "TypeError"
  | ClsSyntaxError => "SyntaxError"
  end.

Definition proto_prop (cls : JsClass) (name : string) : JsValue :=
  match cls with
  | ClsPlain => JUndefined
  | _ =>
      if String.eqb name "message" then JStr ""
      else if String.eqb name "name" then JStr (proto_name cls)
      else JUndefined
  end.

Definition get_prop (v : JsValue) (name : string) : Completion JsValue :=
  match v with
  | JUndefined | JNull => Throw (TypeError_read name v)
  | JBool _ | JNum _ | JDouble _ | JStr _ | JArr _ => Normal JUndefined
  | JObj cls props =>
      match lookup name props with
      | Some x => Normal x
      | None => Normal (proto_prop cls name)
      end
  end.

(** Truthiness (the test of [||], [&&], [if] and [!]). *)
Definition truthy (v : JsValue) : bool :=
  match v with
  | JUndefined | JNull => false
  | JBool b => b
  | JNum n => negb (n =? 0)
  | JDouble (DNaN | DNegZero) => false
  | JDouble _ => true
  | JStr s => negb (String.eqb s "")
  | JArr _ | JObj _ _ => true
  end.

(** Strict equality [v === s] against a string literal. *)
Definition strict_eq_str (v : JsValue) (s : string) : bool :=
  match v with JStr t => String.eqb t s | _ => false end.

(** Strict equality [v === n] against an integer literal. *)
Definition strict_eq_num (v : JsValue) (n : Z) : bool :=
  match v with
  | JNum m => m =? n
  | JDouble DNegZero => n =? 0
  | _ => false
  end.

Definition join (sep : string) (parts : list string) : string :=
  match parts with
  | [] => ""
  | p :: rest => p ++ fold_right (fun q acc => sep ++ q ++ acc) "" rest
  end.

(** [ToString]: the conversion [Error]'s constructor applies to its message
    argument.  Arrays join the conversions of their items (holes for
    [undefined] and [null]); a plain object answers ["[object Object]"]; an
    error answers [name: message], an [undefined] name standing for
    ["Error"] and an [undefined] message for the empty string. *)
Fixpoint to_string (v : JsValue) : string :=
  match v with
  | JUndefined => "undefined"
  | JNull => "null"
  | JBool true => "true"
  | JBool false => "false"
  | JNum n => dec n
  | JDouble x => double_to_string x
  | JStr s => s
  | JArr items =>
      join "," (map (fun x => match x with
                              | JUndefined | JNull => ""
                              | _ => to_string x
                              end) items)
  | JObj ClsPlain _ => "[object Object]"
  | JObj cls props =>
      let strs :=
        map (fun kv => (fst kv,
                        match snd kv with
                        | JUndefined => None
                        | _ => Some (to_string (snd kv))
                        end)) props in
      let name := match lookup "name" strs with
                  | Some (Some s) => s
                  | Some None => "Error"
                  | None => proto_name cls
                  end in
      let msg := match lookup "message" strs with
                 | Some (Some s) => s
                 | _ => ""
                 end in
      if String.eqb name "" then msg
      else if String.eqb msg "" then name
      else name ++ ": " ++ msg
  end.

(** [s.includes(sub)] on strings. *)
Fixpoint str_includes (s sub : string) : bool :=
  String.prefix sub s
  || match s with
     | EmptyString => false
     | String _ rest => str_includes rest sub
     end.

End Js.
Import Js.

(* ================================================================== *)
(** * JSON.stringify and JSON.parse                                    *)
(* ================================================================== *)

Module Json.

Definition dquote : ascii := "034"%char.
Definition backslash : ascii := "092"%char.

(** Lower-case hexadecimal digit, as [QuoteJSONString] writes it. *)
Definition hex_char (n : N) : ascii :=
  if (n <? 10)%N then ascii_of_N (48 + n) else ascii_of_N (87 + n).

(** [QuoteJSONString] on one code unit: the two-character escapes, the
    [\u00xx] form for the other control characters, the character itself
    otherwise. *)
Definition quote_char (c : ascii) : string :=
  let n := N_of_ascii c in
  if Ascii.eqb c dquote then String backslash (String dquote EmptyString)
  else if Ascii.eqb c backslash then String backslash (String backslash EmptyString)
  else if (n =? 8)%N then String backslash "b"
  else if (n =? 12)%N then String backslash "f"
  else if (n =? 10)%N then String backslash "n"
  else if (n =? 13)%N then String backslash "r"
  else if (n =? 9)%N then String backslash "t"
  else if (n <? 32)%N then
    String backslash
      ("u00" ++ String (hex_char (n / 16)) (String (hex_char (n mod 16)) EmptyString))
  else String c EmptyString.

Fixpoint quote_body (s : string) : string :=
  match s with
  | EmptyString => EmptyString
  | String c rest => quote_char c ++ quote_body rest
  end.

Definition quote (s : string) : string :=
  String dquote (quote_body s ++ String dquote EmptyString).

(** Own properties [JSON.stringify] skips: an error's [message] is not
    enumerable. *)
Definition enumerable (cls : JsClass) (key : string) : bool :=
  match cls with
  | ClsPlain => true
  | _ => negb (String.eqb key "message")
  end.

(** [SerializeJSONProperty] without indentation: [undefined] has no
    serialisation; inside an array it is written [null], inside an object its
    property is left out; a number that is not finite is written [null].
    On the values of [JsValue] it never throws: [JSON.stringify] throws on
    a bigint and on a value that refers to itself only. *)
Fixpoint serialize (v : JsValue) : option string :=
  match v with
  | JUndefined => None
  | JNull => Some "null"
  | JBool true => Some "true"
  | JBool false => Some "false"
  | JNum n => Some (dec n)
  | JDouble (DNaN | DInfinity _) => Some "null"
  | JDouble x => Some (double_to_string x)
  | JStr s => Some (quote s)
  | JArr items =>
      Some ("[" ++ join ","
                     (map (fun x => match serialize x with
                                    | Some t => t
                                    | None => "null"
                                    end) items)
                ++ "]")
  | JObj cls props =>
      Some ("{" ++ join ","
                     (List.concat
                        (map (fun kv =>
                                if enumerable cls (fst kv) then
                                  match serialize (snd kv) with
                                  | Some t => [quote (fst kv) ++ ":" ++ t]
                                  | None => []
                                  end
                                else []) props))
                ++ "}")
  end.

(** [JSON.stringify(value)]: a string, or [undefined] ([None]). *)
Definition JSON_stringify (value : JsValue) : option string := serialize value.

(** ** Parsing *)

Definition is_ws (c : ascii) : bool :=
  let n := N_of_ascii c in
  ((n =? 32) || (n =? 9) || (n =? 10) || (n =? 13))%N.

Fixpoint skip_ws (s : string) : string :=
  match s with
  | String c rest => if is_ws c then skip_ws rest else s
  | EmptyString => s
  end.

Definition hex_val (c : ascii) : option N :=
  let n := N_of_ascii c in
  if ((48 <=? n) && (n <=? 57))%N then Some (n - 48)%N
  else if ((97 <=? n) && (n <=? 102))%N then Some (n - 87)%N
  else if ((65 <=? n) && (n <=? 70))%N then Some (n - 55)%N
  else None.

(** The character a two-character escape stands for. *)
Definition unescape (e : ascii) : option ascii :=
  if Ascii.eqb e dquote then Some dquote
  else if Ascii.eqb e backslash then Some backslash
  else if Ascii.eqb e "/" then Some "/"%char
  else if Ascii.eqb e "b" then Some "008"%char
  else if Ascii.eqb e "f" then Some "012"%char
  else if Ascii.eqb e "n" then Some "010"%char
  else if Ascii.eqb e "r" then Some "013"%char
  else if Ascii.eqb e "t" then Some "009"%char
  else None.

(** The code unit of [\uXXXX]; code units above 255 are outside the strings
    modelled here. *)
Definition unicode_escape (h1 h2 h3 h4 : ascii) : option ascii :=
  match hex_val h1, hex_val h2, hex_val h3, hex_val h4 with
  | Some a, Some b, Some c, Some d =>
      let n := (4096 * a + 256 * b + 16 * c + d)%N in
      if (n <? 256)%N then Some (ascii_of_N n) else None
  | _, _, _, _ => None
  end.

Definition cons_char (c : ascii) (r : option (string * string))
  : option (string * string) :=
  match r with
  | Some (t, rest) => Some (String c t, rest)
  | None => None
  end.

(** The inside of a string literal, after its opening quote, up to and
    including the closing quote.  A raw control character is a syntax
    error. *)
Fixpoint parse_string_body (s : string) : option (string * string) :=
  match s with
  | EmptyString => None
  | String c r =>
      if Ascii.eqb c dquote then Some (EmptyString, r)
      else if Ascii.eqb c backslash then
        match r with
        | String e r1 =>
            match unescape e with
            | Some d => cons_char d (parse_string_body r1)
            | None =>
                if Ascii.eqb e "u" then
                  match r1 with
                  | String h1 (String h2 (String h3 (String h4 r2))) =>
                      match unicode_escape h1 h2 h3 h4 with
                      | Some d => cons_char d (parse_string_body r2)
                      | None => None
                      end
                  | _ => None
                  end
                else None
            end
        | EmptyString => None
        end
      else if (N_of_ascii c <? 32)%N then None
      else cons_char c (parse_string_body r)
  end.

(** A JSON number: [StringToNumber] on the longest text of the number
    grammar. *)
Definition parse_number (s : string) : option (Number * string) := lex_number s.

(** An array index: the canonical decimal text of an integer below
    [2^32 - 1]. *)
Definition array_index (k : string) : option Z :=
  match k with
  | EmptyString => None
  | String c more =>
      if all_digits k
         && negb (Ascii.eqb c "0" && negb (String.eqb more ""))
         && (value_of k <=? 4294967294)
      then Some (value_of k)
      else None
  end.

(** The order in which an object lists its own keys: array indices first,
    ascending; the other keys after them, in the order of their creation. *)
Definition goes_before (k k' : string) : bool :=
  match array_index k, array_index k' with
  | Some i, Some j => i <? j
  | Some _, None => true
  | None, _ => false
  end.

(** [CreateDataProperty] on an object built by it: a repeated key keeps its
    place and takes the later value; a new key takes its place in the order
    of the keys. *)
Fixpoint set_prop (k : string) (v : JsValue) (props : list (string * JsValue))
  : list (string * JsValue) :=
  match props with
  | [] => [(k, v)]
  | (k', v') :: rest =>
      if String.eqb k k' then (k, v) :: rest
      else if goes_before k k' then (k, v) :: props
      else (k', v') :: set_prop k v rest
  end.

Definition object_of_members (members : list (string * JsValue)) : JsValue :=
  JObj ClsPlain (fold_left (fun acc kv => set_prop (fst kv) (snd kv) acc) members []).

(** The text after a literal word, if the text starts with it. *)
Fixpoint strip_prefix (word s : string) : option string :=
  match word with
  | EmptyString => Some s
  | String a word' =>
      match s with
      | String b s' => if Ascii.eqb a b then strip_prefix word' s' else None
      | EmptyString => None
      end
  end.

Definition expect (word : string) (s : string) (v : JsValue)
  : option (JsValue * string) :=
  match strip_prefix word s with
  | Some rest => Some (v, rest)
  | None => None
  end.

(** Recursive descent over the text; [fuel] bounds the nesting of calls. *)
Fixpoint parse_value (fuel : nat) (s : string) : option (JsValue * string) :=
  match fuel with
  | O => None
  | S fuel' =>
      match skip_ws s with
      | EmptyString => None
      | String c r =>
          if Ascii.eqb c dquote then
            match parse_string_body r with
            | Some (t, r') => Some (JStr t, r')
            | None => None
            end
          else if Ascii.eqb c "[" then
            match skip_ws r with
            | String "]" r' => Some (JArr [], r')
            | _ =>
                match parse_elements fuel' r with
                | Some (items, r') => Some (JArr items, r')
                | None => None
                end
            end
          else if Ascii.eqb c "{" then
            match skip_ws r with
            | String "}" r' => Some (JObj ClsPlain [], r')
            | _ =>
                match parse_members fuel' r with
                | Some (members, r') => Some (object_of_members members, r')
                | None => None
                end
            end
          else if Ascii.eqb c "n" then expect "null" (String c r) JNull
          else if Ascii.eqb c "t" then expect "true" (String c r) (JBool true)
          else if Ascii.eqb c "f" then expect "false" (String c r) (JBool false)
          else
            match parse_number (String c r) with
            | Some (n, r') => Some (number_value n, r')
            | None => None
            end
      end
  end

with parse_elements (fuel : nat) (s : string) : option (list JsValue * string) :=
  match fuel with
  | O => None
  | S fuel' =>
      match parse_value fuel' s with
      | None => None
      | Some (v, r) =>
          match skip_ws r with
          | String c r' =>
              if Ascii.eqb c "," then
                match parse_elements fuel' r' with
                | Some (vs, r'') => Some (v :: vs, r'')
                | None => None
                end
              else if Ascii.eqb c "]" then Some ([v], r')
              else None
          | EmptyString => None
          end
      end
  end

with parse_members (fuel : nat) (s : string)
  : option (list (string * JsValue) * string) :=
  match fuel with
  | O => None
  | S fuel' =>
      match skip_ws s with
      | String c r =>
          if Ascii.eqb c dquote then
            match parse_string_body r with
            | None => None
            | Some (k, r1) =>
                match skip_ws r1 with
                | String c1 r2 =>
                    if Ascii.eqb c1 ":" then
                      match parse_value fuel' r2 with
                      | None => None
                      | Some (v, r3) =>
                          match skip_ws r3 with
                          | String c3 r4 =>
                              if Ascii.eqb c3 "," then
                                match parse_members fuel' r4 with
                                | Some (ms, r5) => Some ((k, v) :: ms, r5)
                                | None => None
                                end
                              else if Ascii.eqb c3 "}" then Some ([(k, v)], r4)
                              else None
                          | EmptyString => None
                          end
                      end
                    else None
                | EmptyString => None
                end
            end
          else None
      | EmptyString => None
      end
  end.

(** The [SyntaxError] of the parser.  The wording of its message is the
    engine's own and varies with the text; one wording stands for all of
    them here. *)
Definition SyntaxError : JsValue :=
  JObj ClsSyntaxError [("message", JStr "Unexpected token in JSON")].

(** [JSON.parse(text)]: the value of the whole text, or a [SyntaxError].
    Every call of the descent above consumes a character within two levels,
    so twice the length of the text bounds the nesting.  A [\u] escape of a
    code unit above 255 stands for a string outside the strings modelled
    here and is refused, see [narrow_escapes]. *)
Definition JSON_parse (text : string) : Completion JsValue :=
  match parse_value (2 * String.length text + 2) text with
  | Some (v, rest) =>
      match skip_ws rest with
      | EmptyString => Normal v
      | String _ _ => Throw SyntaxError
      end
  | None => Throw SyntaxError
  end.

(** No [\u] escape in the text names a code unit above 255: the two hex
    digits after every [\u] are zeros. *)
Fixpoint narrow_escapes (text : string) : bool :=
  match text with
  | EmptyString => true
  | String c rest =>
      (if Ascii.eqb c backslash then
         match rest with
         | String "u" (String h1 (String h2 _)) => Ascii.eqb h1 "0" && Ascii.eqb h2 "0"
         | _ => true
         end
       else true)
      && narrow_escapes rest
  end.

(** ** Values that JSON represents *)

Fixpoint distinct (keys : list string) : bool :=
  match keys with
  | [] => true
  | k :: rest => negb (existsb (String.eqb k) rest) && distinct rest
  end.

(** The keys stand in the order an object lists them. *)
Fixpoint ordered (keys : list string) : bool :=
  match keys with
  | [] => true
  | k :: rest => forallb (fun k' => negb (goes_before k' k)) rest && ordered rest
  end.

(** A value built only from [null], booleans, finite numbers other than
    negative zero, strings, arrays and plain objects, an object holding its
    properties under pairwise distinct keys in the order it lists them. *)
Fixpoint json_value (v : JsValue) : bool :=
  match v with
  | JUndefined => false
  | JNull | JBool _ | JStr _ => true
  | JNum n => safe_integer n
  | JDouble (DFinite _ _ _ as x) => proper x
  | JDouble _ => false
  | JArr items => forallb json_value items
  | JObj cls props =>
      class_eqb cls ClsPlain
      && distinct (map fst props)
      && ordered (map fst props)
      && forallb (fun kv => json_value (snd kv)) props
  end.

End Json.
Import Json.

(* ================================================================== *)
(** * src/errors.ts                                                    *)
(* ================================================================== *)

Module Errors.

(** The string enum [ErrorCodes]; each member's value is its own name. *)
Inductive ErrorCodes : Type :=
| NETWORK_ERROR | RPC_ERROR | TIMEOUT_ERROR
| TRANSACTION_FAILED | TRANSACTION_REVERTED | INSUFFICIENT_FUNDS
| GAS_ESTIMATION_FAILED
| CONTRACT_NOT_DEPLOYED | CONTRACT_NOT_VERIFIED | INVALID_CONTRACT_ADDRESS
| INVALID_TOKEN_ID | LICENSE_NOT_FOUND | LICENSE_EXPIRED | LICENSE_REVOKED
| LICENSE_ALREADY_EXISTS | INVALID_LICENSE_METADATA
| UNAUTHORIZED | INSUFFICIENT_PERMISSIONS | ROLE_NOT_GRANTED
| INVALID_ADDRESS | INVALID_NETWORK | INVALID_CONFIG | INVALID_METADATA
| INSUFFICIENT_SIGNATURES | INVALID_SIGNATURE | SIGNATURE_TIMEOUT
| UPGRADE_NOT_AUTHORIZED | INVALID_IMPLEMENTATION | UPGRADE_FAILED
| UNKNOWN_ERROR | VALIDATION_ERROR | CONFIGURATION_ERROR.

Definition all_codes : list ErrorCodes :=
  [ NETWORK_ERROR; RPC_ERROR; TIMEOUT_ERROR;
    TRANSACTION_FAILED; TRANSACTION_REVERTED; INSUFFICIENT_FUNDS;
    GAS_ESTIMATION_FAILED;
    CONTRACT_NOT_DEPLOYED; CONTRACT_NOT_VERIFIED; INVALID_CONTRACT_ADDRESS;
    INVALID_TOKEN_ID; LICENSE_NOT_FOUND; LICENSE_EXPIRED; LICENSE_REVOKED;
    LICENSE_ALREADY_EXISTS; INVALID_LICENSE_METADATA;
    UNAUTHORIZED; INSUFFICIENT_PERMISSIONS; ROLE_NOT_GRANTED;
    INVALID_ADDRESS; INVALID_NETWORK; INVALID_CONFIG; INVALID_METADATA;
    INSUFFICIENT_SIGNATURES; INVALID_SIGNATURE; SIGNATURE_TIMEOUT;
    UPGRADE_NOT_AUTHORIZED; INVALID_IMPLEMENTATION; UPGRADE_FAILED;
    UNKNOWN_ERROR; VALIDATION_ERROR; CONFIGURATION_ERROR ].

Definition code_string (c : ErrorCodes) : string :=
  match c with
  | NETWORK_ERROR => "NETWORK_ERROR"
  | RPC_ERROR => "RPC_ERROR"
  | TIMEOUT_ERROR => "TIMEOUT_ERROR"
  | TRANSACTION_FAILED => "TRANSACTION_FAILED"
  | TRANSACTION_REVERTED => "TRANSACTION_REVERTED"
  | INSUFFICIENT_FUNDS => "INSUFFICIENT_FUNDS"
  | GAS_ESTIMATION_FAILED => "GAS_ESTIMATION_FAILED"
  | CONTRACT_NOT_DEPLOYED => "CONTRACT_NOT_DEPLOYED"
  | CONTRACT_NOT_VERIFIED => "CONTRACT_NOT_VERIFIED"
  | INVALID_CONTRACT_ADDRESS => "INVALID_CONTRACT_ADDRESS"
  | INVALID_TOKEN_ID => "INVALID_TOKEN_ID"
  | LICENSE_NOT_FOUND => "LICENSE_NOT_FOUND"
  | LICENSE_EXPIRED => "LICENSE_EXPIRED"
  | LICENSE_REVOKED => "LICENSE_REVOKED"
  | LICENSE_ALREADY_EXISTS => "LICENSE_ALREADY_EXISTS"
  | INVALID_LICENSE_METADATA => "INVALID_LICENSE_METADATA"
  | UNAUTHORIZED => "UNAUTHORIZED"
  | INSUFFICIENT_PERMISSIONS => "INSUFFICIENT_PERMISSIONS"
  | ROLE_NOT_GRANTED => "ROLE_NOT_GRANTED"
  | INVALID_ADDRESS => "INVALID_ADDRESS"
  | INVALID_NETWORK => "INVALID_NETWORK"
  | INVALID_CONFIG => "INVALID_CONFIG"
  | INVALID_METADATA => "INVALID_METADATA"
  | INSUFFICIENT_SIGNATURES => "INSUFFICIENT_SIGNATURES"
  | INVALID_SIGNATURE => "INVALID_SIGNATURE"
  | SIGNATURE_TIMEOUT => "SIGNATURE_TIMEOUT"
  | UPGRADE_NOT_AUTHORIZED => "UPGRADE_NOT_AUTHORIZED"
  | INVALID_IMPLEMENTATION => "INVALID_IMPLEMENTATION"
  | UPGRADE_FAILED => "UPGRADE_FAILED"
  | UNKNOWN_ERROR => "UNKNOWN_ERROR"
  | VALIDATION_ERROR => "VALIDATION_ERROR"
  | CONFIGURATION_ERROR => "CONFIGURATION_ERROR"
  end.

(** [new LicenseChainError(code, message, details)]: [super(message)] creates
    the [message] property, then the constructor assigns [name], [code] and
    [details].  (The engine-specific [stack] property is left out.) *)
Definition new_LicenseChainError
    (code : ErrorCodes) (message : string) (details : JsValue) : JsValue :=
  JObj ClsLicenseChainError
    [ ("message", JStr message);
      ("name", JStr "LicenseChainError");
      ("code", JStr (code_string code));
      ("details", details) ].

(** The object literal [{ originalError: error }]. *)
Definition original_error_details (error : JsValue) : JsValue :=
  JObj ClsPlain [("originalError", error)].

(** [error.message || fallback], converted by the [Error] constructor. *)
Definition message_or (message : JsValue) (fallback : string) : string :=
  if truthy message then to_string message else fallback.

(** [LicenseChainError.fromEthersError(error)]. *)
Definition fromEthersError (error : JsValue) : Completion JsValue :=
  match get_prop error "code" with
  | Throw e => Throw e
  | Normal code =>
      if strict_eq_str code "INSUFFICIENT_FUNDS" then
        Normal (new_LicenseChainError INSUFFICIENT_FUNDS
                  "Insufficient funds for transaction"
                  (original_error_details error))
      else if strict_eq_str code "UNPREDICTABLE_GAS_LIMIT" then
        Normal (new_LicenseChainError GAS_ESTIMATION_FAILED
                  "Gas estimation failed"
                  (original_error_details error))
      else if strict_eq_str code "CALL_EXCEPTION" then
        Normal (new_LicenseChainError TRANSACTION_REVERTED
                  "Transaction reverted"
                  (original_error_details error))
      else if strict_eq_str code "NETWORK_ERROR" then
        Normal (new_LicenseChainError NETWORK_ERROR
                  "Network error occurred"
                  (original_error_details error))
      else
        match get_prop error "message" with
        | Throw e => Throw e
        | Normal message =>
            Normal (new_LicenseChainError UNKNOWN_ERROR
                      (message_or message "Unknown error occurred")
                      (original_error_details error))
        end
  end.

(** [LicenseChainError.fromRpcError(error)]. *)
Definition fromRpcError (error : JsValue) : Completion JsValue :=
  match get_prop error "code" with
  | Throw e => Throw e
  | Normal code =>
      if strict_eq_num code (-32603) then
        Normal (new_LicenseChainError RPC_ERROR
                  "Internal JSON-RPC error"
                  (original_error_details error))
      else if strict_eq_num code (-32602) then
        Normal (new_LicenseChainError VALIDATION_ERROR
                  "Invalid parameters"
                  (original_error_details error))
      else if strict_eq_num code (-32000) then
        Normal (new_LicenseChainError TRANSACTION_FAILED
                  "Transaction failed"
                  (original_error_details error))
      else
        match get_prop error "message" with
        | Throw e => Throw e
        | Normal message =>
            Normal (new_LicenseChainError RPC_ERROR
                      (message_or message "RPC error occurred")
                      (original_error_details error))
        end
  end.

(** [LicenseChainError.invalidNetwork(network)]. *)
Definition invalidNetwork (network : string) : JsValue :=
  new_LicenseChainError INVALID_NETWORK
    ("Invalid network: " ++ network)
    (JObj ClsPlain [("network", JStr network)]).

(** ** Reading a normalised error back *)

Definition code_of_string (s : string) : option ErrorCodes :=
  find (fun c => String.eqb (code_string c) s) all_codes.

(** The kind of a failure: the [code] of a [LicenseChainError] instance;
    nothing for any other thrown value. *)
Definition kind_of (e : JsValue) : option ErrorCodes :=
  match e with
  | JObj ClsLicenseChainError props =>
      match lookup "code" props with
      | Some (JStr s) => code_of_string s
      | _ => None
      end
  | _ => None
  end.

(** [e.details.originalError] of a [LicenseChainError] instance. *)
Definition original_cause (e : JsValue) : option JsValue :=
  match e with
  | JObj ClsLicenseChainError props =>
      match lookup "details" props with
      | Some (JObj ClsPlain d) => lookup "originalError" d
      | _ => None
      end
  | _ => None
  end.

(** [e instanceof LicenseChainError]. *)
Definition is_LicenseChainError (e : JsValue) : bool :=
  match e with
  | JObj ClsLicenseChainError _ => true
  | _ => false
  end.

End Errors.
Import Errors.

(* ================================================================== *)
(** * src/types.ts                                                     *)
(* ================================================================== *)

Module Types.

Record EthereumConfig : Type := {
  network : string;
  privateKey : option string;
  rpcUrl : option string;
  chainId : option Z;
  gasPrice : option string;
  gasLimit : option Z;
  confirmations : option Z
}.

Record NetworkConfig : Type := {
  nc_chainId : Z;
  nc_rpcUrl : string;
  nc_explorerUrl : string;
  nc_name : string
}.

Record LicenseMetadata : Type := {
  software : string;
  version : string;
  features : list string;
  expiresAt : option Number;
  customData : option (list (string * JsValue))
}.

Record MintOptions : Type := {
  mo_to : string;
  mo_tokenId : Z;
  mo_metadata : LicenseMetadata;
  mo_expiresAt : option Z
}.

(** [BatchMintOptions] has the fields of [MintOptions]. *)
Definition BatchMintOptions : Type := MintOptions.

(** The union ['pending' | 'confirmed' | 'failed']. *)
Inductive TxStatus : Type := pending | confirmed | failed.

Record TransactionResult : Type := {
  tr_hash : string;
  tr_blockNumber : Z;
  tr_gasUsed : string;
  tr_status : TxStatus
}.

Record GasEstimate : Type := {
  ge_gasLimit : string;
  ge_gasPrice : string;
  ge_maxFeePerGas : option string;
  ge_maxPriorityFeePerGas : option string;
  ge_totalCost : string
}.

(** The JavaScript object a [LicenseMetadata] value is: the required
    properties, then the optional ones that are present. *)
Definition metadata_value (m : LicenseMetadata) : JsValue :=
  JObj ClsPlain
    ([ ("software", JStr (software m));
       ("version", JStr (version m));
       ("features", JArr (map JStr (features m))) ]
     ++ (match expiresAt m with
         | Some t => [("expiresAt", number_value t)]
         | None => []
         end)
     ++ (match customData m with
         | Some d => [("customData", JObj ClsPlain d)]
         | None => []
         end)).

End Types.
Import Types.

(* ================================================================== *)
(** * The ethers client library, as the SDK uses it                    *)
(* ================================================================== *)

Module Ethers.

(** What a contract method answers once the transaction is broadcast. *)
Record TransactionResponse : Type := { tx_hash : string }.

(** [status] is 1 for a successful transaction and 0 for a reverted one. *)
Record TransactionReceipt : Type := {
  r_hash : string;
  r_blockNumber : Z;
  r_gasUsed : Z;
  r_status : option Z;
  r_logs : list JsValue
}.

Record FeeData : Type := {
  fd_gasPrice : option Z;
  fd_maxFeePerGas : option Z;
  fd_maxPriorityFeePerGas : option Z
}.

(** The confirmation depth [tx.wait(confirms)] waits for: one confirmation
    when the argument is left out. *)
Definition wait_depth (confirms : option Z) : Z :=
  match confirms with
  | Some c => c
  | None => 1
  end.

(** [ethers.parseUnits('20', 'gwei')]. *)
Definition parseUnits_20_gwei : Z := 20 * 10 ^ 9.

(** Left-pads a digit string with zeros to the given width. *)
Definition pad_left (width : nat) (digits : string) : string :=
  zeros (width - String.length digits) ++ digits.

(** Drops every trailing zero. *)
Fixpoint drop_trailing_zeros (digits : string) : string :=
  match digits with
  | EmptyString => EmptyString
  | String c rest =>
      match drop_trailing_zeros rest with
      | EmptyString => if Ascii.eqb c "0" then EmptyString else String c EmptyString
      | kept => String c kept
      end
  end.

(** [ethers.formatUnits(value, decimals)]: the whole part, a decimal point,
    and the fractional part without trailing zeros but with at least one
    digit. *)
Definition formatUnits (value : Z) (decimals : nat) : string :=
  let unit := 10 ^ Z.of_nat decimals in
  let magnitude := Z.abs value in
  let fraction :=
    match drop_trailing_zeros (pad_left decimals (dec (magnitude mod unit))) with
    | EmptyString => "0"
    | kept => kept
    end in
  (if value <? 0 then "-" else EmptyString)
  ++ dec (magnitude / unit) ++ "." ++ fraction.

(** [ethers.formatEther(wei)]: the amount in ether, 18 decimals. *)
Definition formatEther (wei : Z) : string := formatUnits wei 18.

End Ethers.
Import Ethers.

(* ================================================================== *)
(** * src/utils.ts                                                     *)
(* ================================================================== *)

Module Utils.

(** ** getNetworkConfig *)

(** [rpcUrl || fallback]: an absent or empty [rpcUrl] gives the fallback. *)
Definition rpcUrl_or (rpcUrl : option string) (fallback : string) : string :=
  match rpcUrl with
  | Some u => if String.eqb u EmptyString then fallback else u
  | None => fallback
  end.

(** The own properties of the [configs] table. *)
Definition configs (rpcUrl : option string) : list (string * NetworkConfig) :=
  [ ("mainnet",
     {| nc_chainId := 1;
        nc_rpcUrl := rpcUrl_or rpcUrl "https://eth-mainnet.g.alchemy.com/v2/YOUR_KEY";
        nc_explorerUrl := "https://etherscan.io";
        nc_name := "Ethereum Mainnet" |});
    ("goerli",
     {| nc_chainId := 5;
        nc_rpcUrl := rpcUrl_or rpcUrl "https://eth-goerli.g.alchemy.com/v2/YOUR_KEY";
        nc_explorerUrl := "https://goerli.etherscan.io";
        nc_name := "Goerli Testnet" |});
    ("sepolia",
     {| nc_chainId := 11155111;
        nc_rpcUrl := rpcUrl_or rpcUrl "https://eth-sepolia.g.alchemy.com/v2/YOUR_KEY";
        nc_explorerUrl := "https://sepolia.etherscan.io";
        nc_name := "Sepolia Testnet" |});
    ("polygon",
     {| nc_chainId := 137;
        nc_rpcUrl := rpcUrl_or rpcUrl "https://polygon-mainnet.g.alchemy.com/v2/YOUR_KEY";
        nc_explorerUrl := "https://polygonscan.com";
        nc_name := "Polygon Mainnet" |});
    ("arbitrum",
     {| nc_chainId := 42161;
        nc_rpcUrl := rpcUrl_or rpcUrl "https://arb-mainnet.g.alchemy.com/v2/YOUR_KEY";
        nc_explorerUrl := "https://arbiscan.io";
        nc_name := "Arbitrum One" |});
    ("optimism",
     {| nc_chainId := 10;
        nc_rpcUrl := rpcUrl_or rpcUrl "https://opt-mainnet.g.alchemy.com/v2/YOUR_KEY";
        nc_explorerUrl := "https://optimistic.etherscan.io";
        nc_name := "Optimism" |}) ].

(** [configs] is an object literal, so [configs[network]] also finds what
    every object inherits from [Object.prototype]; each of these members is
    a function or an object, hence truthy. *)
Definition object_prototype_members : list string :=
  [ "constructor"; "__defineGetter__"; "__defineSetter__"; "hasOwnProperty";
    "__lookupGetter__"; "__lookupSetter__"; "isPrototypeOf";
    "propertyIsEnumerable"; "toString"; "valueOf"; "__proto__";
    "toLocaleString" ].

(** What [getNetworkConfig] hands back: a network record, or the inherited
    member a name of [Object.prototype] selects. *)
Inductive NetworkLookup : Type :=
| Resolved (c : NetworkConfig)
| Inherited (member : string).

(** [getNetworkConfig(network, rpcUrl?, chainId?)].  The custom branch needs
    a truthy [chainId] (present and non-zero) and a truthy [rpcUrl] (present
    and non-empty). *)
Definition getNetworkConfig
    (network : string) (rpcUrl : option string) (chainId : option Z)
  : Completion NetworkLookup :=
  let custom :=
    if String.eqb network "custom" then
      match chainId, rpcUrl with
      | Some id, Some url =>
          if negb (id =? 0) && negb (String.eqb url EmptyString)
          then Some (id, url) else None
      | _, _ => None
      end
    else None in
  match custom with
  | Some (id, url) =>
      Normal (Resolved {| nc_chainId := id;
                          nc_rpcUrl := url;
                          nc_explorerUrl := "https://etherscan.io";
                          nc_name := "Custom Network" |})
  | None =>
      match lookup network (configs rpcUrl) with
      | Some config => Normal (Resolved config)
      | None =>
          if existsb (String.eqb network) object_prototype_members
          then Normal (Inherited network)
          else Throw (new_Error ("Unsupported network: " ++ network))
      end
  end.

(** ** parseTransactionReceipt *)

Record ParsedReceipt : Type := {
  pr_hash : string;
  pr_blockNumber : Z;
  pr_gasUsed : string;
  pr_status : TxStatus;
  pr_logs : list JsValue
}.

Definition parseTransactionReceipt (receipt : TransactionReceipt) : ParsedReceipt :=
  {| pr_hash := r_hash receipt;
     pr_blockNumber := r_blockNumber receipt;
     pr_gasUsed := dec (r_gasUsed receipt);
     pr_status := match r_status receipt with
                  | Some 1 => confirmed
                  | _ => failed
                  end;
     pr_logs := r_logs receipt |}.

(** ** isRetryableError *)

Definition retryableErrors : list string :=
  [ "NETWORK_ERROR"; "TIMEOUT_ERROR"; "RPC_ERROR" ].

Definition TypeError_not_a_function : JsValue :=
  JObj ClsTypeError
    [("message", JStr "error.message?.includes is not a function")].

(** [message?.includes(code)]: skipped when [message] is [undefined] or
    [null]; a substring test on a string; a membership test on an array;
    any other value has no [includes] to call. *)
Definition optional_includes (message : JsValue) (code : string) : Completion bool :=
  match message with
  | JUndefined | JNull => Normal false
  | JStr s => Normal (str_includes s code)
  | JArr items => Normal (existsb (fun x => strict_eq_str x code) items)
  | JBool _ | JNum _ | JDouble _ | JObj _ _ => Throw TypeError_not_a_function
  end.

(** [codes.some(code => error.code === code || error.message?.includes(code))]. *)
Fixpoint some_code_matches (error : JsValue) (codes : list string) : Completion bool :=
  match codes with
  | [] => Normal false
  | code :: rest =>
      match get_prop error "code" with
      | Throw e => Throw e
      | Normal c =>
          if strict_eq_str c code then Normal true
          else
            match get_prop error "message" with
            | Throw e => Throw e
            | Normal m =>
                match optional_includes m code with
                | Throw e => Throw e
                | Normal true => Normal true
                | Normal false => some_code_matches error rest
                end
            end
      end
  end.

Definition isRetryableError (error : JsValue) : Completion bool :=
  some_code_matches error retryableErrors.

(** ** retryWithBackoff *)

Section Retry.

(** The world the operation runs in, and the type of its result. *)
Context {W T : Type}.

(** One invocation of [fn()], awaited. *)
Variable fn : W -> Settled T * W.

(** What happens to the world while a timer of the given delay runs. *)
Variable timer : Z -> W -> W.

(** The world, how often [fn] was invoked, and the delays handed to
    [setTimeout], latest first. *)
Record RetryState : Type := {
  rs_world : W;
  rs_calls : nat;
  rs_sleeps : list Z
}.

Definition invoke (st : RetryState) : Settled T * RetryState :=
  let (r, w) := fn (rs_world st) in
  (r, {| rs_world := w; rs_calls := S (rs_calls st); rs_sleeps := rs_sleeps st |}).

(** [await new Promise(resolve => setTimeout(resolve, delay))]. *)
Definition sleep (delay : Z) (st : RetryState) : RetryState :=
  {| rs_world := timer delay (rs_world st);
     rs_calls := rs_calls st;
     rs_sleeps := delay :: rs_sleeps st |}.

(** The [for] loop from index [i] on; [remaining] counts the iterations
    for which [i < maxRetries] still holds.  Falling out of the loop
    reaches the final [throw lastError]. *)
Fixpoint retry_loop (maxRetries baseDelay : Z) (remaining : nat) (i : Z)
         (lastError : JsValue) (st : RetryState) : Settled T * RetryState :=
  match remaining with
  | O => (Rejected lastError, st)
  | S remaining' =>
      match invoke st with
      | (Fulfilled v, st1) => (Fulfilled v, st1)
      | (Rejected error, st1) =>
          if i =? maxRetries - 1 then (Rejected error, st1)
          else
            let delay := baseDelay * 2 ^ i in
            retry_loop maxRetries baseDelay remaining' (i + 1) error (sleep delay st1)
      end
  end.

(** [retryWithBackoff(fn, maxRetries = 3, baseDelay = 1000)]; [lastError]
    starts out [undefined]. *)
Definition retryWithBackoff
    (maxRetries baseDelay : option Z) (w : W) : Settled T * RetryState :=
  let maxRetries := match maxRetries with Some m => m | None => 3 end in
  let baseDelay := match baseDelay with Some d => d | None => 1000 end in
  retry_loop maxRetries baseDelay (Z.to_nat maxRetries) 0 JUndefined
    {| rs_world := w; rs_calls := 0; rs_sleeps := [] |}.

End Retry.

(** ** withTimeout *)

Section Timeout.

Context {T : Type}.

(** What the event loop delivers after [withTimeout] returned, in order:
    the operation's promise settling, or the timer firing. *)
Inductive LoopEvent : Type :=
| OperationSettles (r : Settled T)
| TimerFires.

Inductive PromiseState : Type :=
| Pending
| Done (r : Settled T).

(** [Promise.race]: the first of the two promises to settle decides; the
    timer's promise rejects with [new Error('Operation timed out')]. *)
Definition race_step (st : PromiseState) (ev : LoopEvent) : PromiseState :=
  match st with
  | Done r => Done r
  | Pending =>
      match ev with
      | OperationSettles r => Done r
      | TimerFires => Done (Rejected (new_Error "Operation timed out"))
      end
  end.

(** The timer the call arms and the state of the promise it returns after
    the given events. *)
Record TimeoutRun : Type := {
  armed_delay : Z;
  raced : PromiseState
}.

Definition withTimeout (events : list LoopEvent) (timeoutMs : Z) : TimeoutRun :=
  {| armed_delay := timeoutMs;
     raced := fold_left race_step events Pending |}.

End Timeout.

Arguments LoopEvent T : clear implicits.
Arguments PromiseState T : clear implicits.
Arguments TimeoutRun T : clear implicits.
Arguments RetryState W : clear implicits.

End Utils.
Import Utils.

(* ================================================================== *)
(** * src/LicenseContract.ts                                           *)
(* ================================================================== *)

Module Contract.

(** A call of a function of the deployed contract, with its arguments. *)
Inductive ContractCall : Type :=
| CallMintLicense (to : string) (tokenId : Z) (metadata : option string)
| CallTransferLicense (from to : string) (tokenId : Z)
| CallRevokeLicense (tokenId : Z)
| CallBatchMintLicenses (tos : list string) (tokenIds : list Z)
                        (metadatas : list (option string))
| CallGrantRole (roleHash account : string)
| CallRevokeRole (roleHash account : string)
| CallPause
| CallUnpause
| CallGetLicenseMetadata (tokenId : Z).

(** The overrides object [{ gasLimit, gasPrice }] of a sending call. *)
Record Overrides : Type := {
  ov_gasLimit : option Z;
  ov_gasPrice : option string
}.

(** What the facade asks of the node, in order. *)
Inductive ChainEvent : Type :=
| EvSend (call : ContractCall) (overrides : Overrides)
| EvWait (hash : string) (confirms : option Z)
| EvEstimateGas (call : ContractCall)
| EvGetFeeData
| EvRead (call : ContractCall).

Section Facade.

(** The node and the chain behind it. *)
Context {W : Type}.

(** [this.contract.f(args, overrides)], awaited: signs and broadcasts. *)
Variable send : ContractCall -> Overrides -> W -> Settled TransactionResponse * W.
(** [tx.wait(confirms?)], awaited. *)
Variable wait : TransactionResponse -> option Z -> W -> Settled TransactionReceipt * W.
(** [this.contract.f.estimateGas(args)], awaited. *)
Variable estimateGas : ContractCall -> W -> Settled Z * W.
(** [this.wallet.provider.getFeeData()], awaited. *)
Variable getFeeData : W -> Settled FeeData * W.
(** A read-only call answering a string, awaited. *)
Variable read_string : ContractCall -> W -> Settled string * W.
(** [ethers.id(text)]: the keccak-256 hash of the text. *)
Variable ethers_id : string -> string.

(** The constructor's [config] argument. *)
Variable config : EthereumConfig.

(** ** Asynchronous computations *)

Record Run : Type := {
  world : W;
  trace : list ChainEvent       (* latest first *)
}.

Definition Async (A : Type) : Type := Run -> Settled A * Run.

Definition ret {A} (a : A) : Async A := fun st => (Fulfilled a, st).

Definition throw {A} (e : JsValue) : Async A := fun st => (Rejected e, st).

Definition bind {A B} (m : Async A) (k : A -> Async B) : Async B :=
  fun st =>
    match m st with
    | (Fulfilled a, st') => k a st'
    | (Rejected e, st') => (Rejected e, st')
    end.

Definition try_catch {A} (body : Async A) (handler : JsValue -> Async A) : Async A :=
  fun st =>
    match body st with
    | (Fulfilled a, st') => (Fulfilled a, st')
    | (Rejected e, st') => handler e st'
    end.

(** An awaited request to the node, logged. *)
Definition request {A} (ev : ChainEvent) (f : W -> Settled A * W) : Async A :=
  fun st =>
    let (r, w) := f (world st) in
    (r, {| world := w; trace := ev :: trace st |}).

(** Evaluation of an expression that may throw. *)
Definition eval {A} (c : Completion A) : Async A :=
  match c with
  | Normal a => ret a
  | Throw e => throw e
  end.

Notation "'let*' x ':=' m 'in' k" := (bind m (fun x => k))
  (at level 10, x name, m at level 100, k at level 200).

Definition contract_send (call : ContractCall) (ov : Overrides)
  : Async TransactionResponse :=
  request (EvSend call ov) (send call ov).

Definition tx_wait (tx : TransactionResponse) (confirms : option Z)
  : Async TransactionReceipt :=
  request (EvWait (tx_hash tx) confirms) (wait tx confirms).

(** [{ gasLimit: this.config.gasLimit, gasPrice: this.config.gasPrice }]. *)
Definition config_overrides : Overrides :=
  {| ov_gasLimit := gasLimit config; ov_gasPrice := gasPrice config |}.

(** [catch (error) { throw LicenseChainError.fromEthersError(error); }]. *)
Definition rethrow_normalized {A} (error : JsValue) : Async A :=
  match fromEthersError error with
  | Normal e => throw e
  | Throw t => throw t
  end.

(** ** The mutating methods *)

(** The metadata of [mintLicense], [batchMintLicenses] and
    [estimateGasMintLicense] is a value of [JsValue], which
    [JSON.stringify] serialises without throwing. *)
Definition mintLicense (options : MintOptions) : Async TransactionResult :=
  try_catch
    (let metadata := JSON_stringify (metadata_value (mo_metadata options)) in
     let* tx := contract_send
                  (CallMintLicense (mo_to options) (mo_tokenId options) metadata)
                  config_overrides in
     let* receipt := tx_wait tx None in
     ret {| tr_hash := tx_hash tx;
            tr_blockNumber := r_blockNumber receipt;
            tr_gasUsed := dec (r_gasUsed receipt);
            tr_status := confirmed |})
    rethrow_normalized.

Definition transferLicense (from to : string) (tokenId : Z)
  : Async TransactionResult :=
  try_catch
    (let* tx := contract_send (CallTransferLicense from to tokenId)
                  config_overrides in
     let* receipt := tx_wait tx None in
     ret {| tr_hash := tx_hash tx;
            tr_blockNumber := r_blockNumber receipt;
            tr_gasUsed := dec (r_gasUsed receipt);
            tr_status := confirmed |})
    rethrow_normalized.

Definition revokeLicense (tokenId : Z) : Async TransactionResult :=
  try_catch
    (let* tx := contract_send (CallRevokeLicense tokenId) config_overrides in
     let* receipt := tx_wait tx None in
     ret {| tr_hash := tx_hash tx;
            tr_blockNumber := r_blockNumber receipt;
            tr_gasUsed := dec (r_gasUsed receipt);
            tr_status := confirmed |})
    rethrow_normalized.

Definition batchMintLicenses (licenses : list BatchMintOptions)
  : Async TransactionResult :=
  try_catch
    (let tos := map mo_to licenses in
     let tokenIds := map mo_tokenId licenses in
     let metadatas :=
       map (fun l => JSON_stringify (metadata_value (mo_metadata l))) licenses in
     let* tx := contract_send (CallBatchMintLicenses tos tokenIds metadatas)
                  config_overrides in
     let* receipt := tx_wait tx None in
     ret {| tr_hash := tx_hash tx;
            tr_blockNumber := r_blockNumber receipt;
            tr_gasUsed := dec (r_gasUsed receipt);
            tr_status := confirmed |})
    rethrow_normalized.

Definition grantRole (role account : string) : Async TransactionResult :=
  try_catch
    (let roleHash := ethers_id role in
     let* tx := contract_send (CallGrantRole roleHash account) config_overrides in
     let* receipt := tx_wait tx None in
     ret {| tr_hash := tx_hash tx;
            tr_blockNumber := r_blockNumber receipt;
            tr_gasUsed := dec (r_gasUsed receipt);
            tr_status := confirmed |})
    rethrow_normalized.

Definition revokeRole (role account : string) : Async TransactionResult :=
  try_catch
    (let roleHash := ethers_id role in
     let* tx := contract_send (CallRevokeRole roleHash account) config_overrides in
     let* receipt := tx_wait tx None in
     ret {| tr_hash := tx_hash tx;
            tr_blockNumber := r_blockNumber receipt;
            tr_gasUsed := dec (r_gasUsed receipt);
            tr_status := confirmed |})
    rethrow_normalized.

Definition pause : Async TransactionResult :=
  try_catch
    (let* tx := contract_send CallPause config_overrides in
     let* receipt := tx_wait tx None in
     ret {| tr_hash := tx_hash tx;
            tr_blockNumber := r_blockNumber receipt;
            tr_gasUsed := dec (r_gasUsed receipt);
            tr_status := confirmed |})
    rethrow_normalized.

Definition unpause : Async TransactionResult :=
  try_catch
    (let* tx := contract_send CallUnpause config_overrides in
     let* receipt := tx_wait tx None in
     ret {| tr_hash := tx_hash tx;
            tr_blockNumber := r_blockNumber receipt;
            tr_gasUsed := dec (r_gasUsed receipt);
            tr_status := confirmed |})
    rethrow_normalized.

(** ** Reading metadata and estimating gas *)

Definition getLicenseMetadata (tokenId : Z) : Async JsValue :=
  try_catch
    (let* metadataString :=
       request (EvRead (CallGetLicenseMetadata tokenId))
               (read_string (CallGetLicenseMetadata tokenId)) in
     eval (JSON_parse metadataString))
    rethrow_normalized.

Definition estimateGasMintLicense (options : MintOptions) : Async GasEstimate :=
  try_catch
    (let metadata := JSON_stringify (metadata_value (mo_metadata options)) in
     let call := CallMintLicense (mo_to options) (mo_tokenId options) metadata in
     let* gasEstimate := request (EvEstimateGas call) (estimateGas call) in
     let* feeData := request EvGetFeeData getFeeData in
     let gasPriceWei :=
       match fd_gasPrice feeData with
       | Some p => if p =? 0 then parseUnits_20_gwei else p
       | None => parseUnits_20_gwei
       end in
     ret {| ge_gasLimit := dec gasEstimate;
            ge_gasPrice := dec gasPriceWei;
            ge_maxFeePerGas := None;
            ge_maxPriorityFeePerGas := None;
            ge_totalCost := formatEther (gasEstimate * gasPriceWei) |})
    rethrow_normalized.

(** ** The mutating operations as one family *)

Inductive Mutation : Type :=
| MintLicense (options : MintOptions)
| TransferLicense (from to : string) (tokenId : Z)
| RevokeLicense (tokenId : Z)
| BatchMintLicenses (licenses : list BatchMintOptions)
| GrantRole (role account : string)
| RevokeRole (role account : string)
| Pause
| Unpause.

Definition run_mutation (m : Mutation) : Async TransactionResult :=
  match m with
  | MintLicense options => mintLicense options
  | TransferLicense from to tokenId => transferLicense from to tokenId
  | RevokeLicense tokenId => revokeLicense tokenId
  | BatchMintLicenses licenses => batchMintLicenses licenses
  | GrantRole role account => grantRole role account
  | RevokeRole role account => revokeRole role account
  | Pause => pause
  | Unpause => unpause
  end.

(** The contract call a mutation sends. *)
Definition call_of (m : Mutation) : ContractCall :=
  match m with
  | MintLicense options =>
      CallMintLicense (mo_to options) (mo_tokenId options)
        (JSON_stringify (metadata_value (mo_metadata options)))
  | TransferLicense from to tokenId => CallTransferLicense from to tokenId
  | RevokeLicense tokenId => CallRevokeLicense tokenId
  | BatchMintLicenses licenses =>
      CallBatchMintLicenses (map mo_to licenses) (map mo_tokenId licenses)
        (map (fun l => JSON_stringify (metadata_value (mo_metadata l))) licenses)
  | GrantRole role account => CallGrantRole (ethers_id role) account
  | RevokeRole role account => CallRevokeRole (ethers_id role) account
  | Pause => CallPause
  | Unpause => CallUnpause
  end.

Definition start (w : W) : Run := {| world := w; trace := [] |}.

End Facade.

Arguments Run W : clear implicits.

End Contract.
Import Contract.

(* ================================================================== *)
(** * Vocabulary of the properties                                     *)
(* ================================================================== *)

(** Structural induction on values that also covers the items of an array
    and the properties of an object. *)
Fixpoint JsValue_nested_ind
    (P : JsValue -> Prop)
    (Hundef : P JUndefined) (Hnull : P JNull)
    (Hbool : forall b, P (JBool b)) (Hnum : forall n, P (JNum n))
    (Hdouble : forall x, P (JDouble x))
    (Hstr : forall s, P (JStr s))
    (Harr : forall items, Forall P items -> P (JArr items))
    (Hobj : forall cls props, Forall (fun kv => P (snd kv)) props -> P (JObj cls props))
    (v : JsValue) {struct v} : P v :=
  let rec := JsValue_nested_ind P Hundef Hnull Hbool Hnum Hdouble Hstr Harr Hobj in
  match v with
  | JUndefined => Hundef
  | JNull => Hnull
  | JBool b => Hbool b
  | JNum n => Hnum n
  | JDouble x => Hdouble x
  | JStr s => Hstr s
  | JArr items =>
      Harr items
        ((fix all (l : list JsValue) : Forall P l :=
            match l with
            | [] => Forall_nil P
            | x :: l' => Forall_cons x (rec x) (all l')
            end) items)
  | JObj cls props =>
      Hobj cls props
        ((fix all (l : list (string * JsValue)) : Forall (fun kv => P (snd kv)) l :=
            match l with
            | [] => Forall_nil _
            | kv :: l' => Forall_cons kv (rec (snd kv)) (all l')
            end) props)
  end.

Module Backoff.

(** The delays of the first [k] retries: [baseDelay * 2^0], ...,
    [baseDelay * 2^(k-1)], shifted to start at index [i]. *)
Definition schedule (baseDelay : Z) (i : Z) (k : nat) : list Z :=
  map (fun j => baseDelay * 2 ^ (i + Z.of_nat j)) (seq 0 k).

Definition total (delays : list Z) : Z := fold_right Z.add 0 delays.

(** [2^0 + 2^1 + ... + 2^(k-1)]. *)
Definition geometric_sum (k : nat) : Z :=
  total (map (fun j => 2 ^ Z.of_nat j) (seq 0 k)).

(** A cause that [isRetryableError] classifies as retryable. *)
Definition retryable (e : JsValue) : bool :=
  match isRetryableError e with
  | Normal true => true
  | _ => false
  end.

(** A cause that [isRetryableError] classifies as not retryable. *)
Definition not_retryable (e : JsValue) : bool :=
  match isRetryableError e with
  | Normal false => true
  | _ => false
  end.

Definition any_cause (e : JsValue) : bool := true.

Section Attempts.

Context {W T : Type}.
Variable fn : W -> Settled T * W.
Variable timer : Z -> W -> W.
Variable baseDelay : Z.

(** The world after [k] invocations that each reject with an accepted cause,
    each followed by the backoff sleep of its index; [None] if one of them
    fulfils or rejects with another cause. *)
Fixpoint fails_each (accept : JsValue -> bool) (k : nat) (i : Z) (w : W) : option W :=
  match k with
  | O => Some w
  | S k' =>
      match fn w with
      | (Rejected e, w1) =>
          if accept e
          then fails_each accept k' (i + 1) (timer (baseDelay * 2 ^ i) w1)
          else None
      | (Fulfilled _, _) => None
      end
  end.

End Attempts.

(** The claim that a cause classified as not retryable ends the retries at
    once, as a property of a retry wrapper. *)
Definition fails_fast_on_non_retryable : Prop :=
  forall (fn : nat -> Settled string * nat) (timer : Z -> nat -> nat)
         (maxAttempts baseDelay : Z) (w w1 : nat) (e : JsValue),
    1 <= maxAttempts ->
    fn w = (Rejected e, w1) ->
    not_retryable e = true ->
    exists st,
      retryWithBackoff fn timer (Some maxAttempts) (Some baseDelay) w
      = (Rejected e, st)
      /\ rs_calls st = 1%nat.

(** ** Sample operations *)

Definition insufficient_funds : JsValue :=
  new_LicenseChainError INSUFFICIENT_FUNDS "Insufficient funds for transaction"
    JUndefined.

Definition network_down : JsValue :=
  JObj ClsError [("message", JStr "could not detect network");
                 ("code", JStr "NETWORK_ERROR")].

(** An operation that never succeeds; the world counts its invocations. *)
Definition always_broke (w : nat) : Settled string * nat :=
  (Rejected insufficient_funds, S w).

(** An operation that fails with a connectivity fault on its first two
    invocations and succeeds from the third on. *)
Definition flaky (w : nat) : Settled string * nat :=
  if (w <? 2)%nat then (Rejected network_down, S w) else (Fulfilled "0xabc", S w).

Definition idle (delay : Z) (w : nat) : nat := w.

End Backoff.
Import Backoff.

(* ================================================================== *)
(** * Vocabulary: the error kinds the specification names              *)
(* ================================================================== *)

Module Taxonomy.

(** The kind the specification assigns to a cause: the provider fault codes,
    the two JSON-RPC codes, and [UNKNOWN_ERROR] for everything else. *)
Definition specified_kind (cause : JsValue) : ErrorCodes :=
  match get_prop cause "code" with
  | Normal (JStr s) =>
      if String.eqb s "INSUFFICIENT_FUNDS" then INSUFFICIENT_FUNDS
      else if String.eqb s "UNPREDICTABLE_GAS_LIMIT" then GAS_ESTIMATION_FAILED
      else if String.eqb s "CALL_EXCEPTION" then TRANSACTION_REVERTED
      else if String.eqb s "NETWORK_ERROR" then NETWORK_ERROR
      else UNKNOWN_ERROR
  | Normal (JNum n) =>
      if n =? -32602 then VALIDATION_ERROR
      else if n =? -32603 then RPC_ERROR
      else UNKNOWN_ERROR
  | _ => UNKNOWN_ERROR
  end.

(** The claim about one normaliser: every cause is mapped to a
    [LicenseChainError] of the specified kind that keeps the cause. *)
Definition normalizes_as_specified (normalize : JsValue -> Completion JsValue) : Prop :=
  forall cause,
    exists e,
      normalize cause = Normal e
      /\ kind_of e = Some (specified_kind cause)
      /\ original_cause e = Some cause.

(** The table [fromEthersError] implements, keyed by the provider's string
    code. *)
Definition ethers_table : list (string * ErrorCodes) :=
  [ ("INSUFFICIENT_FUNDS", INSUFFICIENT_FUNDS);
    ("UNPREDICTABLE_GAS_LIMIT", GAS_ESTIMATION_FAILED);
    ("CALL_EXCEPTION", TRANSACTION_REVERTED);
    ("NETWORK_ERROR", NETWORK_ERROR) ].

Definition ethers_kind (code : JsValue) : ErrorCodes :=
  match code with
  | JStr s => match lookup s ethers_table with
              | Some k => k
              | None => UNKNOWN_ERROR
              end
  | _ => UNKNOWN_ERROR
  end.

(** The table [fromRpcError] implements, keyed by the JSON-RPC error code;
    its fallback is [RPC_ERROR]. *)
Definition rpc_table : list (Z * ErrorCodes) :=
  [ (-32603, RPC_ERROR); (-32602, VALIDATION_ERROR); (-32000, TRANSACTION_FAILED) ].

Definition rpc_kind (code : JsValue) : ErrorCodes :=
  match code with
  | JNum n =>
      match find (fun entry => fst entry =? n) rpc_table with
      | Some entry => snd entry
      | None => RPC_ERROR
      end
  | _ => RPC_ERROR
  end.

(** [cause] is neither [undefined] nor [null]. *)
Definition has_properties (cause : JsValue) : bool :=
  match cause with
  | JUndefined | JNull => false
  | _ => true
  end.

(** What a [catch] block that ends in
    [throw LicenseChainError.fromEthersError(error)] rejects with for a cause:
    the error [fromEthersError] builds, or what [fromEthersError] throws. *)
Definition normalized_rejection (cause : JsValue) : JsValue :=
  match fromEthersError cause with
  | Normal e => e
  | Throw t => t
  end.

(** The class of an object; nothing for the other values. *)
Definition class_of (v : JsValue) : option JsClass :=
  match v with
  | JObj cls _ => Some cls
  | _ => None
  end.

(** Sample causes. *)
Definition invalid_params : JsValue :=
  JObj ClsPlain [("code", JNum (-32602)); ("message", JStr "invalid argument")].

Definition call_exception : JsValue :=
  JObj ClsError [("message", JStr "execution reverted");
                 ("code", JStr "CALL_EXCEPTION")].

End Taxonomy.
Import Taxonomy.

(* ================================================================== *)
(** * Vocabulary: network resolution and the timeout guard             *)
(* ================================================================== *)

Module Resolution.

(** The names with an entry in the table. *)
Definition configured_networks : list string := map fst (configs None).

(** A name the resolver knows: a configured network or ["custom"]. *)
Definition recognized (network : string) : bool :=
  String.eqb network "custom" || existsb (String.eqb network) configured_networks.

Definition inherited_name (network : string) : bool :=
  existsb (String.eqb network) object_prototype_members.

(** The claim: a custom network that lacks its endpoint or its chain id, and
    every unrecognized name, fail with a [LicenseChainError] of kind
    [INVALID_NETWORK]. *)
Definition fails_with_InvalidNetwork : Prop :=
  forall (network : string) (rpcUrl : option string) (chainId : option Z),
    (network = "custom" /\ (rpcUrl = None \/ chainId = None))
    \/ recognized network = false ->
    exists e,
      getNetworkConfig network rpcUrl chainId = Throw e
      /\ kind_of e = Some INVALID_NETWORK.

(** The claim: when the timer fires before the operation settles, the
    promise rejects with a [LicenseChainError] of kind [TIMEOUT_ERROR]. *)
Definition timeout_is_TimeoutError : Prop :=
  forall (later : list (LoopEvent string)) (timeoutMs : Z),
    exists e,
      raced (withTimeout (TimerFires :: later) timeoutMs) = Done (Rejected e)
      /\ kind_of e = Some TIMEOUT_ERROR.

End Resolution.
Import Resolution.

(* ================================================================== *)
(** * Vocabulary: the contract facade                                  *)
(* ================================================================== *)

Module FacadeVocabulary.

(** A non-negative integer written in decimal digits, nothing else. *)
Definition is_decimal_integer (s : string) : bool :=
  match s with
  | EmptyString => false
  | _ => all_digits s
  end.

Definition with_confirmations (c : option Z) (config : EthereumConfig) : EthereumConfig :=
  {| network := network config;
     privateKey := privateKey config;
     rpcUrl := rpcUrl config;
     chainId := chainId config;
     gasPrice := gasPrice config;
     gasLimit := gasLimit config;
     confirmations := c |}.

(** The gas price [estimateGasMintLicense] works with:
    [feeData.gasPrice || parseUnits('20', 'gwei')]. *)
Definition effective_gas_price (fd : FeeData) : Z :=
  match fd_gasPrice fd with
  | Some p => if p =? 0 then parseUnits_20_gwei else p
  | None => parseUnits_20_gwei
  end.

(** The contract call whose gas [estimateGasMintLicense] asks for. *)
Definition mint_call (options : MintOptions) : ContractCall :=
  CallMintLicense (mo_to options) (mo_tokenId options)
    (JSON_stringify (metadata_value (mo_metadata options))).

(** The mutating methods that serialise license metadata before they
    send. *)
Definition sends_metadata (m : Mutation) : bool :=
  match m with
  | MintLicense _ | BatchMintLicenses _ => true
  | _ => false
  end.

(** The claim that a confirmed result is only produced after a wait of the
    configured depth on the transaction's hash. *)
Definition confirmed_after_configured_depth : Prop :=
  forall (W : Type)
         (send : ContractCall -> Overrides -> W -> Settled TransactionResponse * W)
         (wait : TransactionResponse -> option Z -> W -> Settled TransactionReceipt * W)
         (ethers_id : string -> string)
         (config : EthereumConfig) (m : Mutation) (st st' : Run W)
         (r : TransactionResult) (depth : Z),
    run_mutation send wait ethers_id config m st = (Fulfilled r, st') ->
    confirmations config = Some depth ->
    tr_status r = confirmed
    /\ exists c, In (EvWait (tr_hash r) c) (trace st') /\ wait_depth c = depth.

(** The claim that [totalCost] is the product of gas limit and gas price in
    wei, as a decimal integer. *)
Definition total_cost_in_wei : Prop :=
  forall (W : Type)
         (estimateGas : ContractCall -> W -> Settled Z * W)
         (getFeeData : W -> Settled FeeData * W)
         (options : MintOptions) (st st' : Run W) (g : GasEstimate),
    estimateGasMintLicense estimateGas getFeeData options st = (Fulfilled g, st') ->
    is_decimal_integer (ge_totalCost g) = true
    /\ exists limit price,
         ge_gasLimit g = dec limit
         /\ ge_gasPrice g = dec price
         /\ ge_totalCost g = dec (limit * price).

(** ** A stub node *)

(** Broadcasting always succeeds with the same hash. *)
Definition stub_send (call : ContractCall) (ov : Overrides) (w : unit)
  : Settled TransactionResponse * unit :=
  (Fulfilled {| tx_hash := "0xfeed" |}, w).

(** Waiting resolves with a receipt of block 100 whose status reports a
    reverted transaction. *)
Definition stub_wait (tx : TransactionResponse) (confirms : option Z) (w : unit)
  : Settled TransactionReceipt * unit :=
  (Fulfilled {| r_hash := tx_hash tx;
                r_blockNumber := 100;
                r_gasUsed := 21000;
                r_status := Some 0;
                r_logs := [] |}, w).

Definition stub_estimateGas (call : ContractCall) (w : unit) : Settled Z * unit :=
  (Fulfilled 21000, w).

Definition stub_getFeeData (w : unit) : Settled FeeData * unit :=
  (Fulfilled {| fd_gasPrice := Some (20 * 10 ^ 9);
                fd_maxFeePerGas := None;
                fd_maxPriorityFeePerGas := None |}, w).

Definition stub_id (text : string) : string := "0x" ++ text.

Definition sample_config : EthereumConfig :=
  {| network := "sepolia";
     privateKey := Some "0x01";
     rpcUrl := Some "https://rpc.example";
     chainId := None;
     gasPrice := None;
     gasLimit := Some 300000;
     confirmations := Some 3 |}.

Definition sample_metadata : LicenseMetadata :=
  {| software := "App";
     version := "1.0.0";
     features := ["basic"];
     expiresAt := None;
     customData := None |}.

Definition sample_mint : MintOptions :=
  {| mo_to := "0xABCD";
     mo_tokenId := 1;
     mo_metadata := sample_metadata;
     mo_expiresAt := None |}.

(** What the stub node makes [estimateGasMintLicense] answer. *)
Definition sample_estimate : GasEstimate :=
  {| ge_gasLimit := "21000";
     ge_gasPrice := "20000000000";
     ge_maxFeePerGas := None;
     ge_maxPriorityFeePerGas := None;
     ge_totalCost := "0.00042" |}.

End FacadeVocabulary.
Import FacadeVocabulary.

(* ================================================================== *)
(** * Vocabulary: the metadata round trip                              *)
(* ================================================================== *)

Module RoundTrip.

Definition starts_with_digit (s : string) : bool :=
  match s with
  | String c _ => is_digit c
  | EmptyString => false
  end.

(** What follows a value inside a serialisation: the end of the text, a
    comma, or a closing bracket or brace. *)
Definition delimited (rest : string) : bool :=
  match rest with
  | EmptyString => true
  | String c _ => Ascii.eqb c "," || Ascii.eqb c "]" || Ascii.eqb c "}"
  end.

(** The characters a serialised value can start with. *)
Definition number_start (c : ascii) : bool :=
  Ascii.eqb c "-" || is_digit c.

Definition value_start (c : ascii) : bool :=
  Ascii.eqb c dquote || Ascii.eqb c "[" || Ascii.eqb c "{"
  || Ascii.eqb c "n" || Ascii.eqb c "t" || Ascii.eqb c "f" || number_start c.

(** The text of an array item and of an object member. *)
Definition item_text (x : JsValue) : string :=
  match serialize x with
  | Some t => t
  | None => "null"
  end.

Definition member_text (kv : string * JsValue) : string :=
  quote (fst kv) ++ ":" ++ item_text (snd kv).

(** Parsing the serialisation of [v], followed by a delimiter, gives [v]
    back and stops at the delimiter, with fuel of twice the length of the
    serialisation. *)
Definition round_trips (v : JsValue) : Prop :=
  json_value v = true ->
  forall (fuel : nat) (rest : string),
    (2 * String.length (item_text v) <= fuel)%nat ->
    delimited rest = true ->
    parse_value fuel (item_text v ++ rest) = Some (v, rest).

(** The metadata that JSON represents: a finite number other than negative
    zero as expiry, and JSON values under pairwise distinct keys as custom
    data. *)
Definition metadata_json (m : LicenseMetadata) : bool :=
  match expiresAt m with
  | Some t => json_value (number_value t)
  | None => true
  end
  && match customData m with
     | Some d => json_value (JObj ClsPlain d)
     | None => true
     end.

(** The claim that every metadata value survives the round trip. *)
Definition metadata_round_trips : Prop :=
  forall m : LicenseMetadata,
    exists text,
      JSON_stringify (metadata_value m) = Some text
      /\ JSON_parse text = Normal (metadata_value m).

(** Metadata with every optional part, nested custom data included. *)
Definition full_metadata : LicenseMetadata :=
  {| software := "App";
     version := "1.0.0";
     features := ["basic"; "premium"];
     expiresAt := Some (NInt 1767225600);
     customData :=
       Some [ ("seats", JNum 5);
              ("discount", JDouble (DFinite false 3 (-1)));
              ("tags", JArr [JStr "eu"; JNull; JBool true]);
              ("owner", JObj ClsPlain [("name", JStr "Ada Lovelace")]) ] |}.

(** Metadata whose custom data holds an array with an [undefined] item, and
    what comes back for it. *)
Definition holey_metadata : LicenseMetadata :=
  {| software := "App";
     version := "1.0.0";
     features := ["basic"];
     expiresAt := None;
     customData := Some [("limits", JArr [JNum 5; JUndefined])] |}.

Definition nulled_metadata : LicenseMetadata :=
  {| software := "App";
     version := "1.0.0";
     features := ["basic"];
     expiresAt := None;
     customData := Some [("limits", JArr [JNum 5; JNull])] |}.

End RoundTrip.
Import RoundTrip.

(* ================================================================== *)
(** * src/utils.ts, continued: amounts, hashes and validators          *)
(* ================================================================== *)

Module Amounts.

(** ** BigInt(text) *)

(** White space and line terminators that [StringToBigInt] trims, among the
    code units modelled here. *)
Definition is_str_ws (c : ascii) : bool :=
  let n := N_of_ascii c in
  ((n =? 9) || (n =? 10) || (n =? 11) || (n =? 12) || (n =? 13)
   || (n =? 32) || (n =? 160))%N.

Fixpoint trim_start (s : string) : string :=
  match s with
  | String c rest => if is_str_ws c then trim_start rest else s
  | EmptyString => s
  end.

Fixpoint trim_end (s : string) : string :=
  match s with
  | EmptyString => EmptyString
  | String c rest =>
      match trim_end rest with
      | EmptyString => if is_str_ws c then EmptyString else String c EmptyString
      | kept => String c kept
      end
  end.

(** At least one digit is required. *)
Definition natural (base : Z) (s : string) : option Z :=
  match s with
  | EmptyString => None
  | _ => digits_value base s 0
  end.

(** [StringToBigInt]: blank text is zero; a prefix [0x], [0o] or [0b]
    announces an unsigned literal in that base; otherwise an optional sign
    and decimal digits. *)
Definition StringToBigInt (text : string) : option Z :=
  match trim_end (trim_start text) with
  | EmptyString => Some 0
  | String c rest as literal =>
      let prefixed :=
        if Ascii.eqb c "0" then
          match rest with
          | String p body =>
              if Ascii.eqb p "x" || Ascii.eqb p "X" then Some (natural 16 body)
              else if Ascii.eqb p "o" || Ascii.eqb p "O" then Some (natural 8 body)
              else if Ascii.eqb p "b" || Ascii.eqb p "B" then Some (natural 2 body)
              else None
          | EmptyString => None
          end
        else None in
      match prefixed with
      | Some r => r
      | None =>
          if Ascii.eqb c "+" then natural 10 rest
          else if Ascii.eqb c "-" then
            match natural 10 rest with
            | Some n => Some (- n)
            | None => None
            end
          else natural 10 literal
      end
  end.

Definition SyntaxError_BigInt (text : string) : JsValue :=
  JObj ClsSyntaxError
    [("message", JStr ("Cannot convert " ++ text ++ " to a BigInt"))].

(** [BigInt(text)] on a string. *)
Definition BigInt (text : string) : Completion Z :=
  match StringToBigInt text with
  | Some n => Normal n
  | None => Throw (SyntaxError_BigInt text)
  end.

(** ** calculateGasCost *)

Definition calculateGasCost (gasLimit gasPrice : string) : Completion string :=
  match BigInt gasLimit with
  | Throw e => Throw e
  | Normal limit =>
      match BigInt gasPrice with
      | Throw e => Throw e
      | Normal price => Normal (dec (limit * price))
      end
  end.

(** ** weiToEther and etherToWei *)

(** The argument of [weiToEther]: [string | bigint]. *)
Inductive WeiArgument : Type :=
| WeiText (s : string)
| WeiBigInt (n : Z).

(** [BigInt(10 ** 18)]. *)
Definition ether_unit : Z := 10 ^ 18.

(** BigInt division truncates towards zero and the remainder takes the sign
    of the dividend; [padStart(18, '0')] pads on the left. *)
Definition weiToEther (wei : WeiArgument) : Completion string :=
  match (match wei with
         | WeiText s => BigInt s
         | WeiBigInt n => Normal n
         end) with
  | Throw e => Throw e
  | Normal weiBigInt =>
      let ether := Z.quot weiBigInt ether_unit in
      let remainder := Z.rem weiBigInt ether_unit in
      Normal (dec ether ++ "." ++ pad_left 18 (dec remainder))
  end.

(** [s.split('.')], reduced to what the destructuring [[integer, decimal]]
    reads: the text before the first point, and the text between the first
    and the second point if there is a first point. *)
Fixpoint before_point (s : string) : string * option string :=
  match s with
  | EmptyString => (EmptyString, None)
  | String c rest =>
      if Ascii.eqb c "." then (EmptyString, Some rest)
      else let (head, tail) := before_point rest in (String c head, tail)
  end.

Definition split_point (s : string) : string * option string :=
  match before_point s with
  | (integer, None) => (integer, None)
  | (integer, Some rest) => (integer, Some (fst (before_point rest)))
  end.

(** [s.padEnd(width, '0')]. *)
Definition pad_right (width : nat) (s : string) : string :=
  s ++ zeros (width - String.length s).

(** The argument of [etherToWei]: [string | number], the numbers being the
    safe integers, which print as plain digits. *)
Inductive EtherArgument : Type :=
| EtherText (s : string)
| EtherNumber (n : Z).

Definition etherToWei (ether : EtherArgument) : string :=
  let etherStr :=
    match ether with
    | EtherNumber n => dec n
    | EtherText s => s
    end in
  let (integer, decimal) := split_point etherStr in
  let decimalPadded :=
    take 18 (pad_right 18 (match decimal with
                           | Some d => d        (* '' || '' is '' as well *)
                           | None => EmptyString
                           end)) in
  integer ++ decimalPadded.

(** ** generateRoleHash *)

(** The UTF-8 bytes of a code unit below 256. *)
Definition utf8_char (c : ascii) : list N :=
  let n := N_of_ascii c in
  if (n <? 128)%N then [n]
  else [(192 + n / 64)%N; (128 + n mod 64)%N].

Fixpoint utf8 (s : string) : list N :=
  match s with
  | EmptyString => []
  | String c rest => (utf8_char c ++ utf8 rest)%list
  end.

(** [buffer.toString('hex')]: two lower-case digits per byte. *)
Fixpoint hex_of_bytes (bytes : list N) : string :=
  match bytes with
  | [] => EmptyString
  | b :: rest =>
      String (hex_char (b / 16)) (String (hex_char (b mod 16)) (hex_of_bytes rest))
  end.

Definition generateRoleHash (role : string) : string :=
  "0x" ++ pad_left 64 (hex_of_bytes (utf8 role)).

(** ** isValidAddress *)

Definition is_hex (c : ascii) : bool :=
  match hex_val c with
  | Some _ => true
  | None => false
  end.

Fixpoint all_hex (s : string) : bool :=
  match s with
  | EmptyString => true
  | String c rest => is_hex c && all_hex rest
  end.

(** The test of [/^0x[a-fA-F0-9]{40}$/]. *)
Definition isValidAddress (address : string) : bool :=
  match address with
  | String "0" (String "x" body) => (String.length body =? 40)%nat && all_hex body
  | _ => false
  end.

(** ** getDefaultGasLimit and getEventSignature *)

(** What [table[key] || fallback] gives on an object literal: the own entry
    when it is truthy, else the member inherited from [Object.prototype]
    under that name, else the fallback. *)
Inductive TableAnswer (A : Type) : Type :=
| Entry (a : A)
| Member (name : string).
Arguments Entry {A} a.
Arguments Member {A} name.

Definition limits : list (string * Z) :=
  [ ("mint", 200000); ("transfer", 100000); ("revoke", 100000);
    ("batchMint", 500000); ("deploy", 2000000); ("upgrade", 1000000) ].

Definition getDefaultGasLimit (operation : string) : TableAnswer Z :=
  match lookup operation limits with
  | Some n => if n =? 0 then Entry 100000 else Entry n
  | None =>
      if existsb (String.eqb operation) object_prototype_members
      then Member operation
      else Entry 100000
  end.

Definition signatures : list (string * string) :=
  [ ("LicenseMinted",
     "0x8c5be1e5ebec7d5bd14f71427d1e84f3dd0314c0f7b2291e5b200ac8c7c3b925");
    ("LicenseTransferred",
     "0xddf252ad1be2c89b69c2b068fc378daa952ba7f163c4a11628f55a4df523b3ef");
    ("LicenseRevoked",
     "0xcc16f5dbb4873280815c1ee09dbd06736cffcc184412cf7a71a0fdb75d397ca5");
    ("RoleGranted",
     "0x2f8788117e7eff1d82e926ec794901d17c78024a50270940304540a733656f0d");
    ("RoleRevoked",
     "0xf6391f5c32d9c69d2a47ea670b442974b53935d1edc7fd64eb21e047a839171b") ].

Definition getEventSignature (eventName : string) : TableAnswer string :=
  match lookup eventName signatures with
  | Some s => if String.eqb s EmptyString then Entry EmptyString else Entry s
  | None =>
      if existsb (String.eqb eventName) object_prototype_members
      then Member eventName
      else Entry EmptyString
  end.

End Amounts.
Import Amounts.

(* ================================================================== *)
(** * Vocabulary: amounts                                              *)
(* ================================================================== *)

Module AmountsVocabulary.

(** A text of white space only (the empty text included). *)
Fixpoint blank (s : string) : bool :=
  match s with
  | EmptyString => true
  | String c rest => is_str_ws c && blank rest
  end.

(** A text without a decimal point. *)
Fixpoint pointless (s : string) : bool :=
  match s with
  | EmptyString => true
  | String c rest => negb (Ascii.eqb c ".") && pointless rest
  end.

(** A digit of lower-case hexadecimal: [0-9a-f]. *)
Definition is_lower_hex (c : ascii) : bool :=
  let n := N_of_ascii c in
  (((48 <=? n) && (n <=? 57)) || ((97 <=? n) && (n <=? 102)))%N.

Fixpoint all_lower_hex (s : string) : bool :=
  match s with
  | EmptyString => true
  | String c rest => is_lower_hex c && all_lower_hex rest
  end.

End AmountsVocabulary.
Import AmountsVocabulary.

(* ================================================================== *)
(** * src/utils.ts, continued: validators and messages                 *)
(* ================================================================== *)

Module Validators.

Definition TypeError_not_callable (what : string) : JsValue :=
  JObj ClsTypeError [("message", JStr (what ++ " is not a function"))].

(** [field] is the decimal text of an index below [n]. *)
Definition is_index_below (field : string) (n : nat) : bool :=
  existsb (fun k => String.eqb field (dec (Z.of_nat k))) (seq 0 n).

(** The call [v.hasOwnProperty(field)].  It throws on [undefined] and
    [null]; numbers and booleans own nothing; strings and arrays own their
    indices and [length]; an object answers for its own properties, unless
    one of them is itself named [hasOwnProperty] and hides the inherited
    method behind a value that cannot be called. *)
Definition call_hasOwnProperty (what : string) (v : JsValue) (field : string)
  : Completion bool :=
  match v with
  | JUndefined | JNull => Throw (TypeError_read "hasOwnProperty" v)
  | JBool _ | JNum _ | JDouble _ => Normal false
  | JStr s =>
      Normal (String.eqb field "length" || is_index_below field (String.length s))
  | JArr items =>
      Normal (String.eqb field "length" || is_index_below field (List.length items))
  | JObj cls props =>
      match lookup "hasOwnProperty" props with
      | Some _ => Throw (TypeError_not_callable (what ++ ".hasOwnProperty"))
      | None =>
          Normal (match lookup field props with
                  | Some _ => true
                  | None => false
                  end)
      end
  end.

(** [required.every(field => v.hasOwnProperty(field))]. *)
Fixpoint every_own (what : string) (v : JsValue) (required : list string)
  : Completion bool :=
  match required with
  | [] => Normal true
  | field :: rest =>
      match call_hasOwnProperty what v field with
      | Throw e => Throw e
      | Normal false => Normal false
      | Normal true => every_own what v rest
      end
  end.

(** [typeof v === 'object']. *)
Definition typeof_object (v : JsValue) : bool :=
  match v with
  | JNull | JArr _ | JObj _ _ => true
  | _ => false
  end.

Definition validateLicenseMetadata (metadata : JsValue) : Completion bool :=
  if negb (truthy metadata) || negb (typeof_object metadata) then Normal false
  else every_own "metadata" metadata ["software"; "version"; "features"].

Definition validateNetworkConfig (config : JsValue) : Completion bool :=
  every_own "config" config ["chainId"; "rpcUrl"; "explorerUrl"; "name"].

(** [formatErrorMessage(error)]: the truthy [message], else the error itself
    when it is a string, else a fixed text. *)
Definition formatErrorMessage (error : JsValue) : Completion JsValue :=
  match get_prop error "message" with
  | Throw e => Throw e
  | Normal message =>
      if truthy message then Normal message
      else
        match error with
        | JStr s => Normal (JStr s)
        | _ => Normal (JStr "Unknown error occurred")
        end
  end.

(** The object a [NetworkConfig] record is. *)
Definition network_config_value (c : NetworkConfig) : JsValue :=
  JObj ClsPlain
    [ ("chainId", JNum (nc_chainId c));
      ("rpcUrl", JStr (nc_rpcUrl c));
      ("explorerUrl", JStr (nc_explorerUrl c));
      ("name", JStr (nc_name c)) ].

(** Replaces every own value of an object. *)
Definition map_values (f : JsValue -> JsValue) (props : list (string * JsValue))
  : list (string * JsValue) :=
  map (fun kv => (fst kv, f (snd kv))) props.

(** The verdict of [isRetryableError] on an error with a string message. *)
Definition retryable_by (code : ErrorCodes) (message : string) : bool :=
  existsb (fun c => String.eqb (code_string code) c || str_includes message c)
          retryableErrors.

(** What a second normalisation makes of a kind. *)
Definition renormalized (k : ErrorCodes) : ErrorCodes :=
  match k with
  | INSUFFICIENT_FUNDS => INSUFFICIENT_FUNDS
  | NETWORK_ERROR => NETWORK_ERROR
  | _ => UNKNOWN_ERROR
  end.

End Validators.
Import Validators.


(* ================================================================== *)
(** * Requests to the node, logged                                     *)
(* ================================================================== *)

Module Node.

Section Logged.

(** The events that are logged, and the node behind the requests. *)
Context {E W : Type}.

Record Session : Type := {
  s_world : W;
  s_log : list E                (* latest first *)
}.

Definition Task (A : Type) : Type := Session -> Settled A * Session.

Definition resolve {A} (a : A) : Task A := fun s => (Fulfilled a, s).

Definition reject {A} (e : JsValue) : Task A := fun s => (Rejected e, s).

Definition and_then {A B} (m : Task A) (k : A -> Task B) : Task B :=
  fun s =>
    match m s with
    | (Fulfilled a, s') => k a s'
    | (Rejected e, s') => (Rejected e, s')
    end.

(** [try { body } catch (error) { handler }]. *)
Definition catching {A} (body : Task A) (handler : JsValue -> Task A) : Task A :=
  fun s =>
    match body s with
    | (Fulfilled a, s') => (Fulfilled a, s')
    | (Rejected e, s') => handler e s'
    end.

(** An awaited request to the node. *)
Definition ask {A} (ev : E) (f : W -> Settled A * W) : Task A :=
  fun s =>
    let (r, w) := f (s_world s) in
    (r, {| s_world := w; s_log := ev :: s_log s |}).

(** Evaluation of an expression that may throw. *)
Definition evaluate {A} (c : Completion A) : Task A :=
  match c with
  | Normal a => resolve a
  | Throw e => reject e
  end.

(** [catch (error) { throw LicenseChainError.fromEthersError(error); }]. *)
Definition normalized {A} (error : JsValue) : Task A :=
  evaluate (match fromEthersError error with
            | Normal e => Throw e
            | Throw t => Throw t
            end).

Definition fresh (w : W) : Session := {| s_world := w; s_log := [] |}.

End Logged.

Arguments Session E W : clear implicits.
Arguments Task E W A : clear implicits.

End Node.

Import Node.

(* ================================================================== *)
(** * LicenseContract.ts: the reading methods                          *)
(* ================================================================== *)

Module Reads.

(** A read-only function of the contract that answers a boolean. *)
Inductive BoolCall : Type :=
| CallVerifyLicense (tokenId : Z)
| CallHasRole (roleHash account : string)
| CallIsPaused.

(** What the reading methods ask of the node, in order. *)
Inductive ReadEvent : Type :=
| EvReadBool (call : BoolCall)
| EvContract (ev : ChainEvent).

(** The object [getLicenseVerification] builds; it has no [expiresAt]. *)
Record LicenseVerificationResult : Type := {
  vr_isValid : bool;
  vr_reason : option string;
  vr_features : JsValue
}.

Section Reading.

Context {W : Type}.

(** A read-only call answering a boolean, awaited. *)
Variable read_bool : BoolCall -> W -> Settled bool * W.
(** A read-only call answering a string, awaited. *)
Variable read_string : ContractCall -> W -> Settled string * W.
(** [ethers.id(text)]. *)
Variable ethers_id : string -> string.

Notation "'let*' x ':=' m 'in' k" := (and_then m (fun x => k))
  (at level 10, x name, m at level 100, k at level 200).

(** A method of the facade called from another one: it runs on the same
    node, and what it asked is appended to the log. *)
Definition call_method {A} (m : Async A) : Task ReadEvent W A :=
  fun s =>
    let (r, st) := m {| world := s_world s; trace := [] |} in
    (r, {| s_world := world st;
           s_log := (map EvContract (trace st) ++ s_log s)%list |}).

Definition verifyLicense (tokenId : Z) : Task ReadEvent W bool :=
  catching
    (ask (EvReadBool (CallVerifyLicense tokenId))
         (read_bool (CallVerifyLicense tokenId)))
    normalized.

Definition hasRole (role account : string) : Task ReadEvent W bool :=
  catching
    (let roleHash := ethers_id role in
     ask (EvReadBool (CallHasRole roleHash account))
         (read_bool (CallHasRole roleHash account)))
    normalized.

Definition isPaused : Task ReadEvent W bool :=
  catching
    (ask (EvReadBool CallIsPaused) (read_bool CallIsPaused))
    normalized.

Definition getLicenseVerification (tokenId : Z)
  : Task ReadEvent W LicenseVerificationResult :=
  catching
    (let* isValid := ask (EvReadBool (CallVerifyLicense tokenId))
                         (read_bool (CallVerifyLicense tokenId)) in
     let* metadata := call_method (getLicenseMetadata read_string tokenId) in
     let reason := if negb isValid then Some "License is not valid" else None in
     let* features := evaluate (get_prop metadata "features") in
     resolve {| vr_isValid := isValid;
                vr_reason := reason;
                vr_features := features |})
    normalized.

(** The boolean reads as one family. *)
Inductive BoolRead : Type :=
| VerifyLicense (tokenId : Z)
| HasRole (role account : string)
| IsPaused.

Definition run_read (r : BoolRead) : Task ReadEvent W bool :=
  match r with
  | VerifyLicense tokenId => verifyLicense tokenId
  | HasRole role account => hasRole role account
  | IsPaused => isPaused
  end.

(** The contract call a boolean read makes. *)
Definition bool_call (r : BoolRead) : BoolCall :=
  match r with
  | VerifyLicense tokenId => CallVerifyLicense tokenId
  | HasRole role account => CallHasRole (ethers_id role) account
  | IsPaused => CallIsPaused
  end.

End Reading.

End Reads.

Import Reads.

(* ================================================================== *)
(** * errors.ts: the factories                                         *)
(* ================================================================== *)

Module Factories.

(** [LicenseChainError.invalidAddress(address)]. *)
Definition invalidAddress (address : string) : JsValue :=
  new_LicenseChainError INVALID_ADDRESS
    ("Invalid address: " ++ address)
    (JObj ClsPlain [("address", JStr address)]).

(** [LicenseChainError.contractNotDeployed(address)]. *)
Definition contractNotDeployed (address : string) : JsValue :=
  new_LicenseChainError CONTRACT_NOT_DEPLOYED
    ("Contract not deployed at address: " ++ address)
    (JObj ClsPlain [("address", JStr address)]).

(** [LicenseChainError.licenseNotFound(tokenId)]; a token id is a safe
    integer, which the template prints as plain digits. *)
Definition licenseNotFound (tokenId : Z) : JsValue :=
  new_LicenseChainError LICENSE_NOT_FOUND
    ("License not found for token ID: " ++ dec tokenId)
    (JObj ClsPlain [("tokenId", JNum tokenId)]).

(** [LicenseChainError.licenseExpired(tokenId, expiresAt)]. *)
Definition licenseExpired (tokenId expiresAt : Z) : JsValue :=
  new_LicenseChainError LICENSE_EXPIRED
    ("License expired for token ID: " ++ dec tokenId)
    (JObj ClsPlain [("tokenId", JNum tokenId); ("expiresAt", JNum expiresAt)]).

(** [LicenseChainError.licenseRevoked(tokenId)]. *)
Definition licenseRevoked (tokenId : Z) : JsValue :=
  new_LicenseChainError LICENSE_REVOKED
    ("License revoked for token ID: " ++ dec tokenId)
    (JObj ClsPlain [("tokenId", JNum tokenId)]).

(** [LicenseChainError.insufficientPermissions(required, actual)]. *)
Definition insufficientPermissions (required : string) (actual : list string) : JsValue :=
  new_LicenseChainError INSUFFICIENT_PERMISSIONS
    ("Insufficient permissions. Required: " ++ required
     ++ ", Actual: " ++ join ", " actual)
    (JObj ClsPlain [("required", JStr required);
                    ("actual", JArr (map JStr actual))]).

(** [LicenseChainError.invalidMetadata(metadata)]. *)
Definition invalidMetadata (metadata : JsValue) : JsValue :=
  new_LicenseChainError INVALID_LICENSE_METADATA
    "Invalid license metadata"
    (JObj ClsPlain [("metadata", metadata)]).

(** [LicenseChainError.configurationError(field, value)]. *)
Definition configurationError (field : string) (value : JsValue) : JsValue :=
  new_LicenseChainError CONFIGURATION_ERROR
    ("Invalid configuration for " ++ field ++ ": " ++ to_string value)
    (JObj ClsPlain [("field", JStr field); ("value", value)]).

(** The factories as one family. *)
Inductive Factory : Type :=
| InvalidAddress (address : string)
| InvalidNetwork (network : string)
| ContractNotDeployed (address : string)
| LicenseNotFound (tokenId : Z)
| LicenseExpired (tokenId expiresAt : Z)
| LicenseRevoked (tokenId : Z)
| InsufficientPermissions (required : string) (actual : list string)
| InvalidMetadata (metadata : JsValue)
| ConfigurationError (field : string) (value : JsValue).

Definition build (f : Factory) : JsValue :=
  match f with
  | InvalidAddress address => invalidAddress address
  | InvalidNetwork network => invalidNetwork network
  | ContractNotDeployed address => contractNotDeployed address
  | LicenseNotFound tokenId => licenseNotFound tokenId
  | LicenseExpired tokenId expiresAt => licenseExpired tokenId expiresAt
  | LicenseRevoked tokenId => licenseRevoked tokenId
  | InsufficientPermissions required actual => insufficientPermissions required actual
  | InvalidMetadata metadata => invalidMetadata metadata
  | ConfigurationError field value => configurationError field value
  end.

End Factories.

Import Factories.

(* ================================================================== *)
(** * The LicenseChainEthereum class                                   *)
(* ================================================================== *)

Module Sdk.

(** [EthereumConfig] with its [walletProvider] (absent: [undefined]). *)
Record SdkConfig : Type := {
  settings : EthereumConfig;
  walletProvider : JsValue
}.

Record DeployOptions : Type := {
  do_name : string;
  do_symbol : string;
  do_baseURI : string;
  do_maxSupply : option Z;
  do_royaltyRecipient : option string;
  do_royaltyFee : option Z
}.

(** The three contracts the class deploys, each with its ABI
    ([getLicenseContractABI] and the like). *)
Inductive Artifact : Type :=
| LicenseArtifact
| MultiSigArtifact
| UpgradeableArtifact.

(** The bytecode the class holds for them: a placeholder, the same for all
    three, that ends in three dots. *)
Definition getLicenseContractBytecode : string :=
  "0x608060405234801561001057600080fd5b50600436106100a95760003560e01c8063...".

Definition getMultiSigLicenseContractBytecode : string :=
  "0x608060405234801561001057600080fd5b50600436106100a95760003560e01c8063...".

Definition getUpgradeableLicenseContractBytecode : string :=
  "0x608060405234801561001057600080fd5b50600436106100a95760003560e01c8063...".

(** [ethers.ZeroAddress]. *)
Definition ZeroAddress : string := "0x0000000000000000000000000000000000000000".

(** [n || fallback] on an optional number. *)
Definition number_or (n : option Z) (fallback : Z) : Z :=
  match n with
  | Some m => if m =? 0 then fallback else m
  | None => fallback
  end.

(** What the class asks of the node, in order. *)
Inductive SdkEvent : Type :=
| EvDeploy (artifact : Artifact) (args : list JsValue)
| EvWaitForDeployment
| EvGetAddress
| EvFeeData
| EvBalance (address : string).

Definition configuration_missing : JsValue :=
  new_LicenseChainError CONFIGURATION_ERROR
    "Either walletProvider or rpcUrl must be provided" JUndefined.

Definition wallet_missing : JsValue :=
  new_LicenseChainError UNAUTHORIZED
    "Wallet not initialized. Private key or wallet provider required." JUndefined.

(** An optional text that is absent or empty, hence falsy. *)
Definition absent (text : option string) : bool :=
  match text with
  | Some t => String.eqb t EmptyString
  | None => true
  end.

Section Library.

(** Providers, wallets, contract factories, deployed contracts and contract
    handles of the client library, and the node. *)
Context {P Wl F C H W : Type}.

(** [new Web3Provider(walletProvider)]. *)
Variable new_Web3Provider : JsValue -> Completion P.
(** [new JsonRpcProvider(rpcUrl)]. *)
Variable new_JsonRpcProvider : string -> Completion P.
(** [new Wallet(privateKey, provider)]. *)
Variable new_Wallet : string -> P -> Completion Wl.
(** [new ethers.ContractFactory(abi, bytecode, wallet)]. *)
Variable new_ContractFactory : Artifact -> string -> Wl -> Completion F.
(** [contractFactory.deploy(...args)], awaited. *)
Variable factory_deploy : F -> list JsValue -> W -> Settled C * W.
(** [contract.waitForDeployment()], awaited. *)
Variable waitForDeployment : C -> W -> Settled unit * W.
(** [contract.getAddress()], awaited. *)
Variable contract_getAddress : C -> W -> Settled string * W.
(** [new Contract(address, abi, wallet)]. *)
Variable new_Contract : string -> Wl -> Completion H.
(** [ethers.isAddress(address)]. *)
Variable ethers_isAddress : string -> bool.
(** [provider.getFeeData()], awaited. *)
Variable provider_getFeeData : P -> W -> Settled FeeData * W.
(** [provider.getBalance(address)], awaited. *)
Variable provider_getBalance : P -> string -> W -> Settled Z * W.

(** The fields of a [LicenseChainEthereum] instance. *)
Record LicenseChainEthereum : Type := {
  provider : P;
  wallet : option Wl;
  config : SdkConfig;
  networkConfig : NetworkLookup
}.

(** The fields of a [LicenseContract] instance. *)
Record LicenseContract : Type := {
  lc_contract : H;
  lc_wallet : Wl;
  lc_config : SdkConfig
}.

(** [new LicenseContract(address, wallet, config)]. *)
Definition new_LicenseContract (address : string) (wl : Wl) (cfg : SdkConfig)
  : Completion LicenseContract :=
  match new_Contract address wl with
  | Throw e => Throw e
  | Normal contract =>
      Normal {| lc_contract := contract; lc_wallet := wl; lc_config := cfg |}
  end.

(** [new LicenseChainEthereum(config)]. *)
Definition constructor (cfg : SdkConfig) : Completion LicenseChainEthereum :=
  match getNetworkConfig (network (settings cfg)) (rpcUrl (settings cfg))
                         (chainId (settings cfg)) with
  | Throw e => Throw e
  | Normal resolved =>
      let connected :=
        if truthy (walletProvider cfg) then new_Web3Provider (walletProvider cfg)
        else
          match rpcUrl (settings cfg) with
          | Some url =>
              if String.eqb url EmptyString then Throw configuration_missing
              else new_JsonRpcProvider url
          | None => Throw configuration_missing
          end in
      match connected with
      | Throw e => Throw e
      | Normal p =>
          let signer :=
            match privateKey (settings cfg) with
            | Some key =>
                if String.eqb key EmptyString then Normal None
                else match new_Wallet key p with
                     | Throw e => Throw e
                     | Normal wl => Normal (Some wl)
                     end
            | None => Normal None
            end in
          match signer with
          | Throw e => Throw e
          | Normal w =>
              Normal {| provider := p;
                        wallet := w;
                        config := cfg;
                        networkConfig := resolved |}
          end
      end
  end.

Notation "'let*' x ':=' m 'in' k" := (and_then m (fun x => k))
  (at level 10, x name, m at level 100, k at level 200).

(** [royaltyRecipient || ethers.ZeroAddress]. *)
Definition recipient_or_zero (recipient : option string) : string :=
  match recipient with
  | Some r => if String.eqb r EmptyString then ZeroAddress else r
  | None => ZeroAddress
  end.

Definition deployLicenseContract (sdk : LicenseChainEthereum) (options : DeployOptions)
  : Task SdkEvent W LicenseContract :=
  match wallet sdk with
  | None => reject wallet_missing
  | Some wl =>
      catching
        (let* contractFactory := evaluate (new_ContractFactory LicenseArtifact
                                        getLicenseContractBytecode wl) in
         let args := [ JStr (do_name options);
                       JStr (do_symbol options);
                       JStr (do_baseURI options);
                       JNum (number_or (do_maxSupply options) 0);
                       JStr (recipient_or_zero (do_royaltyRecipient options));
                       JNum (number_or (do_royaltyFee options) 0) ] in
         let* contract := ask (EvDeploy LicenseArtifact args)
                              (factory_deploy contractFactory args) in
         let* _ := ask EvWaitForDeployment (waitForDeployment contract) in
         let* contractAddress := ask EvGetAddress (contract_getAddress contract) in
         evaluate (new_LicenseContract contractAddress wl (config sdk)))
        normalized
  end.

Definition deployMultiSigLicenseContract
    (sdk : LicenseChainEthereum) (options : DeployOptions)
    (requiredSignatures : Z) (signers : list string)
  : Task SdkEvent W LicenseContract :=
  match wallet sdk with
  | None => reject wallet_missing
  | Some wl =>
      catching
        (let* contractFactory := evaluate (new_ContractFactory MultiSigArtifact
                                        getMultiSigLicenseContractBytecode wl) in
         let args := [ JStr (do_name options);
                       JStr (do_symbol options);
                       JStr (do_baseURI options);
                       JNum (number_or (do_maxSupply options) 0);
                       JStr (recipient_or_zero (do_royaltyRecipient options));
                       JNum (number_or (do_royaltyFee options) 0);
                       JNum requiredSignatures;
                       JArr (map JStr signers) ] in
         let* contract := ask (EvDeploy MultiSigArtifact args)
                              (factory_deploy contractFactory args) in
         let* _ := ask EvWaitForDeployment (waitForDeployment contract) in
         let* contractAddress := ask EvGetAddress (contract_getAddress contract) in
         evaluate (new_LicenseContract contractAddress wl (config sdk)))
        normalized
  end.

Definition deployUpgradeableLicenseContract
    (sdk : LicenseChainEthereum) (options : DeployOptions) (implementation : string)
  : Task SdkEvent W LicenseContract :=
  match wallet sdk with
  | None => reject wallet_missing
  | Some wl =>
      catching
        (let* contractFactory := evaluate (new_ContractFactory UpgradeableArtifact
                                        getUpgradeableLicenseContractBytecode wl) in
         let args := [ JStr implementation;
                       JStr (do_name options);
                       JStr (do_symbol options);
                       JStr (do_baseURI options);
                       JNum (number_or (do_maxSupply options) 0);
                       JStr (recipient_or_zero (do_royaltyRecipient options));
                       JNum (number_or (do_royaltyFee options) 0) ] in
         let* contract := ask (EvDeploy UpgradeableArtifact args)
                              (factory_deploy contractFactory args) in
         let* _ := ask EvWaitForDeployment (waitForDeployment contract) in
         let* contractAddress := ask EvGetAddress (contract_getAddress contract) in
         evaluate (new_LicenseContract contractAddress wl (config sdk)))
        normalized
  end.

Definition getContract (sdk : LicenseChainEthereum) (address : string)
  : Task SdkEvent W LicenseContract :=
  if negb (ethers_isAddress address) then reject (invalidAddress address)
  else
    match wallet sdk with
    | None => reject wallet_missing
    | Some wl => evaluate (new_LicenseContract address wl (config sdk))
    end.

(** [feeData.gasPrice?.toString() || '0']. *)
Definition getGasPrice (sdk : LicenseChainEthereum) : Task SdkEvent W string :=
  catching
    (let* feeData := ask EvFeeData (provider_getFeeData (provider sdk)) in
     resolve (match fd_gasPrice feeData with
              | Some p => dec p
              | None => "0"
              end))
    normalized.

(** The method [getNetworkConfig()] of an instance. *)
Definition getNetworkConfig_of (sdk : LicenseChainEthereum) : NetworkLookup :=
  networkConfig sdk.

Definition getBalance (sdk : LicenseChainEthereum) (address : string)
  : Task SdkEvent W string :=
  catching
    (let* balance := ask (EvBalance address)
                         (provider_getBalance (provider sdk) address) in
     resolve (formatEther balance))
    normalized.

(** The three deployments as one family. *)
Inductive Deployment : Type :=
| DeployLicense (options : DeployOptions)
| DeployMultiSig (options : DeployOptions) (requiredSignatures : Z)
                 (signers : list string)
| DeployUpgradeable (options : DeployOptions) (implementation : string).

Definition run_deployment (sdk : LicenseChainEthereum) (d : Deployment)
  : Task SdkEvent W LicenseContract :=
  match d with
  | DeployLicense options => deployLicenseContract sdk options
  | DeployMultiSig options requiredSignatures signers =>
      deployMultiSigLicenseContract sdk options requiredSignatures signers
  | DeployUpgradeable options implementation =>
      deployUpgradeableLicenseContract sdk options implementation
  end.

End Library.

(** The ABI and the bytecode a deployment hands to the contract factory. *)
Definition artifact_of (d : Deployment) : Artifact :=
  match d with
  | DeployLicense _ => LicenseArtifact
  | DeployMultiSig _ _ _ => MultiSigArtifact
  | DeployUpgradeable _ _ => UpgradeableArtifact
  end.

Definition bytecode_of (d : Deployment) : string :=
  match d with
  | DeployLicense _ => getLicenseContractBytecode
  | DeployMultiSig _ _ _ => getMultiSigLicenseContractBytecode
  | DeployUpgradeable _ _ => getUpgradeableLicenseContractBytecode
  end.

(** Bytecode the contract factory of the client library takes as text:
    hexadecimal digits in pairs, after [0x], which the factory adds when it
    is missing. *)
Definition hex_data (text : string) : bool :=
  let body :=
    match text with
    | String "0" (String "x" rest) => rest
    | _ => text
    end in
  all_hex body && Nat.even (String.length body).

Arguments LicenseChainEthereum P Wl : clear implicits.
Arguments LicenseContract Wl H : clear implicits.

End Sdk.

Import Sdk.

(* ================================================================== *)
(** * Sample nodes                                                     *)
(* ================================================================== *)

Module NodeSamples.

(** A node that answers every transaction with a revert. *)
Definition reverting_send (call : ContractCall) (ov : Overrides) (w : unit)
  : Settled TransactionResponse * unit :=
  (Rejected call_exception, w).

(** A node on which every string read reverts. *)
Definition reverting_read (call : ContractCall) (w : unit) : Settled string * unit :=
  (Rejected call_exception, w).

(** A node that stores the given text as the metadata of every token. *)
Definition stored (text : string) (call : ContractCall) (w : unit)
  : Settled string * unit :=
  (Fulfilled text, w).

(** A node on which every boolean read answers the same. *)
Definition answering (b : bool) (call : BoolCall) (w : unit) : Settled bool * unit :=
  (Fulfilled b, w).

(** A node on which every boolean read reverts. *)
Definition reverting_read_bool (call : BoolCall) (w : unit) : Settled bool * unit :=
  (Rejected call_exception, w).

(** A node that reports no gas price. *)
Definition no_gas_price (w : unit) : Settled FeeData * unit :=
  (Fulfilled {| fd_gasPrice := None;
                fd_maxFeePerGas := None;
                fd_maxPriorityFeePerGas := None |}, w).

(** A client library whose providers and wallets never refuse. *)
Definition stub_Web3Provider (walletProvider : JsValue) : Completion unit := Normal tt.

Definition stub_JsonRpcProvider (rpcUrl : string) : Completion unit := Normal tt.

Definition stub_Wallet (privateKey : string) (p : unit) : Completion string :=
  Normal privateKey.

(** The [TypeError] of the client library for a value that is no text of
    bytes. *)
Definition invalid_bytes (value : string) : JsValue :=
  JObj ClsTypeError [ ("message", JStr "invalid BytesLike value");
                      ("code", JStr "INVALID_ARGUMENT");
                      ("argument", JStr "value");
                      ("value", JStr value) ].

(** A contract factory takes bytecode that is text of bytes, and nothing
    else. *)
Definition stub_ContractFactory (artifact : Artifact) (bytecode : string) (wl : string)
  : Completion unit :=
  if hex_data bytecode then Normal tt else Throw (invalid_bytes bytecode).

Definition stub_deploy (factory : unit) (args : list JsValue) (w : unit)
  : Settled unit * unit :=
  (Fulfilled tt, w).

Definition stub_waitForDeployment (contract : unit) (w : unit) : Settled unit * unit :=
  (Fulfilled tt, w).

Definition stub_getAddress (contract : unit) (w : unit) : Settled string * unit :=
  (Fulfilled "0x00000000000000000000000000000000000000aa", w).

Definition stub_Contract (address : string) (wl : string) : Completion string :=
  Normal address.

(** Every account holds one ether and a half. *)
Definition stub_getBalance (p : unit) (address : string) (w : unit) : Settled Z * unit :=
  (Fulfilled (15 * 10 ^ 17), w).

Definition stub_provider_feeData (p : unit) (w : unit) : Settled FeeData * unit :=
  no_gas_price w.

(** A browser configuration: a wallet provider and no private key. *)
Definition browser_config : SdkConfig :=
  {| settings := {| network := "sepolia";
                    privateKey := None;
                    rpcUrl := None;
                    chainId := None;
                    gasPrice := None;
                    gasLimit := None;
                    confirmations := None |};
     walletProvider := JObj ClsPlain [("isMetaMask", JBool true)] |}.

(** The instance the stub library builds for the browser configuration. *)
Definition browser_sdk : LicenseChainEthereum unit string :=
  {| provider := tt;
     wallet := None;
     config := browser_config;
     networkConfig :=
       Resolved {| nc_chainId := 11155111;
                   nc_rpcUrl := "https://eth-sepolia.g.alchemy.com/v2/YOUR_KEY";
                   nc_explorerUrl := "https://sepolia.etherscan.io";
                   nc_name := "Sepolia Testnet" |} |}.

(** An instance with a wallet for the key of the server configuration. *)
Definition server_sdk : LicenseChainEthereum unit string :=
  {| provider := tt;
     wallet := Some "0x01";
     config := {| settings := sample_config; walletProvider := JUndefined |};
     networkConfig :=
       Resolved {| nc_chainId := 11155111;
                   nc_rpcUrl := "https://rpc.example";
                   nc_explorerUrl := "https://sepolia.etherscan.io";
                   nc_name := "Sepolia Testnet" |} |}.

Definition sample_deploy : DeployOptions :=
  {| do_name := "Licenses";
     do_symbol := "LIC";
     do_baseURI := "https://licenses.example/";
     do_maxSupply := None;
     do_royaltyRecipient := None;
     do_royaltyFee := None |}.

End NodeSamples.

Import NodeSamples.
(* ================================================================== *)
(** * Properties of numbers and their decimal notation                 *)
(* ================================================================== *)

Lemma append_assoc (a b c : string) : (a ++ b) ++ c = a ++ (b ++ c).
Proof. induction a as [|x a IH]; simpl; [reflexivity | now rewrite IH]. Qed.

Lemma append_nil_r (a : string) : a ++ EmptyString = a.
Proof. induction a as [|x a IH]; simpl; [reflexivity | now rewrite IH]. Qed.

Lemma length_append (a b : string) :
  String.length (a ++ b) = (String.length a + String.length b)%nat.
Proof. induction a as [|x a IH]; simpl; [reflexivity | now rewrite IH]. Qed.

Lemma all_digits_uint (d : Decimal.uint) :
  all_digits (NilEmpty.string_of_uint d) = true.
Proof. induction d; simpl; auto. Qed.

(** The decimal digits of a positive number do not start with a zero. *)
Lemma to_uint_leading_digit (p : positive) :
  match Pos.to_uint p with
  | Decimal.Nil | Decimal.D0 _ => False
  | _ => True
  end.
Proof.
  pose proof (DecimalPos.Unsigned.to_uint_nonzero p) as Hnz.
  pose proof (DecimalPos.Unsigned.to_uint_nonnil p) as Hnn.
  assert (Hnorm : Decimal.unorm (Pos.to_uint p) = Pos.to_uint p).
  { rewrite <- DecimalPos.Unsigned.to_of, DecimalPos.Unsigned.of_to. reflexivity. }
  destruct (Pos.to_uint p) as [|d| | | | | | | | |] eqn:E; try exact I.
  - now apply Hnn.
  - rewrite DecimalFacts.unorm_D0 in Hnorm.
    destruct d as [| | | | | | | | | |] eqn:Ed; try (now apply Hnz).
    all: pose proof (DecimalFacts.nb_digits_unorm d) as Hlen;
      rewrite Ed in Hlen; rewrite Hnorm in Hlen; simpl in Hlen;
      assert (Hne : d <> Decimal.Nil) by (rewrite Ed; discriminate);
      rewrite Ed in Hne; specialize (Hlen Hne); lia.
Qed.

Lemma uint_length (d : Decimal.uint) :
  Z.of_nat (String.length (NilEmpty.string_of_uint d)) = Z.of_N (DecimalPos.Unsigned.usize d).
Proof.
  induction d; cbn [NilEmpty.string_of_uint String.length DecimalPos.Unsigned.usize];
    rewrite ?Nat2Z.inj_succ, ?N2Z.inj_succ, ?IHd; reflexivity.
Qed.

(** The value of a digit sequence, one digit in front. *)
Lemma of_uint_head (k : Decimal.uint -> Decimal.uint) (v : N) (d : Decimal.uint) :
  (forall x, Decimal.revapp (k x) Decimal.Nil = Decimal.revapp x (k Decimal.Nil)) ->
  DecimalPos.Unsigned.of_lu (k Decimal.Nil) = v ->
  Pos.of_uint (k d) = (v * 10 ^ DecimalPos.Unsigned.usize d + Pos.of_uint d)%N.
Proof.
  intros Hrev Hv.
  rewrite !DecimalPos.Unsigned.of_uint_alt.
  unfold Decimal.rev at 1. rewrite Hrev.
  rewrite DecimalPos.Unsigned.of_lu_revapp, Hv. lia.
Qed.

Lemma digits_value_uint (d : Decimal.uint) (acc : Z) :
  digits_value 10 (NilEmpty.string_of_uint d) acc
  = Some (acc * 10 ^ Z.of_N (DecimalPos.Unsigned.usize d) + Z.of_N (Pos.of_uint d)).
Proof.
  revert acc.
  induction d; intros acc;
    cbn [NilEmpty.string_of_uint digits_value DecimalPos.Unsigned.usize];
    [ simpl; f_equal; lia | .. ];
    match goal with
    | |- context [digit_of ?c] =>
        let v := eval vm_compute in (digit_of c) in change (digit_of c) with v
    end;
    cbv iota;
    match goal with
    | |- context [?a <? 10] => change (a <? 10) with true
    end;
    cbv iota; rewrite IHd; f_equal;
    match goal with
    | |- context [Pos.of_uint (?k d)] =>
        rewrite (of_uint_head k _ d (fun x => eq_refl) eq_refl)
    end;
    rewrite N2Z.inj_add, N2Z.inj_mul, N2Z.inj_pow, N2Z.inj_succ;
    rewrite Z.pow_succ_r by lia; simpl Z.of_N; lia.
Qed.

Lemma digits_value_app (base : Z) (s t : string) (acc : Z) :
  digits_value base (s ++ t) acc
  = match digits_value base s acc with
    | Some x => digits_value base t x
    | None => None
    end.
Proof.
  revert acc. induction s as [|c s IH]; intros acc; cbn [append digits_value].
  - reflexivity.
  - destruct (digit_of c) as [v|]; [|reflexivity].
    destruct (v <? base); [apply IH | reflexivity].
Qed.

Lemma digits_value_zeros (n : nat) (acc : Z) :
  digits_value 10 (zeros n) acc = Some (acc * 10 ^ Z.of_nat n).
Proof.
  revert acc. induction n as [|n IH]; intros acc.
  - simpl. f_equal. lia.
  - cbn [zeros digits_value].
    change (digit_of "0") with (Some 0). cbv iota.
    change (0 <? 10) with true. cbv iota.
    rewrite IH, Nat2Z.inj_succ, Z.pow_succ_r by lia. f_equal. lia.
Qed.

(** The digits of a non-negative integer, and what they denote. *)
Lemma dec_nonneg (n : Z) :
  0 <= n ->
  exists d,
    dec n = NilEmpty.string_of_uint d
    /\ Z.of_N (Pos.of_uint d) = n
    /\ d <> Decimal.Nil
    /\ (0 < n -> match d with Decimal.D0 _ => False | _ => True end).
Proof.
  intros Hn. unfold dec.
  destruct n as [|p|p]; [| |lia].
  - exists (Decimal.D0 Decimal.Nil). repeat split; try discriminate; lia.
  - exists (Pos.to_uint p).
    pose proof (to_uint_leading_digit p) as Hhead.
    pose proof (DecimalPos.Unsigned.of_to p) as Hval.
    cbn [Z.to_int NilZero.string_of_int]. unfold NilZero.string_of_uint.
    rewrite Hval.
    destruct (Pos.to_uint p); try contradiction; repeat split; try discriminate.
Qed.

Lemma dec_value (n acc : Z) :
  0 <= n ->
  digits_value 10 (dec n) acc
  = Some (acc * 10 ^ Z.of_nat (String.length (dec n)) + n).
Proof.
  intros Hn. destruct (dec_nonneg n Hn) as [d [-> [Hval _]]].
  now rewrite digits_value_uint, uint_length, Hval.
Qed.

Lemma dec_all_digits (n : Z) : 0 <= n -> all_digits (dec n) = true.
Proof.
  intros Hn. destruct (dec_nonneg n Hn) as [d [-> _]]. apply all_digits_uint.
Qed.

Lemma dec_not_empty (n : Z) : dec n <> EmptyString.
Proof.
  unfold dec. destruct n as [|p|p]; cbn [Z.to_int NilZero.string_of_int];
    try discriminate.
  - unfold NilZero.string_of_uint.
    pose proof (to_uint_leading_digit p).
    destruct (Pos.to_uint p); try contradiction; discriminate.
Qed.

Lemma all_digits_app (a b : string) :
  all_digits (a ++ b) = all_digits a && all_digits b.
Proof.
  induction a as [|c a IH]; simpl; [reflexivity|].
  now rewrite IH, andb_assoc.
Qed.

Lemma all_digits_zeros (n : nat) : all_digits (zeros n) = true.
Proof. induction n as [|n IH]; simpl; [reflexivity | exact IH]. Qed.

Lemma zeros_length (n : nat) : String.length (zeros n) = n.
Proof. induction n as [|n IH]; simpl; [reflexivity | now rewrite IH]. Qed.

Lemma take_all (s : string) : take (String.length s) s = s.
Proof. induction s as [|c s IH]; simpl; [reflexivity | now rewrite IH]. Qed.

Lemma take_app (a b : string) : take (String.length a) (a ++ b) = a.
Proof. induction a as [|c a IH]; simpl; [now destruct b | now rewrite IH]. Qed.

(** ** Rounding to binary64 *)

Lemma canon_odd (m : positive) (e : Z) : is_odd m = true -> canon m e = (m, e).
Proof. destruct m; simpl; intros H; [reflexivity | discriminate H | reflexivity]. Qed.

(** [canon] keeps the value and returns an odd significand. *)
Lemma canon_value (m : positive) :
  forall e, is_odd (fst (canon m e)) = true
            /\ e <= snd (canon m e)
            /\ Zpos m = Zpos (fst (canon m e)) * 2 ^ (snd (canon m e) - e).
Proof.
  induction m as [m IH | m IH |]; intros e; cbn [canon fst snd].
  - rewrite Z.sub_diag, Z.pow_0_r. repeat split; lia.
  - destruct (IH (e + 1)) as [Hodd [Hle Hval]].
    repeat split; [exact Hodd | lia |].
    replace (snd (canon m (e + 1)) - e) with (Z.succ (snd (canon m (e + 1)) - (e + 1))) by lia.
    rewrite Z.pow_succ_r by lia. rewrite Pos2Z.inj_xO, Hval at 1. lia.
  - rewrite Z.sub_diag, Z.pow_0_r. repeat split; lia.
Qed.

(** A significand times a power of two has the canonical form of the
    significand. *)
Lemma canon_shift (k : nat) :
  forall (m p0 : positive) (e : Z),
    Zpos p0 = Zpos m * 2 ^ Z.of_nat k -> canon p0 (e - Z.of_nat k) = canon m e.
Proof.
  induction k as [|k IH]; intros m p0 e H.
  - rewrite Z.pow_0_r, Z.mul_1_r in H. injection H as ->.
    now rewrite Z.sub_0_r.
  - rewrite Nat2Z.inj_succ, Z.pow_succ_r in H by lia.
    destruct p0 as [p1 | p1 |].
    + rewrite Pos2Z.inj_xI in H. lia.
    + cbn [canon].
      replace (e - Z.of_nat (S k) + 1) with (e - Z.of_nat k) by lia.
      apply IH. rewrite Pos2Z.inj_xO in H. lia.
    + lia.
Qed.

Lemma round_half_even_exact (q b : Z) : 0 < b -> round_half_even (q * b) b = q.
Proof.
  intros Hb. unfold round_half_even.
  rewrite Z.mod_mul, Z.div_mul by lia.
  destruct (Z.ltb_spec (2 * 0) b); [reflexivity | lia].
Qed.

(** A ratio that is a binary64 number rounds to itself. *)
Lemma round_ratio_exact (m : positive) (e num den : Z) :
  0 < den ->
  representable m e = true ->
  num * 2 ^ 1074 = Zpos m * 2 ^ (e + 1074) * den ->
  round_ratio num den = ToFinite (fst (canon m e)) (snd (canon m e)).
Proof.
  intros Hden Hrep Hnum. unfold representable in Hrep.
  apply andb_true_iff in Hrep as [Hrep H3]. apply andb_true_iff in Hrep as [H1 H2].
  apply Z.leb_le in H1, H2, H3.
  unfold round_ratio. rewrite Hnum.
  set (t := Zpos m * 2 ^ (e + 1074)).
  rewrite Z.div_mul by lia.
  assert (Ht : Z.log2 t = Z.log2 (Zpos m) + (e + 1074))
    by (unfold t; rewrite Z.log2_mul_pow2 by lia; lia).
  assert (Htpos : 0 < t) by (apply Z.mul_pos_pos; [lia | apply Z.pow_pos_nonneg; lia]).
  set (p := if t <? 2 ^ 53 then 0 else Z.log2 t - 52).
  assert (Hp : 0 <= p <= e + 1074).
  { subst p. destruct (Z.ltb_spec t (2 ^ 53)) as [Hlt | Hge]; [lia|].
    apply Z.log2_le_pow2 in Hge; lia. }
  assert (Hlog : Z.log2 t - 52 <= p).
  { subst p. destruct (Z.ltb_spec t (2 ^ 53)) as [Hlt | Hge]; [|lia].
    apply Z.log2_lt_pow2 in Hlt; lia. }
  clearbody p.
  set (k := e + 1074 - p).
  assert (Hsplit : t * den = (Zpos m * 2 ^ k) * (den * 2 ^ p)).
  { subst t k. replace (e + 1074) with ((e + 1074 - p) + p) at 1 by lia.
    rewrite Z.pow_add_r by lia. ring. }
  rewrite Hsplit, round_half_even_exact
    by (apply Z.mul_pos_pos; [lia | apply Z.pow_pos_nonneg; lia]).
  assert (Hk : 0 <= k) by (subst k; lia).
  assert (Hq : 0 < Zpos m * 2 ^ k)
    by (apply Z.mul_pos_pos; [lia | apply Z.pow_pos_nonneg; lia]).
  assert (Hqlog : Z.log2 (Zpos m * 2 ^ k) = Z.log2 (Zpos m) + k)
    by (rewrite Z.log2_mul_pow2 by lia; lia).
  destruct (Zpos m * 2 ^ k) as [|p0|p0] eqn:E; try lia.
  destruct (Z.leb_spec 2098 (Z.log2 (Zpos p0) + p)) as [Hbig | _];
    [subst k; lia|].
  replace (p - 1074) with (e - Z.of_nat (Z.to_nat k)) by (subst k; lia).
  rewrite (canon_shift (Z.to_nat k) m p0 e) by (rewrite Z2Nat.id by lia; symmetry; exact E).
  now destruct (canon m e).
Qed.

(** ** Digits that read back *)

Lemma candidate_ok (m : positive) (e k : Z) (c : Z * Z) :
  candidate m e k = Some c -> digits_ok m e (fst c) (snd c) = true.
Proof.
  unfold candidate.
  set (n := decimal_exponent m e).
  set (lo := _ / _). set (r := _ mod _).
  set (hi := if _ =? _ then _ else _).
  destruct (digits_ok m e lo n) eqn:Elo;
    destruct (digits_ok m e (fst hi) (snd hi)) eqn:Ehi; cbn [andb];
    intros H;
    repeat match type of H with
           | context [if ?b then _ else _] => destruct b
           end;
    inversion H; subst; assumption.
Qed.

Lemma search_ok (m : positive) (e : Z) (fuel : nat) :
  forall k c, search m e k fuel = Some c -> digits_ok m e (fst c) (snd c) = true.
Proof.
  induction fuel as [|fuel IH]; intros k c; cbn [search]; [discriminate|].
  destruct (candidate m e k) as [c'|] eqn:E.
  - intros H. inversion H; subst. now apply candidate_ok with k.
  - apply IH.
Qed.

Lemma pow10_split (k : Z) : 0 <= k -> 10 ^ k = 2 ^ k * 5 ^ k.
Proof. intros Hk. now rewrite <- Z.pow_mul_l. Qed.

(** All the digits of a binary64 number read back as the number. *)
Lemma exact_digits_ok (m : positive) (e : Z) :
  is_odd m = true -> representable m e = true ->
  digits_ok m e (fst (exact_digits m e)) (snd (exact_digits m e)) = true.
Proof.
  intros Hodd Hrep.
  assert (He : -1074 <= e).
  { unfold representable in Hrep.
    apply andb_true_iff in Hrep as [Hrep _]. apply andb_true_iff in Hrep as [_ H2].
    now apply Z.leb_le in H2. }
  unfold exact_digits, digits_ok.
  destruct (Z.leb_spec 0 e) as [Hpos | Hneg]; cbn [fst snd].
  - assert (Hs : 0 < Zpos m * 2 ^ e)
      by (apply Z.mul_pos_pos; [lia | apply Z.pow_pos_nonneg; lia]).
    apply Z.ltb_lt in Hs as Hs'. rewrite Hs'. cbn [andb].
    rewrite Z.sub_diag. unfold ratio. cbn [Z.leb Z.compare].
    rewrite (round_ratio_exact m e); try assumption; try lia.
    + rewrite canon_odd by assumption. cbn [fst snd].
      now rewrite Pos.eqb_refl, Z.eqb_refl.
    + rewrite Z.pow_0_r, Z.pow_add_r by lia. ring.
  - assert (Hs : 0 < Zpos m * 5 ^ (- e))
      by (apply Z.mul_pos_pos; [lia | apply Z.pow_pos_nonneg; lia]).
    apply Z.ltb_lt in Hs as Hs'. rewrite Hs'. cbn [andb].
    replace (ndigits (Zpos m * 5 ^ (- e)) + e - ndigits (Zpos m * 5 ^ (- e))) with e by lia.
    unfold ratio. destruct (Z.leb_spec 0 e) as [|_]; [lia|].
    rewrite (round_ratio_exact m e); try assumption.
    + rewrite canon_odd by assumption. cbn [fst snd].
      now rewrite Pos.eqb_refl, Z.eqb_refl.
    + apply Z.pow_pos_nonneg; lia.
    + rewrite (pow10_split (- e)) by lia.
      replace 1074 with ((e + 1074) + (- e)) at 1 by lia.
      rewrite Z.pow_add_r by lia. ring.
Qed.

Lemma digits_of_ok (m : positive) (e : Z) :
  is_odd m = true -> representable m e = true ->
  digits_ok m e (fst (digits_of m e)) (snd (digits_of m e)) = true.
Proof.
  intros Hodd Hrep. unfold digits_of.
  destruct (search m e 1 17) as [c|] eqn:E.
  - now apply search_ok with 17%nat 1.
  - now apply exact_digits_ok.
Qed.

(** The literal [s * 10^(n - k)] denotes the number its digits were chosen
    for. *)
Lemma number_of_decimal_digits (negative : bool) (m : positive) (e s n : Z) :
  digits_ok m e s n = true ->
  number_of_decimal negative s (n - ndigits s) = classify negative m e.
Proof.
  unfold digits_ok, number_of_decimal. intros H.
  apply andb_true_iff in H as [Hs H]. apply Z.ltb_lt in Hs.
  destruct (Z.leb_spec s 0) as [|_]; [lia|].
  destruct (ratio s (n - ndigits s)) as [num den].
  destruct (round_ratio num den) as [| |m' e']; try discriminate H.
  apply andb_true_iff in H as [Hm He].
  apply Pos.eqb_eq in Hm. apply Z.eqb_eq in He. now subst.
Qed.

Lemma number_of_decimal_ratio (negative : bool) (M E M' E' : Z) :
  0 < M -> 0 < M' -> ratio M E = ratio M' E' ->
  number_of_decimal negative M E = number_of_decimal negative M' E'.
Proof.
  intros HM HM' H. unfold number_of_decimal.
  destruct (Z.leb_spec M 0) as [|_]; [lia|].
  destruct (Z.leb_spec M' 0) as [|_]; [lia|].
  now rewrite H.
Qed.

(** A positive safe integer is the number its digits denote. *)
Lemma number_of_decimal_safe (negative : bool) (n : Z) :
  0 < n <= 2 ^ 53 - 1 ->
  number_of_decimal negative n 0 = NInt (signed negative n).
Proof.
  intros Hn. unfold number_of_decimal.
  destruct (Z.leb_spec n 0) as [|_]; [lia|].
  unfold ratio. cbn [Z.leb Z.compare]. rewrite Z.pow_0_r, Z.mul_1_r.
  destruct n as [|p|p]; try lia.
  assert (Hlog : Z.log2 (Zpos p) <= 52).
  { assert (Z.log2 (Zpos p) < 53); [apply Z.log2_lt_pow2; lia | lia]. }
  rewrite (round_ratio_exact p 0).
  - destruct (canon_value p 0) as [_ [Hle Hval]].
    rewrite Z.sub_0_r in Hval.
    unfold classify, integral_safe. rewrite <- Hval.
    destruct (Z.leb_spec 0 (snd (canon p 0))) as [_|]; [|lia].
    destruct (Z.leb_spec (Zpos p) (2 ^ 53 - 1)) as [_|]; [|lia].
    reflexivity.
  - lia.
  - unfold representable.
    destruct (Z.leb_spec (Z.log2 (Zpos p)) 52); [|lia]. cbn [andb].
    destruct (Z.leb_spec (Z.log2 (Zpos p) + 0) 1023); [|lia].
    reflexivity.
  - rewrite Z.add_0_l. ring.
Qed.

(** ** Reading digits *)

Lemma span_digits_app (ds rest : string) :
  all_digits ds = true -> starts_with_digit rest = false ->
  span_digits (ds ++ rest) = (ds, rest).
Proof.
  intros Hds Hrest. induction ds as [|c ds IH]; cbn [append].
  - destruct rest as [|c r]; [reflexivity|].
    cbn [span_digits]. simpl in Hrest. now rewrite Hrest.
  - cbn [all_digits] in Hds. apply andb_true_iff in Hds as [Hc Hds].
    cbn [span_digits]. now rewrite Hc, (IH Hds).
Qed.

Lemma digit_of_digit (c : ascii) :
  is_digit c = true -> exists v, digit_of c = Some v /\ 0 <= v < 10.
Proof.
  destruct c as [[] [] [] [] [] [] [] []]; intros H; try discriminate H;
    eexists; (split; [vm_compute; reflexivity | lia]).
Qed.

Lemma digits_value_digits (s : string) :
  all_digits s = true ->
  forall acc,
    digits_value 10 s acc = Some (acc * 10 ^ Z.of_nat (String.length s) + value_of s).
Proof.
  induction s as [|c s IH]; intros H acc.
  - unfold value_of. cbn [digits_value String.length]. f_equal.
    rewrite Z.pow_0_r. lia.
  - cbn [all_digits] in H. apply andb_true_iff in H as [Hc Hs].
    destruct (digit_of_digit c Hc) as [v [Hv Hr]].
    unfold value_of. cbn [digits_value String.length]. rewrite Hv.
    destruct (Z.ltb_spec v 10) as [_|]; [|lia].
    rewrite !(IH Hs). cbv beta iota. f_equal.
    rewrite Nat2Z.inj_succ, Z.pow_succ_r by lia. ring.
Qed.

Lemma value_of_app (a b : string) :
  all_digits a = true -> all_digits b = true ->
  value_of (a ++ b) = value_of a * 10 ^ Z.of_nat (String.length b) + value_of b.
Proof.
  intros Ha Hb. unfold value_of at 1.
  rewrite digits_value_app, (digits_value_digits a Ha). cbv beta iota.
  rewrite (digits_value_digits b Hb). cbv beta iota. ring.
Qed.

Lemma value_of_dec (n : Z) : 0 <= n -> value_of (dec n) = n.
Proof.
  intros Hn. unfold value_of. rewrite dec_value by lia. cbv beta iota. lia.
Qed.

Lemma value_of_zeros (j : nat) : value_of (zeros j) = 0.
Proof. unfold value_of. rewrite digits_value_zeros. cbv beta iota. lia. Qed.

(** The digits of a positive integer start with a digit other than zero. *)
Lemma dec_head (s : Z) :
  0 < s ->
  exists c r, dec s = String c r /\ is_digit c = true /\ Ascii.eqb c "0" = false.
Proof.
  intros Hs. unfold dec. destruct s as [|p|p]; try lia.
  cbn [Z.to_int NilZero.string_of_int]. unfold NilZero.string_of_uint.
  pose proof (to_uint_leading_digit p) as H.
  destruct (Pos.to_uint p); try contradiction;
    cbn [NilEmpty.string_of_uint]; do 2 eexists; repeat split; reflexivity.
Qed.

Lemma dec_negative (n : Z) : n < 0 -> dec n = String "-" (dec (- n)).
Proof.
  intros Hn. unfold dec. destruct n as [|p|p]; try lia.
  cbn [Z.opp Z.to_int NilZero.string_of_int]. unfold NilZero.string_of_uint.
  pose proof (to_uint_leading_digit p) as H.
  destruct (Pos.to_uint p); try contradiction; reflexivity.
Qed.

Lemma take_drop (n : nat) : forall s, take n s ++ drop n s = s.
Proof.
  induction n as [|n IH]; intros [|c s]; cbn [take drop append]; try reflexivity.
  now rewrite IH.
Qed.

Lemma all_digits_take (n : nat) :
  forall s, all_digits s = true -> all_digits (take n s) = true.
Proof.
  induction n as [|n IH]; intros [|c s]; cbn [take all_digits]; try reflexivity.
  intros H. apply andb_true_iff in H as [Hc Hs]. now rewrite Hc, IH.
Qed.

Lemma all_digits_drop (n : nat) :
  forall s, all_digits s = true -> all_digits (drop n s) = true.
Proof.
  induction n as [|n IH]; intros [|c s]; cbn [drop all_digits]; try reflexivity;
    try (intros H; exact H).
  intros H. apply andb_true_iff in H as [Hc Hs]. now apply IH.
Qed.

Lemma length_drop (n : nat) :
  forall s, String.length (drop n s) = (String.length s - n)%nat.
Proof.
  induction n as [|n IH]; intros [|c s]; cbn [drop String.length]; try reflexivity.
  apply IH.
Qed.

(** ** Reading the parts of a number *)

Lemma delimited_facts (rest : string) :
  delimited rest = true ->
  starts_with_digit rest = false
  /\ lex_fraction rest = Some (EmptyString, rest)
  /\ lex_exponent rest = Some (0, rest).
Proof.
  destruct rest as [|c r]; [now repeat split|].
  destruct c as [[] [] [] [] [] [] [] []]; simpl; intros H;
    try discriminate H; repeat split; reflexivity.
Qed.

Lemma lex_fraction_present (f r : string) :
  all_digits f = true -> f <> EmptyString -> starts_with_digit r = false ->
  lex_fraction (String "." (f ++ r)) = Some (f, r).
Proof.
  intros Hf Hne Hr. unfold lex_fraction. cbv beta iota.
  rewrite (span_digits_app f r Hf Hr).
  destruct f; [contradiction | reflexivity].
Qed.

Lemma exponent_text_start (x : Z) (r : string) :
  starts_with_digit (exponent_text x ++ r) = false
  /\ lex_fraction (exponent_text x ++ r) = Some (EmptyString, exponent_text x ++ r).
Proof. unfold exponent_text. destruct (x <? 0); split; reflexivity. Qed.

Lemma lex_exponent_signed (minus : bool) (body : string) :
  lex_exponent (String "e" (String (if minus then "-" else "+") body))
  = match span_digits body with
    | (EmptyString, _) => None
    | (ds, rest) => Some (signed minus (value_of ds), rest)
    end.
Proof. destruct minus; reflexivity. Qed.

Lemma lex_exponent_present (x : Z) (r : string) :
  starts_with_digit r = false ->
  lex_exponent (exponent_text x ++ r) = Some (x, r).
Proof.
  intros Hr. unfold exponent_text.
  assert (Hall : all_digits (dec (Z.abs x)) = true) by (apply dec_all_digits; lia).
  pose proof (dec_not_empty (Z.abs x)) as Hne.
  pose proof (value_of_dec (Z.abs x) ltac:(lia)) as Hval.
  destruct (Z.ltb_spec x 0) as [Hneg | Hpos]; cbn [append].
  - rewrite (lex_exponent_signed true), (span_digits_app _ r Hall Hr).
    destruct (dec (Z.abs x)); [contradiction|].
    rewrite Hval. unfold signed. do 2 f_equal. lia.
  - rewrite (lex_exponent_signed false), (span_digits_app _ r Hall Hr).
    destruct (dec (Z.abs x)); [contradiction|].
    rewrite Hval. unfold signed. do 2 f_equal. lia.
Qed.

Lemma lex_unsigned_steps (negative : bool) (c : ascii) (more r1 frac r2 : string)
    (ex : Z) (r3 : string) :
  all_digits (String c more) = true ->
  Ascii.eqb c "0" && negb (String.eqb more "") = false ->
  starts_with_digit r1 = false ->
  lex_fraction r1 = Some (frac, r2) ->
  lex_exponent r2 = Some (ex, r3) ->
  lex_unsigned negative (String c more ++ r1)
  = Some (number_of_decimal negative (value_of (String c more ++ frac))
            (ex - Z.of_nat (String.length frac)), r3).
Proof.
  intros Hall Hzero Hr1 Hfrac Hex. unfold lex_unsigned.
  rewrite (span_digits_app _ r1 Hall Hr1), Hzero, Hfrac, Hex. reflexivity.
Qed.

Lemma lex_number_signed (negative : bool) (c : ascii) (r : string) :
  is_digit c = true ->
  lex_number ((if negative then "-" else "") ++ String c r)
  = lex_unsigned negative (String c r).
Proof.
  intros Hc. destruct negative; [reflexivity|].
  cbn [append]. unfold lex_number.
  destruct c as [[] [] [] [] [] [] [] []]; try discriminate Hc; reflexivity.
Qed.

(** The exponent layouts read back as the decimal they write. *)
Lemma lex_exponent_layout (negative : bool) (c : ascii) (r : string) (x : Z)
    (rest : string) :
  all_digits (String c r) = true ->
  Ascii.eqb c "0" = false ->
  delimited rest = true ->
  lex_unsigned negative
    ((if Z.of_nat (String.length (String c r)) =? 1
      then String c r ++ exponent_text x
      else take 1 (String c r) ++ "." ++ drop 1 (String c r) ++ exponent_text x)
     ++ rest)
  = Some (number_of_decimal negative (value_of (String c r))
            (x - Z.of_nat (String.length r)), rest).
Proof.
  intros Hall Hnz Hrest.
  destruct (delimited_facts rest Hrest) as [Hdig _].
  destruct (exponent_text_start x rest) as [Hedig Hefrac].
  destruct (Z.eqb_spec (Z.of_nat (String.length (String c r))) 1) as [Hone | Hmany].
  - rewrite append_assoc.
    rewrite (lex_unsigned_steps negative c r (exponent_text x ++ rest) EmptyString
               (exponent_text x ++ rest) x rest);
      try assumption.
    + rewrite append_nil_r. do 3 f_equal. cbn [String.length] in Hone |- *. lia.
    + now rewrite Hnz.
    + now apply lex_exponent_present.
  - cbn [take drop append].
    assert (Hne : r <> EmptyString)
      by (intros E; rewrite E in Hmany; cbn [String.length] in Hmany; lia).
    rewrite append_assoc.
    change (String c (String "." (r ++ exponent_text x ++ rest)))
      with (String c EmptyString ++ String "." (r ++ exponent_text x ++ rest)).
    rewrite (lex_unsigned_steps negative c EmptyString
               (String "." (r ++ exponent_text x ++ rest)) r
               (exponent_text x ++ rest) x rest).
    + reflexivity.
    + cbn [all_digits] in Hall |- *. apply andb_true_iff in Hall as [-> _]. reflexivity.
    + cbn. now rewrite andb_false_r.
    + reflexivity.
    + cbn [all_digits] in Hall. apply andb_true_iff in Hall as [_ Hr].
      now apply lex_fraction_present.
    + now apply lex_exponent_present.
Qed.

(** Every layout of Number::toString reads back as the decimal it
    writes. *)
Lemma lex_layout (negative : bool) (s n : Z) (rest : string) :
  0 < s -> delimited rest = true ->
  lex_unsigned negative (layout s n ++ rest)
  = Some (number_of_decimal negative s (n - ndigits s), rest).
Proof.
  intros Hs Hrest.
  destruct (delimited_facts rest Hrest) as [Hdig [Hnofrac Hnoexp]].
  destruct (dec_head s Hs) as [c [r [Hd [Hc Hnz]]]].
  assert (Hall : all_digits (dec s) = true) by (apply dec_all_digits; lia).
  pose proof (value_of_dec s ltac:(lia)) as Hval.
  unfold layout, ndigits. rewrite Hd in *. clear Hd.
  assert (Hlen : Z.of_nat (String.length (String c r)) = 1 + Z.of_nat (String.length r))
    by (cbn [String.length]; lia).
  set (d := String c r) in *.
  destruct ((Z.of_nat (String.length d) <=? n) && (n <=? 21)) eqn:E1.
  { (* the digits, then zeros *)
    apply andb_true_iff in E1 as [Hkn H21]. apply Z.leb_le in Hkn, H21.
    set (j := Z.to_nat (n - Z.of_nat (String.length d))).
    assert (Hwhole : all_digits (d ++ zeros j) = true)
      by (rewrite all_digits_app, Hall; apply all_digits_zeros).
    assert (Hvalue : value_of (d ++ zeros j) = s * 10 ^ Z.of_nat j).
    { rewrite value_of_app, value_of_zeros, Hval, zeros_length
        by (assumption || apply all_digits_zeros). ring. }
    subst d. change (String c r ++ zeros j) with (String c (r ++ zeros j)) in Hwhole |- *.
    rewrite (lex_unsigned_steps negative c (r ++ zeros j) rest EmptyString rest 0 rest);
      try assumption.
    - change (String c (r ++ zeros j)) with (String c r ++ zeros j).
      rewrite append_nil_r, Hvalue.
      assert (0 < 10 ^ Z.of_nat j) by (apply Z.pow_pos_nonneg; lia).
      do 2 f_equal. apply number_of_decimal_ratio; [nia | exact Hs |].
      unfold ratio.
      change (0 - Z.of_nat (String.length EmptyString)) with 0.
      change (0 <=? 0) with true. cbv iota.
      destruct (Z.leb_spec 0 (n - Z.of_nat (String.length (String c r)))) as [_|]; [|lia].
      rewrite Z.pow_0_r.
      replace (Z.of_nat j) with (n - Z.of_nat (String.length (String c r)))
        by (subst j; lia).
      f_equal. ring.
    - now rewrite Hnz. }
  destruct ((0 <? n) && (n <=? 21)) eqn:E2.
  { (* the point inside the digits *)
    apply andb_true_iff in E2 as [Hn0 H21]. apply Z.ltb_lt in Hn0. apply Z.leb_le in H21.
    apply andb_false_iff in E1 as [E1 | E1]; apply Z.leb_gt in E1; [|lia].
    assert (Htake : exists t, take (Z.to_nat n) d = String c t).
    { subst d. destruct (Z.to_nat n) as [|n'] eqn:En; [lia|].
      cbn [take]. now eexists. }
    destruct Htake as [t Ht].
    pose proof (take_drop (Z.to_nat n) d) as Htd.
    pose proof (all_digits_take (Z.to_nat n) d Hall) as Hat.
    pose proof (all_digits_drop (Z.to_nat n) d Hall) as Had.
    pose proof (length_drop (Z.to_nat n) d) as Hld.
    rewrite append_assoc. cbn [append]. rewrite Ht in *.
    rewrite (lex_unsigned_steps negative c t (String "." (drop (Z.to_nat n) d ++ rest))
               (drop (Z.to_nat n) d) rest 0 rest);
      try assumption.
    - rewrite Htd, Hval, Hld. do 3 f_equal. lia.
    - now rewrite Hnz.
    - reflexivity.
    - apply lex_fraction_present; try assumption.
      intros E. rewrite E in Hld. cbn [String.length] in Hld. lia. }
  destruct ((-6 <? n) && (n <=? 0)) eqn:E3.
  { (* zeros between the point and the digits *)
    apply andb_true_iff in E3 as [H6 Hn0]. apply Z.ltb_lt in H6. apply Z.leb_le in Hn0.
    set (j := Z.to_nat (- n)).
    cbn [append].
    change (String "0" (String "." ((zeros j ++ d) ++ rest)))
      with (String "0" EmptyString ++ String "." ((zeros j ++ d) ++ rest)).
    assert (Hfrac : all_digits (zeros j ++ d) = true)
      by (rewrite all_digits_app, all_digits_zeros; exact Hall).
    rewrite (lex_unsigned_steps negative "0" EmptyString
               (String "." ((zeros j ++ d) ++ rest)) (zeros j ++ d) rest 0 rest);
      try reflexivity; try assumption.
    - cbn [append].
      change (String "0" (zeros j ++ d)) with (zeros (S j) ++ d).
      rewrite value_of_app, value_of_zeros, Hval, length_append, zeros_length
        by (assumption || apply all_digits_zeros).
      do 3 f_equal; lia.
    - apply lex_fraction_present; try assumption.
      subst d. destruct (zeros j); discriminate. }
  (* exponent notation *)
  subst d. rewrite (lex_exponent_layout negative c r (n - 1) rest Hall Hnz Hrest).
  rewrite Hval. do 3 f_equal. lia.
Qed.

Lemma layout_start (s n : Z) :
  0 < s -> exists c r, layout s n = String c r /\ is_digit c = true.
Proof.
  intros Hs.
  pose proof (lex_layout false s n EmptyString Hs eq_refl) as Hlex.
  rewrite append_nil_r in Hlex.
  destruct (layout s n) as [|c r].
  - discriminate Hlex.
  - exists c, r. split; [reflexivity|].
    unfold lex_unsigned in Hlex. cbn [span_digits] in Hlex.
    destruct (is_digit c); [reflexivity | discriminate Hlex].
Qed.

(** ** Numbers read back *)

Lemma parse_number_safe (n : Z) (rest : string) :
  safe_integer n = true -> delimited rest = true ->
  parse_number (dec n ++ rest) = Some (NInt n, rest).
Proof.
  intros Hsafe Hrest. unfold safe_integer in Hsafe.
  apply andb_true_iff in Hsafe as [Hlo Hhi]. apply Z.leb_le in Hlo, Hhi.
  destruct (delimited_facts rest Hrest) as [Hdig [Hnofrac Hnoexp]].
  unfold parse_number.
  assert (Hpositive : forall negative k c r,
             0 < k <= 2 ^ 53 - 1 -> dec k = String c r ->
             lex_unsigned negative (dec k ++ rest) = Some (NInt (signed negative k), rest)).
  { intros negative k c r Hk Hd.
    assert (Hall : all_digits (dec k) = true) by (apply dec_all_digits; lia).
    destruct (dec_head k ltac:(lia)) as [c' [r' [Hd' [Hc Hnz]]]].
    pose proof (value_of_dec k ltac:(lia)) as Hval.
    rewrite Hd' in *.
    rewrite (lex_unsigned_steps negative c' r' rest EmptyString rest 0 rest);
      try assumption.
    - rewrite append_nil_r, Hval. cbn [String.length Z.of_nat Z.sub].
      now rewrite number_of_decimal_safe.
    - now rewrite Hnz. }
  destruct (Z.lt_trichotomy n 0) as [Hneg | [-> | Hpos]].
  - rewrite (dec_negative n Hneg). cbn [append]. unfold lex_number.
    change (Ascii.eqb "-" "-") with true. cbv iota.
    destruct (dec_head (- n) ltac:(lia)) as [c [r [Hd _]]].
    rewrite (Hpositive true (- n) c r ltac:(lia) Hd).
    unfold signed. do 3 f_equal. lia.
  - change (dec 0) with "0". cbn [append].
    change (lex_number (String "0" rest)) with (lex_unsigned false (String "0" rest)).
    change (String "0" rest) with (String "0" EmptyString ++ rest).
    now rewrite (lex_unsigned_steps false "0" EmptyString rest EmptyString rest 0 rest).
  - destruct (dec_head n Hpos) as [c [r [Hd [Hc _]]]].
    pose proof (Hpositive false n c r ltac:(lia) Hd) as H.
    rewrite Hd in *. cbn [append] in H |- *.
    rewrite (lex_number_signed false c (r ++ rest) Hc
             : lex_number (String c (r ++ rest)) = lex_unsigned false (String c (r ++ rest))).
    exact H.
Qed.

Lemma parse_number_double (negative : bool) (m : positive) (e : Z) (rest : string) :
  proper (DFinite negative m e) = true -> delimited rest = true ->
  parse_number (double_to_string (DFinite negative m e) ++ rest)
  = Some (NDouble (DFinite negative m e), rest).
Proof.
  intros Hproper Hrest. cbn [proper] in Hproper.
  apply andb_true_iff in Hproper as [Hproper Hunsafe].
  apply andb_true_iff in Hproper as [Hodd Hrep].
  pose proof (digits_of_ok m e Hodd Hrep) as Hok.
  unfold parse_number. cbn [double_to_string].
  destruct (digits_of m e) as [s n]. cbn [fst snd] in Hok.
  assert (Hs : 0 < s).
  { unfold digits_ok in Hok. apply andb_true_iff in Hok as [Hs _].
    now apply Z.ltb_lt in Hs. }
  pose proof (lex_layout negative s n rest Hs Hrest) as Hlex.
  assert (Hstart : exists c r, layout s n ++ rest = String c r /\ is_digit c = true).
  { destruct (layout s n ++ rest) as [|c r] eqn:E.
    - unfold lex_unsigned in Hlex. discriminate Hlex.
    - exists c, r. split; [reflexivity|].
      unfold lex_unsigned in Hlex. cbn [span_digits] in Hlex.
      destruct (is_digit c); [reflexivity | discriminate Hlex]. }
  destruct Hstart as [c [r [E Hc]]].
  rewrite append_assoc, E, (lex_number_signed negative c r Hc), <- E, Hlex.
  rewrite (number_of_decimal_digits negative m e s n Hok).
  unfold classify. apply negb_true_iff in Hunsafe. now rewrite Hunsafe.
Qed.

(* ================================================================== *)
(** * Properties of the retry wrapper                                  *)
(* ================================================================== *)

Section RetryProperties.

Context {W T : Type}.
Variable fn : W -> Settled T * W.
Variable timer : Z -> W -> W.

Lemma schedule_step (baseDelay i : Z) (k : nat) :
  schedule baseDelay i (S k) = baseDelay * 2 ^ i :: schedule baseDelay (i + 1) k.
Proof.
  unfold schedule. simpl. rewrite Z.add_0_r. f_equal.
  rewrite <- seq_shift, map_map.
  apply map_ext. intros j. do 2 f_equal. lia.
Qed.

(** After [k] failed attempts the loop has slept the first [k] delays of the
    schedule; a success on the next attempt is returned. *)
Lemma retry_loop_success (accept : JsValue -> bool) (maxRetries baseDelay : Z) :
  forall (k remaining : nat) (i : Z) (lastError : JsValue)
         (st : RetryState W) (w' w'' : W) (v : T),
    fails_each fn timer baseDelay accept k i (rs_world st) = Some w' ->
    fn w' = (Fulfilled v, w'') ->
    (k < remaining)%nat ->
    i + Z.of_nat k < maxRetries ->
    retry_loop fn timer maxRetries baseDelay remaining i lastError st
    = (Fulfilled v,
       {| rs_world := w'';
          rs_calls := S (rs_calls st + k);
          rs_sleeps := List.rev (schedule baseDelay i k) ++ rs_sleeps st |}).
Proof.
  induction k as [|k IH]; intros remaining i lastError st w' w'' v Hfail Hok Hrem Hi.
  - simpl in Hfail. injection Hfail as <-.
    destruct remaining as [|r]; [lia|].
    simpl. unfold invoke. rewrite Hok. simpl.
    now rewrite Nat.add_0_r.
  - destruct remaining as [|r]; [lia|].
    simpl in Hfail. cbn [retry_loop]. unfold invoke.
    destruct (fn (rs_world st)) as [[v0|e] w1] eqn:Hfn; [discriminate|].
    destruct (accept e); [|discriminate].
    replace (i =? maxRetries - 1) with false by (symmetry; apply Z.eqb_neq; lia).
    erewrite (IH r (i + 1)); [| exact Hfail | exact Hok | lia | lia].
    rewrite schedule_step. cbn [List.rev rs_calls rs_sleeps sleep].
    rewrite <- app_assoc. cbn [app].
    do 2 f_equal. lia.
Qed.

(** After [k] failed attempts, a failure on the last permitted attempt is
    thrown as it is. *)
Lemma retry_loop_exhausted (accept : JsValue -> bool) (maxRetries baseDelay : Z) :
  forall (k remaining : nat) (i : Z) (lastError : JsValue)
         (st : RetryState W) (w' w'' : W) (e : JsValue),
    fails_each fn timer baseDelay accept k i (rs_world st) = Some w' ->
    fn w' = (Rejected e, w'') ->
    (k < remaining)%nat ->
    i + Z.of_nat k = maxRetries - 1 ->
    retry_loop fn timer maxRetries baseDelay remaining i lastError st
    = (Rejected e,
       {| rs_world := w'';
          rs_calls := S (rs_calls st + k);
          rs_sleeps := List.rev (schedule baseDelay i k) ++ rs_sleeps st |}).
Proof.
  induction k as [|k IH]; intros remaining i lastError st w' w'' e Hfail Hlast Hrem Hi.
  - simpl in Hfail. injection Hfail as <-.
    destruct remaining as [|r]; [lia|].
    simpl. unfold invoke. rewrite Hlast.
    replace (i =? maxRetries - 1) with true by (symmetry; apply Z.eqb_eq; lia).
    simpl. now rewrite Nat.add_0_r.
  - destruct remaining as [|r]; [lia|].
    simpl in Hfail. cbn [retry_loop]. unfold invoke.
    destruct (fn (rs_world st)) as [[v0|e0] w1] eqn:Hfn; [discriminate|].
    destruct (accept e0); [|discriminate].
    replace (i =? maxRetries - 1) with false by (symmetry; apply Z.eqb_neq; lia).
    erewrite (IH r (i + 1)); [| exact Hfail | exact Hlast | lia | lia].
    rewrite schedule_step. cbn [List.rev rs_calls rs_sleeps sleep].
    rewrite <- app_assoc. cbn [app].
    do 2 f_equal. lia.
Qed.

Lemma total_app (l1 l2 : list Z) : total (l1 ++ l2) = total l1 + total l2.
Proof.
  unfold total. induction l1 as [|x l1 IH]; simpl; [reflexivity|].
  rewrite IH. lia.
Qed.

Lemma total_rev (l : list Z) : total (List.rev l) = total l.
Proof.
  induction l as [|x l IH]; simpl; [reflexivity|].
  rewrite total_app, IH. unfold total. simpl. lia.
Qed.

Lemma total_schedule (baseDelay : Z) (k : nat) :
  total (schedule baseDelay 0 k) = baseDelay * geometric_sum k.
Proof.
  unfold geometric_sum, schedule, total.
  induction (seq 0 k) as [|j l IH]; cbn [map fold_right].
  - lia.
  - rewrite IH, Z.add_0_l. lia.
Qed.

Lemma geometric_sum_closed (k : nat) : geometric_sum k = 2 ^ Z.of_nat k - 1.
Proof.
  unfold geometric_sum.
  induction k as [|k IH].
  - reflexivity.
  - rewrite seq_S, map_app, total_app, IH.
    cbn [map total fold_right Nat.add].
    rewrite Nat2Z.inj_succ, Z.pow_succ_r by lia. lia.
Qed.

(** C7. An operation that fails with a retryable cause exactly [k] times and
    then succeeds, with [k < maxAttempts], makes the retry wrapper return the
    success value after [k + 1] invocations; the wrapper slept
    [baseDelay * 2^i] before retry [i + 1] for [i = 0 .. k-1], in that order,
    so the delays add up to [baseDelay * (2^0 + ... + 2^(k-1))]. *)
Theorem retry_succeeds_after_retryable_failures
    (maxAttempts baseDelay : Z) (k : nat) (w w' w'' : W) (v : T) :
  Z.of_nat k < maxAttempts ->
  fails_each fn timer baseDelay retryable k 0 w = Some w' ->
  fn w' = (Fulfilled v, w'') ->
  exists st,
    retryWithBackoff fn timer (Some maxAttempts) (Some baseDelay) w
    = (Fulfilled v, st)
    /\ rs_world st = w''
    /\ rs_calls st = S k
    /\ List.rev (rs_sleeps st) = schedule baseDelay 0 k
    /\ total (rs_sleeps st) = baseDelay * geometric_sum k.
Proof.
  intros Hk Hfail Hok.
  unfold retryWithBackoff.
  erewrite retry_loop_success; eauto; simpl; try lia.
  eexists. split; [reflexivity|]. simpl.
  rewrite app_nil_r, rev_involutive.
  repeat split.
  now rewrite total_rev, total_schedule.
Qed.

End RetryProperties.

Lemma retry_succeeds_after_retryable_failures_witness :
  Z.of_nat 2 < 5
  /\ fails_each flaky idle 100 retryable 2 0 0%nat = Some 2%nat
  /\ flaky 2%nat = (Fulfilled "0xabc", 3%nat)
  /\ exists st,
       retryWithBackoff flaky idle (Some 5) (Some 100) 0%nat
       = (Fulfilled "0xabc", st)
       /\ rs_world st = 3%nat
       /\ rs_calls st = 3%nat
       /\ List.rev (rs_sleeps st) = schedule 100 0 2
       /\ total (rs_sleeps st) = 100 * geometric_sum 2.
Proof.
  split; [reflexivity|]. split; [reflexivity|]. split; [reflexivity|].
  apply (retry_succeeds_after_retryable_failures flaky idle 5 100 2 0%nat 2%nat 3%nat);
    reflexivity.
Defined.

(** The classification of a few causes. *)
Example isRetryableError_samples :
  isRetryableError network_down = Normal true
  /\ isRetryableError (new_Error "request failed: TIMEOUT_ERROR") = Normal true
  /\ isRetryableError insufficient_funds = Normal false
  /\ isRetryableError (JStr "NETWORK_ERROR") = Normal false
  /\ isRetryableError JUndefined = Throw (TypeError_read "code" JUndefined).
Proof. vm_compute. repeat split. Qed.

Section RetryEveryCause.

Context {W T : Type}.
Variable fn : W -> Settled T * W.
Variable timer : Z -> W -> W.

(** C10. With [maxAttempts = 0] the loop body never runs: the operation is
    not invoked, nothing is slept, and the promise rejects with [undefined],
    which is neither an [Error] nor a [LicenseChainError]. *)
Theorem retry_with_zero_attempts_rejects_undefined (baseDelay : option Z) (w : W) :
  retryWithBackoff fn timer (Some 0) baseDelay w
  = (Rejected JUndefined, {| rs_world := w; rs_calls := 0; rs_sleeps := [] |})
  /\ is_LicenseChainError JUndefined = false
  /\ (forall cls props, JUndefined <> JObj cls props).
Proof.
  split; [reflexivity|]. split; [reflexivity|]. discriminate.
Qed.

(** C2, as the code has it.  The wrapper never looks at the cause: whatever
    the causes are, retryable or not, an operation that fails on each of its
    [n] permitted attempts is invoked [n] times, with the backoff sleeps in
    between, and the last failure is thrown unchanged.  The failure of the
    first attempt is therefore propagated without a second invocation
    exactly when [maxAttempts = 1]. *)
Theorem retry_ignores_classification
    (n : nat) (baseDelay : Z) (w w' w'' : W) (e : JsValue) :
  fails_each fn timer baseDelay any_cause n 0 w = Some w' ->
  fn w' = (Rejected e, w'') ->
  retryWithBackoff fn timer (Some (Z.of_nat (S n))) (Some baseDelay) w
  = (Rejected e,
     {| rs_world := w'';
        rs_calls := S n;
        rs_sleeps := List.rev (schedule baseDelay 0 n) |}).
Proof.
  intros Hfail Hlast.
  unfold retryWithBackoff.
  erewrite retry_loop_exhausted; eauto; simpl rs_world; try lia.
  simpl. now rewrite app_nil_r.
Qed.

(** The loop never forgets an invocation. *)
Lemma retry_loop_calls_mono (maxRetries baseDelay : Z) :
  forall (remaining : nat) (i : Z) (lastError : JsValue) (st : RetryState W),
    (rs_calls st
     <= rs_calls (snd (retry_loop fn timer maxRetries baseDelay remaining i lastError st)))%nat.
Proof.
  induction remaining as [|r IH]; intros i lastError st; cbn [retry_loop].
  - simpl. lia.
  - unfold invoke. destruct (fn (rs_world st)) as [[v|e] w1].
    + simpl. lia.
    + destruct (i =? maxRetries - 1).
      * simpl. lia.
      * eapply Nat.le_trans; [|apply IH]. simpl. lia.
Qed.

(** Whenever a second attempt is permitted, a failed first attempt is
    followed by a second invocation, whatever the cause of the failure. *)
Lemma retry_second_attempt
    (maxAttempts baseDelay : Z) (w w1 : W) (e : JsValue) :
  2 <= maxAttempts ->
  fn w = (Rejected e, w1) ->
  (2 <= rs_calls (snd (retryWithBackoff fn timer (Some maxAttempts) (Some baseDelay) w)))%nat.
Proof.
  intros Hmax Hfirst. unfold retryWithBackoff.
  destruct (Z.to_nat maxAttempts) as [|[|r]] eqn:Hn; try lia.
  cbn [retry_loop]. unfold invoke at 1. cbn [rs_world]. rewrite Hfirst.
  replace (0 =? maxAttempts - 1) with false by (symmetry; apply Z.eqb_neq; lia).
  clear Hfirst. cbn [retry_loop]. unfold invoke at 1.
  destruct (fn _) as [[v|e2] w2]; cbn [rs_calls sleep].
  - simpl. lia.
  - destruct (0 + 1 =? maxAttempts - 1).
    + simpl. lia.
    + eapply Nat.le_trans; [|apply retry_loop_calls_mono]. simpl. lia.
Qed.

End RetryEveryCause.

Lemma retry_ignores_classification_witness :
  fails_each always_broke idle 1000 any_cause 2 0 0%nat = Some 2%nat
  /\ always_broke 2%nat = (Rejected insufficient_funds, 3%nat)
  /\ retryWithBackoff always_broke idle (Some 3) (Some 1000) 0%nat
     = (Rejected insufficient_funds,
        {| rs_world := 3%nat; rs_calls := 3; rs_sleeps := [2000; 1000] |}).
Proof.
  split; [reflexivity|]. split; [reflexivity|].
  apply (retry_ignores_classification always_broke idle 2 1000 0%nat 2%nat 3%nat);
    reflexivity.
Defined.

(** C2, as stated, fails: a cause classified as not retryable (insufficient
    funds) is retried until the attempts run out; with three attempts the
    operation is invoked three times, not once. *)
Lemma non_retryable_failure_is_retried :
  not_retryable insufficient_funds = true
  /\ rs_calls (snd (retryWithBackoff always_broke idle (Some 3) (Some 1000) 0%nat))
     = 3%nat
  /\ ~ fails_fast_on_non_retryable.
Proof.
  split; [reflexivity|]. split; [reflexivity|].
  intros H.
  destruct (H always_broke idle 3 1000 0%nat 1%nat insufficient_funds)
    as [st [Hrun Hcalls]]; try reflexivity; try lia.
  vm_compute in Hrun. injection Hrun as <-. discriminate.
Qed.

(* ================================================================== *)
(** * Properties of the timeout guard                                  *)
(* ================================================================== *)

Section TimeoutProperties.

Context {T : Type}.

(** A settled race ignores whatever the event loop delivers later. *)
Lemma race_settled_once (r : Settled T) (later : list (LoopEvent T)) :
  fold_left race_step later (Done r) = Done r.
Proof.
  induction later as [|ev later IH]; simpl; [reflexivity | exact IH].
Qed.

(** C3, as the code has it.  When the timer fires before the operation's
    promise settles, the returned promise rejects with a plain [Error] whose
    message is [Operation timed out]: it carries no [code], is no
    [LicenseChainError], and [isRetryableError] does not classify it as
    retryable.  When the operation settles first, its result or failure is
    passed on unchanged.  In both cases later events change nothing. *)
Theorem withTimeout_race
    (r : Settled T) (later : list (LoopEvent T)) (timeoutMs : Z) :
  raced (withTimeout (TimerFires :: later) timeoutMs)
  = Done (Rejected (new_Error "Operation timed out"))
  /\ raced (withTimeout (OperationSettles r :: later) timeoutMs) = Done r
  /\ armed_delay (withTimeout (T := T) later timeoutMs) = timeoutMs
  /\ get_prop (new_Error "Operation timed out") "code" = Normal JUndefined
  /\ kind_of (new_Error "Operation timed out") = None
  /\ isRetryableError (new_Error "Operation timed out") = Normal false.
Proof.
  unfold withTimeout. simpl.
  rewrite !race_settled_once.
  repeat split; reflexivity.
Qed.

End TimeoutProperties.

(** C3, as stated, fails: the rejection of a timed-out operation is not a
    [LicenseChainError] of kind [TIMEOUT_ERROR]. *)
Lemma timeout_failure_has_no_kind :
  raced (withTimeout (T := string) [TimerFires] 5000)
  = Done (Rejected (new_Error "Operation timed out"))
  /\ kind_of (new_Error "Operation timed out") <> Some TIMEOUT_ERROR
  /\ ~ timeout_is_TimeoutError.
Proof.
  split; [reflexivity|]. split; [discriminate|].
  intros H. destruct (H [] 5000) as [e [Hrace Hkind]].
  vm_compute in Hrace. injection Hrace as <-. discriminate.
Qed.

(* ================================================================== *)
(** * Properties of network resolution                                 *)
(* ================================================================== *)

Lemma custom_is_not_configured (rpcUrl : option string) :
  lookup "custom" (configs rpcUrl) = None.
Proof. reflexivity. Qed.

Lemma lookup_unconfigured (network : string) (rpcUrl : option string) :
  existsb (String.eqb network) configured_networks = false ->
  lookup network (configs rpcUrl) = None.
Proof.
  unfold configured_networks, configs. simpl.
  intros H.
  repeat (destruct (String.eqb network _); [discriminate H|]).
  reflexivity.
Qed.

(** C4, as the code has it.  Resolution of ["custom"] throws whenever the
    endpoint or the chain id is absent, and resolution throws for every name
    that is neither configured, nor ["custom"], nor the name of a member
    inherited from [Object.prototype].  What is thrown is a plain [Error]
    with the message [Unsupported network: <name>]; it is not a
    [LicenseChainError] and has no kind. *)
Theorem getNetworkConfig_unsupported
    (network : string) (rpcUrl : option string) (chainId : option Z) :
  (network = "custom" /\ (rpcUrl = None \/ chainId = None))
  \/ (recognized network = false /\ inherited_name network = false) ->
  getNetworkConfig network rpcUrl chainId
  = Throw (new_Error ("Unsupported network: " ++ network))
  /\ kind_of (new_Error ("Unsupported network: " ++ network)) = None
  /\ is_LicenseChainError (new_Error ("Unsupported network: " ++ network)) = false.
Proof.
  intros H. split; [|split; reflexivity].
  destruct H as [[-> Habsent] | [Hrec Hinh]].
  - destruct Habsent as [-> | ->].
    + destruct chainId; reflexivity.
    + destruct rpcUrl; reflexivity.
  - unfold recognized in Hrec. apply orb_false_iff in Hrec as [Hcustom Hconf].
    unfold getNetworkConfig. rewrite Hcustom.
    rewrite (lookup_unconfigured _ _ Hconf).
    unfold inherited_name in Hinh. now rewrite Hinh.
Qed.

Lemma getNetworkConfig_unsupported_witness :
  (("custom" = "custom" /\ (Some "https://rpc.example" = None \/ @None Z = None))
   \/ (recognized "custom" = false /\ inherited_name "custom" = false))
  /\ getNetworkConfig "custom" (Some "https://rpc.example") None
     = Throw (new_Error "Unsupported network: custom").
Proof.
  assert (H : ("custom" = "custom"
               /\ (Some "https://rpc.example" = None \/ @None Z = None))
              \/ (recognized "custom" = false /\ inherited_name "custom" = false)).
  { left. split; [reflexivity | right; reflexivity]. }
  split; [exact H|].
  exact (proj1 (getNetworkConfig_unsupported "custom" (Some "https://rpc.example") None H)).
Defined.

(** C4, as stated, fails: a custom network without endpoint and chain id is
    refused with a plain [Error], which has no [INVALID_NETWORK] kind. *)
Lemma custom_network_error_is_not_InvalidNetwork :
  getNetworkConfig "custom" None None
  = Throw (new_Error "Unsupported network: custom")
  /\ kind_of (new_Error "Unsupported network: custom") <> Some INVALID_NETWORK
  /\ ~ fails_with_InvalidNetwork.
Proof.
  split; [reflexivity|]. split; [discriminate|].
  intros H.
  destruct (H "custom" None None) as [e [Hthrow Hkind]].
  - left. split; [reflexivity | left; reflexivity].
  - vm_compute in Hthrow. injection Hthrow as <-. discriminate.
Qed.

(** The configured networks resolve to their chain ids, and an explicit
    endpoint replaces the default one. *)
Example getNetworkConfig_chain_ids :
  getNetworkConfig "mainnet" None None
  = Normal (Resolved {| nc_chainId := 1;
                        nc_rpcUrl := "https://eth-mainnet.g.alchemy.com/v2/YOUR_KEY";
                        nc_explorerUrl := "https://etherscan.io";
                        nc_name := "Ethereum Mainnet" |})
  /\ getNetworkConfig "polygon" (Some "https://rpc.example") None
     = Normal (Resolved {| nc_chainId := 137;
                           nc_rpcUrl := "https://rpc.example";
                           nc_explorerUrl := "https://polygonscan.com";
                           nc_name := "Polygon Mainnet" |})
  /\ getNetworkConfig "custom" (Some "https://rpc.example") (Some 31337)
     = Normal (Resolved {| nc_chainId := 31337;
                           nc_rpcUrl := "https://rpc.example";
                           nc_explorerUrl := "https://etherscan.io";
                           nc_name := "Custom Network" |}).
Proof. repeat split. Qed.

(** A name inherited from [Object.prototype] is not refused: the lookup
    finds the inherited member and hands it back. *)
Example getNetworkConfig_inherited_member :
  getNetworkConfig "constructor" None None = Normal (Inherited "constructor").
Proof. reflexivity. Qed.

(* ================================================================== *)
(** * Properties of error normalisation                                *)
(* ================================================================== *)

Lemma kind_of_new (code : ErrorCodes) (message : string) (details : JsValue) :
  kind_of (new_LicenseChainError code message details) = Some code.
Proof. destruct code; reflexivity. Qed.

Lemma original_cause_new (code : ErrorCodes) (message : string) (cause : JsValue) :
  original_cause (new_LicenseChainError code message (original_error_details cause))
  = Some cause.
Proof. reflexivity. Qed.

Lemma get_prop_total (cause : JsValue) (name : string) :
  has_properties cause = true -> exists v, get_prop cause name = Normal v.
Proof.
  destruct cause; simpl; try discriminate; intros _; eauto.
  destruct (lookup name props); eauto.
Qed.

Lemma fromEthersError_kind (cause code : JsValue) :
  get_prop cause "code" = Normal code ->
  exists e,
    fromEthersError cause = Normal e
    /\ kind_of e = Some (ethers_kind code)
    /\ original_cause e = Some cause
    /\ is_LicenseChainError e = true.
Proof.
  intros Hcode.
  assert (Hprops : has_properties cause = true)
    by (destruct cause; simpl in *; congruence).
  destruct (get_prop_total cause "message" Hprops) as [m Hm].
  unfold fromEthersError. rewrite Hcode, Hm.
  destruct code as [| |b|n|[|?| |? ? ?]|s|items|cls props];
    try (eexists; repeat split; reflexivity).
  unfold strict_eq_str, ethers_kind, ethers_table, lookup.
  rewrite !(String.eqb_sym s).
  repeat match goal with
         | |- context [String.eqb ?k s] =>
             destruct (String.eqb k s);
             [eexists; repeat split; reflexivity|]
         end.
  eexists; repeat split; reflexivity.
Qed.

Lemma fromRpcError_kind (cause code : JsValue) :
  get_prop cause "code" = Normal code ->
  exists e,
    fromRpcError cause = Normal e
    /\ kind_of e = Some (rpc_kind code)
    /\ original_cause e = Some cause
    /\ is_LicenseChainError e = true.
Proof.
  intros Hcode.
  assert (Hprops : has_properties cause = true)
    by (destruct cause; simpl in *; congruence).
  destruct (get_prop_total cause "message" Hprops) as [m Hm].
  unfold fromRpcError. rewrite Hcode, Hm.
  destruct code as [| |b|n|[|?| |? ? ?]|s|items|cls props];
    try (eexists; repeat split; reflexivity).
  unfold strict_eq_num, rpc_kind, rpc_table, find, fst, snd.
  rewrite !(Z.eqb_sym n).
  repeat match goal with
         | |- context [Z.eqb ?k n] =>
             destruct (Z.eqb k n);
             [eexists; repeat split; reflexivity|]
         end.
  eexists; repeat split; reflexivity.
Qed.



(** The kinds of the tables, entry by entry. *)
Example normalizer_tables :
  ethers_kind (JStr "INSUFFICIENT_FUNDS") = INSUFFICIENT_FUNDS
  /\ ethers_kind (JStr "UNPREDICTABLE_GAS_LIMIT") = GAS_ESTIMATION_FAILED
  /\ ethers_kind (JStr "CALL_EXCEPTION") = TRANSACTION_REVERTED
  /\ ethers_kind (JStr "NETWORK_ERROR") = NETWORK_ERROR
  /\ ethers_kind (JNum (-32602)) = UNKNOWN_ERROR
  /\ ethers_kind (JNum (-32603)) = UNKNOWN_ERROR
  /\ ethers_kind JUndefined = UNKNOWN_ERROR
  /\ rpc_kind (JNum (-32602)) = VALIDATION_ERROR
  /\ rpc_kind (JNum (-32603)) = RPC_ERROR
  /\ rpc_kind (JNum (-32000)) = TRANSACTION_FAILED
  /\ rpc_kind (JStr "CALL_EXCEPTION") = RPC_ERROR
  /\ rpc_kind JUndefined = RPC_ERROR.
Proof. repeat split. Qed.

(** Neither normaliser is defined on [undefined] or [null]: reading [code]
    throws before any error is built. *)
Example normalizers_throw_on_undefined :
  fromEthersError JUndefined = Throw (TypeError_read "code" JUndefined)
  /\ fromRpcError JNull = Throw (TypeError_read "code" JNull).
Proof. split; reflexivity. Qed.


(* ================================================================== *)
(** * Properties of the contract facade                                *)
(* ================================================================== *)

Section FacadeProperties.

Context {W : Type}.
Variable send : ContractCall -> Overrides -> W -> Settled TransactionResponse * W.
Variable wait : TransactionResponse -> option Z -> W -> Settled TransactionReceipt * W.
Variable ethers_id : string -> string.

(** What a caught failure becomes: always a rejection, in the same state. *)
Lemma rethrow_rejects (A : Type) (error : JsValue) (st : Run W) :
  exists e, rethrow_normalized (A := A) error st = (Rejected e, st).
Proof.
  unfold rethrow_normalized.
  destruct (fromEthersError error); eexists; reflexivity.
Qed.

(** Every mutating method is the same three steps: send with the configured
    gas overrides, wait without a depth argument, and answer [confirmed];
    a failure of either step is normalised and rethrown. *)
Lemma run_mutation_steps (config : EthereumConfig) (m : Mutation) (st : Run W) :
  run_mutation send wait ethers_id config m st
  = match send (call_of ethers_id m) (config_overrides config) (world st) with
    | (Rejected e, w1) =>
        rethrow_normalized e
          {| world := w1;
             trace := EvSend (call_of ethers_id m) (config_overrides config)
                      :: trace st |}
    | (Fulfilled tx, w1) =>
        match wait tx None w1 with
        | (Rejected e, w2) =>
            rethrow_normalized e
              {| world := w2;
                 trace := EvWait (tx_hash tx) None
                          :: EvSend (call_of ethers_id m) (config_overrides config)
                          :: trace st |}
        | (Fulfilled receipt, w2) =>
            (Fulfilled {| tr_hash := tx_hash tx;
                          tr_blockNumber := r_blockNumber receipt;
                          tr_gasUsed := dec (r_gasUsed receipt);
                          tr_status := confirmed |},
             {| world := w2;
                trace := EvWait (tx_hash tx) None
                         :: EvSend (call_of ethers_id m) (config_overrides config)
                         :: trace st |})
        end
    end.
Proof.
  destruct m; simpl;
    unfold mintLicense, transferLicense, revokeLicense, batchMintLicenses,
           grantRole, revokeRole, pause, unpause,
           try_catch, bind, contract_send, tx_wait, request, ret;
    simpl;
    match goal with
    | |- context [send ?c ?o ?w] => destruct (send c o w) as [[tx|e] w1]
    end; simpl; try reflexivity;
    destruct (wait tx None w1) as [[receipt|e] w2]; reflexivity.
Qed.

(** C9. When sending and waiting both resolve, every mutating method
    answers with status [confirmed], whatever the receipt's own status
    says; a receipt whose status is not 1 would be reported [failed] by
    [parseTransactionReceipt], which no method calls.  No run of a mutating
    method yields [pending] or [failed]. *)
Theorem mutation_always_confirmed
    (config : EthereumConfig) (m : Mutation) (st : Run W) (tx : TransactionResponse)
    (receipt : TransactionReceipt) (w1 w2 : W) :
  send (call_of ethers_id m) (config_overrides config) (world st) = (Fulfilled tx, w1) ->
  wait tx None w1 = (Fulfilled receipt, w2) ->
  (exists st',
     run_mutation send wait ethers_id config m st
     = (Fulfilled {| tr_hash := tx_hash tx;
                     tr_blockNumber := r_blockNumber receipt;
                     tr_gasUsed := dec (r_gasUsed receipt);
                     tr_status := confirmed |}, st'))
  /\ (r_status receipt <> Some 1 ->
      pr_status (parseTransactionReceipt receipt) = failed)
  /\ (forall m' st0 r st1,
        run_mutation send wait ethers_id config m' st0 = (Fulfilled r, st1) ->
        tr_status r = confirmed).
Proof.
  intros Hsend Hwait. split; [|split].
  - rewrite run_mutation_steps, Hsend, Hwait. eexists. reflexivity.
  - unfold parseTransactionReceipt. simpl.
    destruct (r_status receipt) as [[|[p|p|]|p]|]; try reflexivity.
    intros H. now contradiction H.
  - clear Hsend Hwait. intros m' st0 r st1. rewrite run_mutation_steps.
    destruct (send _ _ _) as [[tx'|e] w1'].
    + destruct (wait _ _ _) as [[receipt'|e] w2'].
      * intros H. injection H as <- _. reflexivity.
      * destruct (rethrow_rejects TransactionResult e
                    {| world := w2';
                       trace := EvWait (tx_hash tx') None
                                :: EvSend (call_of ethers_id m') (config_overrides config)
                                :: trace st0 |}) as [e' ->].
        discriminate.
    + destruct (rethrow_rejects TransactionResult e
                  {| world := w1';
                     trace := EvSend (call_of ethers_id m') (config_overrides config)
                              :: trace st0 |}) as [e' ->].
      discriminate.
Qed.

(** C1, as the code has it.  A mutating method answers [confirmed], never
    [pending], and only after the transaction was sent and [tx.wait()]
    resolved with a receipt for it: the result reports the hash of the sent
    transaction and the block and gas of that receipt.  The wait is
    requested without a depth, so the client library's default of one
    confirmation applies.  The [confirmations] field of the configuration is
    not consulted: changing it changes nothing. *)
Theorem mutation_waits_default_depth
    (config : EthereumConfig) (m : Mutation) (st st' : Run W) (r : TransactionResult) :
  run_mutation send wait ethers_id config m st = (Fulfilled r, st') ->
  tr_status r = confirmed
  /\ tr_status r <> pending
  /\ (exists tx receipt w1,
        send (call_of ethers_id m) (config_overrides config) (world st)
        = (Fulfilled tx, w1)
        /\ wait tx None w1 = (Fulfilled receipt, world st')
        /\ tr_hash r = tx_hash tx
        /\ tr_blockNumber r = r_blockNumber receipt
        /\ tr_gasUsed r = dec (r_gasUsed receipt))
  /\ trace st' = EvWait (tr_hash r) None
                 :: EvSend (call_of ethers_id m) (config_overrides config)
                 :: trace st
  /\ wait_depth None = 1
  /\ (forall c,
        run_mutation send wait ethers_id (with_confirmations c config) m st
        = run_mutation send wait ethers_id config m st).
Proof.
  intros Hrun.
  assert (Hindep : forall c,
             run_mutation send wait ethers_id (with_confirmations c config) m st
             = run_mutation send wait ethers_id config m st).
  { intros c. rewrite !run_mutation_steps. reflexivity. }
  rewrite run_mutation_steps in Hrun.
  destruct (send _ _ _) as [[tx|e] w1] eqn:Hsend.
  - destruct (wait _ _ _) as [[receipt|e] w2] eqn:Hwait.
    + injection Hrun as <- <-. cbn [tr_status tr_hash tr_blockNumber tr_gasUsed world trace].
      split; [reflexivity|]. split; [discriminate|].
      split; [exists tx, receipt, w1; repeat split; exact Hwait|].
      split; [reflexivity|]. split; [reflexivity | exact Hindep].
    + destruct (rethrow_rejects TransactionResult e
                  {| world := w2;
                     trace := EvWait (tx_hash tx) None
                              :: EvSend (call_of ethers_id m) (config_overrides config)
                              :: trace st |}) as [e' He].
      rewrite He in Hrun. discriminate.
  - destruct (rethrow_rejects TransactionResult e
                {| world := w1;
                   trace := EvSend (call_of ethers_id m) (config_overrides config)
                            :: trace st |}) as [e' He].
    rewrite He in Hrun. discriminate.
Qed.

End FacadeProperties.

Lemma mutation_always_confirmed_witness :
  stub_send (call_of stub_id (MintLicense sample_mint)) (config_overrides sample_config)
            (world (start tt))
  = (Fulfilled {| tx_hash := "0xfeed" |}, tt)
  /\ stub_wait {| tx_hash := "0xfeed" |} None tt
     = (Fulfilled {| r_hash := "0xfeed"; r_blockNumber := 100; r_gasUsed := 21000;
                     r_status := Some 0; r_logs := [] |}, tt)
  /\ (exists st',
        run_mutation stub_send stub_wait stub_id sample_config
                     (MintLicense sample_mint) (start tt)
        = (Fulfilled {| tr_hash := "0xfeed"; tr_blockNumber := 100;
                        tr_gasUsed := "21000"; tr_status := confirmed |}, st')).
Proof.
  split; [reflexivity|]. split; [reflexivity|].
  exact (proj1 (mutation_always_confirmed stub_send stub_wait stub_id sample_config
                  (MintLicense sample_mint) (start tt)
                  {| tx_hash := "0xfeed" |}
                  {| r_hash := "0xfeed"; r_blockNumber := 100; r_gasUsed := 21000;
                     r_status := Some 0; r_logs := [] |}
                  tt tt eq_refl eq_refl)).
Defined.

Lemma mutation_waits_default_depth_witness :
  run_mutation stub_send stub_wait stub_id sample_config (Pause) (start tt)
  = (Fulfilled {| tr_hash := "0xfeed"; tr_blockNumber := 100;
                  tr_gasUsed := "21000"; tr_status := confirmed |},
     {| world := tt;
        trace := [EvWait "0xfeed" None;
                  EvSend CallPause (config_overrides sample_config)] |})
  /\ exists tx receipt w1,
       stub_send (call_of stub_id Pause) (config_overrides sample_config)
                 (world (start tt))
       = (Fulfilled tx, w1)
       /\ stub_wait tx None w1 = (Fulfilled receipt, tt)
       /\ "0xfeed" = tx_hash tx
       /\ 100 = r_blockNumber receipt
       /\ "21000" = dec (r_gasUsed receipt).
Proof.
  split; [reflexivity|].
  exact (proj1 (proj2 (proj2
           (mutation_waits_default_depth stub_send stub_wait stub_id sample_config
              Pause (start tt)
              {| world := tt;
                 trace := [EvWait "0xfeed" None;
                           EvSend CallPause (config_overrides sample_config)] |}
              {| tr_hash := "0xfeed"; tr_blockNumber := 100;
                 tr_gasUsed := "21000"; tr_status := confirmed |}
              eq_refl)))).
Defined.

(** C1, as stated, fails: with three confirmations configured, [mintLicense]
    answers [confirmed] after a single wait that names no depth, that is,
    after one confirmation. *)
Lemma confirmed_without_configured_depth :
  confirmations sample_config = Some 3
  /\ run_mutation stub_send stub_wait stub_id sample_config
                  (MintLicense sample_mint) (start tt)
     = (Fulfilled {| tr_hash := "0xfeed"; tr_blockNumber := 100;
                     tr_gasUsed := "21000"; tr_status := confirmed |},
        {| world := tt;
           trace := [EvWait "0xfeed" None;
                     EvSend (call_of stub_id (MintLicense sample_mint))
                            (config_overrides sample_config)] |})
  /\ wait_depth None <> 3
  /\ ~ confirmed_after_configured_depth.
Proof.
  split; [reflexivity|]. split; [reflexivity|]. split; [discriminate|].
  intros H.
  destruct (H unit stub_send stub_wait stub_id sample_config
              (MintLicense sample_mint) (start tt) _ _ 3 eq_refl eq_refl)
    as [_ [c [Hin Hdepth]]].
  simpl in Hin. destruct Hin as [Hev | [Hev | []]].
  - injection Hev as <-. discriminate Hdepth.
  - discriminate Hev.
Qed.

(* ================================================================== *)
(** * Properties of gas estimation                                     *)
(* ================================================================== *)

(** A non-negative integer prints as decimal digits only. *)
Lemma dec_is_decimal_integer (n : Z) :
  0 <= n -> is_decimal_integer (dec n) = true.
Proof.
  intros Hn. unfold dec.
  destruct n as [|p|p]; [reflexivity| |lia].
  simpl. unfold NilZero.string_of_uint.
  pose proof (all_digits_uint (Pos.to_uint p)) as Hall.
  destruct (Pos.to_uint p); try reflexivity; exact Hall.
Qed.

(** A text with a decimal point is no decimal integer. *)
Lemma point_is_no_digit (a b : string) :
  all_digits (a ++ String "." b) = false.
Proof.
  induction a as [|c a IH]; simpl; [reflexivity|].
  rewrite IH. apply andb_false_r.
Qed.

Lemma formatUnits_has_point (value : Z) (decimals : nat) :
  is_decimal_integer (formatUnits value decimals) = false.
Proof.
  unfold formatUnits.
  set (fraction := match drop_trailing_zeros _ with
                   | EmptyString => "0"
                   | String a s => String a s
                   end).
  set (whole := dec _).
  replace ((if value <? 0 then "-" else EmptyString) ++ whole ++ "." ++ fraction)
    with (((if value <? 0 then "-" else EmptyString) ++ whole) ++ String "." fraction).
  - pose proof (point_is_no_digit ((if value <? 0 then "-" else EmptyString) ++ whole)
                                  fraction) as H.
    unfold is_decimal_integer.
    destruct (_ ++ String "." fraction); [reflexivity | exact H].
  - destruct (value <? 0); simpl; [f_equal|];
      generalize whole; intros s; induction s as [|c s IH]; simpl; congruence.
Qed.

Section GasProperties.

Context {W : Type}.
Variable estimateGas : ContractCall -> W -> Settled Z * W.
Variable getFeeData : W -> Settled FeeData * W.

(** [formatEther] on a few amounts of wei. *)
Example formatEther_samples :
  formatEther (10 ^ 18) = "1.0"
  /\ formatEther (15 * 10 ^ 17) = "1.5"
  /\ formatEther 0 = "0.0"
  /\ formatEther 42 = "0.000000000000000042"
  /\ formatEther (21000 * (20 * 10 ^ 9)) = "0.00042".
Proof. vm_compute. repeat split. Qed.

(** C6, as the code has it.  When the gas estimate and the fee data are
    obtained, [estimateGasMintLicense] answers with [gasLimit] and [gasPrice]
    as decimal integers in wei, and with [totalCost] as their product
    converted to ether by [formatEther]: a decimal fraction with a decimal
    point, not an integer amount of wei. *)
Theorem estimate_total_cost_in_ether
    (options : MintOptions) (st : Run W) (limit : Z) (fd : FeeData) (w1 w2 : W) :
  estimateGas (mint_call options) (world st) = (Fulfilled limit, w1) ->
  getFeeData w1 = (Fulfilled fd, w2) ->
  0 <= limit ->
  0 <= effective_gas_price fd ->
  exists g st',
    estimateGasMintLicense estimateGas getFeeData options st = (Fulfilled g, st')
    /\ ge_gasLimit g = dec limit
    /\ ge_gasPrice g = dec (effective_gas_price fd)
    /\ ge_totalCost g = formatEther (limit * effective_gas_price fd)
    /\ is_decimal_integer (ge_gasLimit g) = true
    /\ is_decimal_integer (ge_gasPrice g) = true
    /\ is_decimal_integer (ge_totalCost g) = false.
Proof.
  intros Hest Hfee Hlimit Hprice.
  unfold estimateGasMintLicense, try_catch, bind, request, ret.
  unfold mint_call in Hest. cbv zeta.
  rewrite Hest. cbn [world trace]. rewrite Hfee.
  do 2 eexists. split; [reflexivity|].
  cbn [ge_gasLimit ge_gasPrice ge_totalCost].
  fold (effective_gas_price fd).
  repeat split.
  - now apply dec_is_decimal_integer.
  - now apply dec_is_decimal_integer.
  - apply formatUnits_has_point.
Qed.

End GasProperties.

Lemma estimate_total_cost_in_ether_witness :
  stub_estimateGas (mint_call sample_mint) (world (start tt)) = (Fulfilled 21000, tt)
  /\ stub_getFeeData tt
     = (Fulfilled {| fd_gasPrice := Some (20 * 10 ^ 9);
                     fd_maxFeePerGas := None;
                     fd_maxPriorityFeePerGas := None |}, tt)
  /\ exists g st',
       estimateGasMintLicense stub_estimateGas stub_getFeeData sample_mint (start tt)
       = (Fulfilled g, st')
       /\ ge_gasLimit g = dec 21000
       /\ ge_gasPrice g = dec (20 * 10 ^ 9)
       /\ ge_totalCost g = formatEther (21000 * (20 * 10 ^ 9))
       /\ is_decimal_integer (ge_gasLimit g) = true
       /\ is_decimal_integer (ge_gasPrice g) = true
       /\ is_decimal_integer (ge_totalCost g) = false.
Proof.
  split; [reflexivity|]. split; [reflexivity|].
  apply (estimate_total_cost_in_ether stub_estimateGas stub_getFeeData sample_mint
           (start tt) 21000
           {| fd_gasPrice := Some (20 * 10 ^ 9);
              fd_maxFeePerGas := None;
              fd_maxPriorityFeePerGas := None |} tt tt);
    [reflexivity | reflexivity | lia | vm_compute; discriminate].
Defined.

(** C6, as stated, fails: for 21000 gas at 20 gwei the product is
    420000000000000 wei, and [totalCost] is the ether amount [0.00042]. *)
Lemma total_cost_is_not_wei :
  estimateGasMintLicense stub_estimateGas stub_getFeeData sample_mint (start tt)
  = (Fulfilled sample_estimate,
     {| world := tt;
        trace := [EvGetFeeData; EvEstimateGas (mint_call sample_mint)] |})
  /\ ge_totalCost sample_estimate = "0.00042"
  /\ dec (21000 * 20000000000) = "420000000000000"
  /\ ~ total_cost_in_wei.
Proof.
  assert (Hrun :
    estimateGasMintLicense stub_estimateGas stub_getFeeData sample_mint (start tt)
    = (Fulfilled sample_estimate,
       {| world := tt;
          trace := [EvGetFeeData; EvEstimateGas (mint_call sample_mint)] |}))
    by (vm_compute; reflexivity).
  split; [exact Hrun|]. split; [reflexivity|].
  split; [vm_compute; reflexivity|].
  intros H.
  destruct (H unit stub_estimateGas stub_getFeeData sample_mint (start tt) _ _ Hrun)
    as [Hint _].
  vm_compute in Hint. discriminate Hint.
Qed.

(* ================================================================== *)
(** * Properties of the JSON round trip                                *)
(* ================================================================== *)

(** ** Strings *)

(** Reading back one quoted character gives the character. *)
Lemma parse_quoted_char (c : ascii) (tail : string) :
  parse_string_body (quote_char c ++ tail) = cons_char c (parse_string_body tail).
Proof.
  destruct c as [[] [] [] [] [] [] [] []]; reflexivity.
Qed.

Lemma parse_quoted_body (s rest : string) :
  parse_string_body (quote_body s ++ String dquote rest) = Some (s, rest).
Proof.
  induction s as [|c s IH].
  - reflexivity.
  - cbn [quote_body]. rewrite append_assoc, parse_quoted_char, IH. reflexivity.
Qed.

(** ** Numbers *)

(** ** Values *)

Lemma parse_value_S (fuel : nat) (s : string) :
  parse_value (S fuel) s
  = match skip_ws s with
    | EmptyString => None
    | String c r =>
        if Ascii.eqb c dquote then
          match parse_string_body r with
          | Some (t, r') => Some (JStr t, r')
          | None => None
          end
        else if Ascii.eqb c "[" then
          match skip_ws r with
          | String "]" r' => Some (JArr [], r')
          | _ =>
              match parse_elements fuel r with
              | Some (items, r') => Some (JArr items, r')
              | None => None
              end
          end
        else if Ascii.eqb c "{" then
          match skip_ws r with
          | String "}" r' => Some (JObj ClsPlain [], r')
          | _ =>
              match parse_members fuel r with
              | Some (members, r') => Some (object_of_members members, r')
              | None => None
              end
          end
        else if Ascii.eqb c "n" then expect "null" (String c r) JNull
        else if Ascii.eqb c "t" then expect "true" (String c r) (JBool true)
        else if Ascii.eqb c "f" then expect "false" (String c r) (JBool false)
        else
          match parse_number (String c r) with
          | Some (n, r') => Some (number_value n, r')
          | None => None
          end
    end.
Proof. reflexivity. Qed.

Lemma parse_elements_S (fuel : nat) (s : string) :
  parse_elements (S fuel) s
  = match parse_value fuel s with
    | None => None
    | Some (v, r) =>
        match skip_ws r with
        | String c r' =>
            if Ascii.eqb c "," then
              match parse_elements fuel r' with
              | Some (vs, r'') => Some (v :: vs, r'')
              | None => None
              end
            else if Ascii.eqb c "]" then Some ([v], r')
            else None
        | EmptyString => None
        end
    end.
Proof. reflexivity. Qed.

Lemma parse_members_S (fuel : nat) (s : string) :
  parse_members (S fuel) s
  = match skip_ws s with
    | String c r =>
        if Ascii.eqb c dquote then
          match parse_string_body r with
          | None => None
          | Some (k, r1) =>
              match skip_ws r1 with
              | String c1 r2 =>
                  if Ascii.eqb c1 ":" then
                    match parse_value fuel r2 with
                    | None => None
                    | Some (v, r3) =>
                        match skip_ws r3 with
                        | String c3 r4 =>
                            if Ascii.eqb c3 "," then
                              match parse_members fuel r4 with
                              | Some (ms, r5) => Some ((k, v) :: ms, r5)
                              | None => None
                              end
                            else if Ascii.eqb c3 "}" then Some ([(k, v)], r4)
                            else None
                        | EmptyString => None
                        end
                    end
                  else None
              | EmptyString => None
              end
          end
        else None
    | EmptyString => None
    end.
Proof. reflexivity. Qed.

Lemma skip_ws_start (c : ascii) (r : string) :
  is_ws c = false -> skip_ws (String c r) = String c r.
Proof. intros H. simpl. now rewrite H. Qed.

Lemma value_start_facts (c : ascii) :
  value_start c = true ->
  is_ws c = false /\ Ascii.eqb c "]" = false /\ Ascii.eqb c "}" = false
  /\ Ascii.eqb c "," = false.
Proof.
  destruct c as [[] [] [] [] [] [] [] []]; intros H;
    try discriminate H; repeat split; reflexivity.
Qed.

Lemma parse_value_number (fuel : nat) (c : ascii) (r : string) :
  number_start c = true ->
  parse_value (S fuel) (String c r)
  = match parse_number (String c r) with
    | Some (n, r') => Some (number_value n, r')
    | None => None
    end.
Proof.
  intros H. rewrite parse_value_S.
  destruct c as [[] [] [] [] [] [] [] []]; try discriminate H; reflexivity.
Qed.

Lemma dec_start (n : Z) :
  exists c r, dec n = String c r /\ number_start c = true.
Proof.
  unfold dec. destruct n as [|p|p]; cbn [Z.to_int NilZero.string_of_int].
  - do 2 eexists. split; reflexivity.
  - pose proof (to_uint_leading_digit p) as H.
    destruct (Pos.to_uint p); try contradiction;
      do 2 eexists; split; reflexivity.
  - do 2 eexists. split; reflexivity.
Qed.

Lemma double_start (negative : bool) (m : positive) (e : Z) :
  proper (DFinite negative m e) = true ->
  exists c r,
    double_to_string (DFinite negative m e) = String c r /\ number_start c = true.
Proof.
  intros Hproper. cbn [proper] in Hproper.
  apply andb_true_iff in Hproper as [Hproper _].
  apply andb_true_iff in Hproper as [Hodd Hrep].
  pose proof (digits_of_ok m e Hodd Hrep) as Hok.
  cbn [double_to_string]. destruct (digits_of m e) as [s n]. cbn [fst snd] in Hok.
  destruct negative; [do 2 eexists; split; reflexivity|].
  assert (Hs : 0 < s).
  { unfold digits_ok in Hok. apply andb_true_iff in Hok as [Hs _].
    now apply Z.ltb_lt in Hs. }
  destruct (layout_start s n Hs) as [c [r [E Hc]]].
  exists c, r. cbn [append]. split; [exact E|].
  unfold number_start. now rewrite Hc, orb_true_r.
Qed.

Lemma serialize_some (v : JsValue) :
  json_value v = true -> serialize v = Some (item_text v).
Proof.
  unfold item_text.
  destruct v as [| |b|n|[|?| |? ? ?]|s|items|cls props];
    try discriminate; try reflexivity.
  destruct b; reflexivity.
Qed.

Lemma item_text_start (v : JsValue) :
  json_value v = true ->
  exists c r, item_text v = String c r /\ value_start c = true.
Proof.
  unfold item_text.
  destruct v as [| |b|n|[|?| |negative m e]|s|items|cls props];
    try discriminate; intros Hjson.
  - do 2 eexists. split; reflexivity.
  - destruct b; do 2 eexists; split; reflexivity.
  - destruct (dec_start n) as [c [r [E Hc]]].
    exists c, r. split; [exact E|].
    unfold value_start. rewrite Hc. now rewrite !orb_true_r.
  - destruct (double_start negative m e Hjson) as [c [r [E Hc]]].
    exists c, r. split; [exact E|].
    unfold value_start. rewrite Hc. now rewrite !orb_true_r.
  - do 2 eexists. split; reflexivity.
  - do 2 eexists. split; reflexivity.
  - do 2 eexists. split; reflexivity.
Qed.

Lemma join_cons (sep p q : string) (rest : list string) :
  join sep (p :: q :: rest) = p ++ sep ++ join sep (q :: rest).
Proof. reflexivity. Qed.

(** The items of a non-empty array, up to the closing bracket. *)
Lemma parse_elements_items (xs : list JsValue) :
  forall (x : JsValue) (fuel : nat) (rest : string),
    Forall round_trips (x :: xs) ->
    forallb json_value (x :: xs) = true ->
    (2 * String.length (join "," (map item_text (x :: xs))) + 1 <= fuel)%nat ->
    parse_elements fuel (join "," (map item_text (x :: xs)) ++ String "]" rest)
    = Some (x :: xs, rest).
Proof.
  induction xs as [|y ys IH]; intros x fuel rest Hall Hjson Hfuel.
  - inversion_clear Hall as [|? ? Hx _].
    cbn [forallb] in Hjson. rewrite andb_true_r in Hjson.
    cbn [map join fold_right] in Hfuel |- *.
    rewrite append_nil_r in Hfuel |- *.
    destruct fuel as [|f]; [lia|].
    rewrite parse_elements_S, (Hx Hjson f (String "]" rest)); [reflexivity | lia | reflexivity].
  - inversion_clear Hall as [|? ? Hx Hrest].
    cbn [forallb] in Hjson. apply andb_true_iff in Hjson as [Hjx Hjrest].
    cbn [map] in Hfuel |- *. rewrite join_cons in Hfuel |- *.
    rewrite !length_append in Hfuel. cbn [String.length] in Hfuel.
    rewrite !append_assoc. cbn [append].
    destruct fuel as [|f]; [lia|].
    rewrite parse_elements_S.
    rewrite (Hx Hjx f (String "," (join "," (item_text y :: map item_text ys)
                                   ++ String "]" rest))); [| lia | reflexivity].
    cbn [skip_ws is_ws]. change (is_ws ",") with false. cbv iota.
    change (Ascii.eqb "," ",") with true. cbv iota.
    change (item_text y :: map item_text ys) with (map item_text (y :: ys)).
    rewrite (IH y f rest Hrest Hjrest); [reflexivity|].
    cbn [map]. lia.
Qed.

Lemma member_text_shape (k : string) (v : JsValue) (tail : string) :
  member_text (k, v) ++ tail
  = String dquote (quote_body k ++ String dquote (String ":" (item_text v ++ tail))).
Proof.
  unfold member_text, quote. cbn [fst snd append].
  rewrite !append_assoc. reflexivity.
Qed.

Lemma member_text_length (k : string) (v : JsValue) :
  String.length (member_text (k, v))
  = (String.length (quote_body k) + String.length (item_text v) + 3)%nat.
Proof.
  rewrite <- (append_nil_r (member_text (k, v))), member_text_shape.
  cbn [String.length]. rewrite length_append. cbn [String.length].
  rewrite append_nil_r. lia.
Qed.

(** The members of a non-empty object, up to the closing brace. *)
Lemma parse_members_props (ps : list (string * JsValue)) :
  forall (p : string * JsValue) (fuel : nat) (rest : string),
    Forall (fun kv => round_trips (snd kv)) (p :: ps) ->
    forallb (fun kv => json_value (snd kv)) (p :: ps) = true ->
    (2 * String.length (join "," (map member_text (p :: ps))) + 1 <= fuel)%nat ->
    parse_members fuel (join "," (map member_text (p :: ps)) ++ String "}" rest)
    = Some (p :: ps, rest).
Proof.
  induction ps as [|q qs IH]; intros [k v] fuel rest Hall Hjson Hfuel.
  - inversion_clear Hall as [|? ? Hv _]. cbn [snd] in Hv.
    cbn [forallb snd] in Hjson. rewrite andb_true_r in Hjson.
    cbn [map join fold_right] in Hfuel |- *.
    rewrite append_nil_r in Hfuel |- *.
    rewrite member_text_length in Hfuel. rewrite member_text_shape.
    destruct fuel as [|f]; [lia|].
    rewrite parse_members_S.
    rewrite skip_ws_start by reflexivity.
    change (Ascii.eqb dquote dquote) with true. cbv iota.
    rewrite parse_quoted_body.
    rewrite skip_ws_start by reflexivity.
    change (Ascii.eqb ":" ":") with true. cbv iota.
    rewrite (Hv Hjson f (String "}" rest)); [reflexivity | lia | reflexivity].
  - inversion_clear Hall as [|? ? Hv Hrest]. cbn [snd] in Hv.
    cbn [forallb snd] in Hjson. apply andb_true_iff in Hjson as [Hjv Hjrest].
    cbn [map] in Hfuel |- *. rewrite join_cons in Hfuel |- *.
    rewrite length_append, member_text_length in Hfuel.
    rewrite length_append in Hfuel. cbn [String.length] in Hfuel.
    rewrite append_assoc, member_text_shape.
    destruct fuel as [|f]; [lia|].
    rewrite parse_members_S.
    rewrite skip_ws_start by reflexivity.
    change (Ascii.eqb dquote dquote) with true. cbv iota.
    rewrite parse_quoted_body.
    rewrite skip_ws_start by reflexivity.
    change (Ascii.eqb ":" ":") with true. cbv iota.
    rewrite append_assoc. cbn [append].
    rewrite (Hv Hjv f (String "," (join "," (member_text q :: map member_text qs)
                                   ++ String "}" rest))); [| lia | reflexivity].
    rewrite skip_ws_start by reflexivity.
    change (Ascii.eqb "," ",") with true. cbv iota.
    change (member_text q :: map member_text qs) with (map member_text (q :: qs)).
    rewrite (IH q f rest Hrest Hjrest); [reflexivity|].
    cbn [map]. lia.
Qed.

(** Setting a key that is not there yet appends it. *)
Lemma set_prop_fresh (k : string) (v : JsValue) (props : list (string * JsValue)) :
  existsb (String.eqb k) (map fst props) = false ->
  forallb (fun k' => negb (goes_before k k')) (map fst props) = true ->
  set_prop k v props = (props ++ [(k, v)])%list.
Proof.
  induction props as [|[k' v'] props IH]; simpl; [reflexivity|].
  intros H Hord. apply orb_false_iff in H as [Hk Hrest].
  apply andb_true_iff in Hord as [Hk' Hord]. apply negb_true_iff in Hk'.
  rewrite Hk, Hk', IH by assumption. reflexivity.
Qed.

Lemma distinct_snoc (keys : list string) (k : string) :
  distinct (keys ++ [k])%list = true ->
  distinct keys = true /\ existsb (String.eqb k) keys = false.
Proof.
  induction keys as [|k' keys IH]; simpl; [now split|].
  intros H. apply andb_true_iff in H as [Hk' Hrest].
  destruct (IH Hrest) as [Hd Hk]. rewrite Hd, Hk.
  rewrite existsb_app in Hk'. simpl in Hk'.
  rewrite orb_false_r in Hk'. apply negb_true_iff, orb_false_iff in Hk' as [H1 H2].
  rewrite H1, String.eqb_sym, H2. now split.
Qed.

Lemma ordered_snoc (keys : list string) (k : string) :
  ordered (keys ++ [k])%list = true ->
  forallb (fun k' => negb (goes_before k k')) keys = true.
Proof.
  induction keys as [|k' keys IH]; simpl; [reflexivity|].
  intros H. apply andb_true_iff in H as [Hk' Hrest].
  rewrite forallb_app in Hk'. apply andb_true_iff in Hk' as [_ Hk'].
  simpl in Hk'. rewrite andb_true_r in Hk'.
  now rewrite Hk', (IH Hrest).
Qed.

Lemma distinct_prefix (hd tl : list string) :
  distinct (hd ++ tl)%list = true -> distinct hd = true.
Proof.
  induction hd as [|x hd IH]; simpl; [reflexivity|].
  intros H. apply andb_true_iff in H as [Hx Hrest].
  rewrite (IH Hrest), andb_true_r.
  rewrite existsb_app in Hx. apply negb_true_iff, orb_false_iff in Hx as [Hx _].
  now rewrite Hx.
Qed.

Lemma ordered_prefix (hd tl : list string) :
  ordered (hd ++ tl)%list = true -> ordered hd = true.
Proof.
  induction hd as [|x hd IH]; simpl; [reflexivity|].
  intros H. apply andb_true_iff in H as [Hx Hrest].
  rewrite (IH Hrest), andb_true_r.
  rewrite forallb_app in Hx. now apply andb_true_iff in Hx as [Hx _].
Qed.

(** Members with pairwise distinct keys in the order of an object become the
    object's properties as they stand. *)
Lemma fold_set_prop_distinct (members acc : list (string * JsValue)) :
  distinct (map fst (acc ++ members)%list) = true ->
  ordered (map fst (acc ++ members)%list) = true ->
  fold_left (fun a kv => set_prop (fst kv) (snd kv) a) members acc
  = (acc ++ members)%list.
Proof.
  revert acc. induction members as [|[k v] members IH]; intros acc H Hord; simpl.
  - now rewrite app_nil_r.
  - replace (acc ++ (k, v) :: members)%list
      with ((acc ++ [(k, v)]) ++ members)%list in *
      by (now rewrite <- app_assoc).
    rewrite map_app in H, Hord.
    pose proof (distinct_prefix _ _ H) as Hpre.
    pose proof (ordered_prefix _ _ Hord) as Hopre.
    rewrite map_app in Hpre, Hopre. simpl in Hpre, Hopre.
    rewrite set_prop_fresh.
    + apply IH; now rewrite map_app.
    + now apply distinct_snoc in Hpre as [_ Hfresh].
    + now apply ordered_snoc.
Qed.

Lemma object_of_distinct_members (props : list (string * JsValue)) :
  distinct (map fst props) = true ->
  ordered (map fst props) = true ->
  object_of_members props = JObj ClsPlain props.
Proof.
  intros H Hord. unfold object_of_members.
  now rewrite (fold_set_prop_distinct props [] H Hord).
Qed.

Lemma members_texts (props : list (string * JsValue)) :
  forallb (fun kv => json_value (snd kv)) props = true ->
  List.concat
    (map (fun kv =>
            if enumerable ClsPlain (fst kv) then
              match serialize (snd kv) with
              | Some t => [quote (fst kv) ++ ":" ++ t]
              | None => []
              end
            else []) props)
  = map member_text props.
Proof.
  induction props as [|[k v] props IH]; [reflexivity|].
  cbn [forallb map List.concat fst snd].
  intros H. apply andb_true_iff in H as [Hv Hrest].
  rewrite (IH Hrest), (serialize_some v Hv). reflexivity.
Qed.

Lemma item_text_array (items : list JsValue) :
  item_text (JArr items) = String "[" (join "," (map item_text items) ++ "]").
Proof. reflexivity. Qed.

Lemma item_text_object (props : list (string * JsValue)) :
  forallb (fun kv => json_value (snd kv)) props = true ->
  item_text (JObj ClsPlain props)
  = String "{" (join "," (map member_text props) ++ "}").
Proof.
  intros H. unfold item_text.
  change (serialize (JObj ClsPlain props))
    with (Some ("{" ++ join ","
                         (List.concat
                            (map (fun kv =>
                                    if enumerable ClsPlain (fst kv) then
                                      match serialize (snd kv) with
                                      | Some t => [quote (fst kv) ++ ":" ++ t]
                                      | None => []
                                      end
                                    else []) props))
                    ++ "}")).
  rewrite (members_texts props H). reflexivity.
Qed.

(** Every JSON value is read back from its serialisation. *)
Lemma json_value_round_trips (v : JsValue) : round_trips v.
Proof.
  induction v as [| |b|n|x|s|items IH|cls props IH] using JsValue_nested_ind;
    intros Hjson fuel rest Hfuel Hrest.
  - discriminate Hjson.
  - destruct fuel as [|f]; [cbn in Hfuel; lia | reflexivity].
  - destruct fuel as [|f]; [destruct b; cbn in Hfuel; lia | destruct b; reflexivity].
  - destruct (dec_start n) as [c [r [E Hc]]].
    change (item_text (JNum n)) with (dec n) in *.
    destruct fuel as [|f]; [rewrite E in Hfuel; cbn in Hfuel; lia|].
    pose proof (parse_number_safe n rest Hjson Hrest) as Hnum.
    rewrite E in Hnum |- *. cbn [append] in Hnum |- *.
    now rewrite (parse_value_number f c _ Hc), Hnum.
  - destruct x as [| | |negative m e]; try discriminate Hjson.
    destruct (double_start negative m e Hjson) as [c [r [E Hc]]].
    change (item_text (JDouble (DFinite negative m e)))
      with (double_to_string (DFinite negative m e)) in *.
    destruct fuel as [|f]; [rewrite E in Hfuel; cbn in Hfuel; lia|].
    pose proof (parse_number_double negative m e rest Hjson Hrest) as Hnum.
    rewrite E in Hnum |- *. cbn [append] in Hnum |- *.
    now rewrite (parse_value_number f c _ Hc), Hnum.
  - change (item_text (JStr s)) with (quote s) in *.
    unfold quote in Hfuel |- *. cbn [append].
    destruct fuel as [|f]; [cbn in Hfuel; lia|].
    rewrite parse_value_S, skip_ws_start by reflexivity.
    change (Ascii.eqb dquote dquote) with true. cbv iota.
    rewrite append_assoc. cbn [append]. now rewrite parse_quoted_body.
  - rewrite item_text_array in Hfuel |- *.
    cbn [String.length] in Hfuel. rewrite length_append in Hfuel.
    cbn [String.length] in Hfuel. cbn [append].
    destruct fuel as [|f]; [lia|].
    rewrite parse_value_S, skip_ws_start by reflexivity.
    change (Ascii.eqb "[" dquote) with false.
    change (Ascii.eqb "[" "[") with true. cbv iota.
    rewrite append_assoc. cbn [append].
    destruct items as [|x xs].
    + reflexivity.
    + cbn [json_value] in Hjson.
      assert (Hx : json_value x = true)
        by (cbn [forallb] in Hjson; now apply andb_true_iff in Hjson).
      destruct (item_text_start x Hx) as [c [r [E Hc]]].
      destruct (value_start_facts c Hc) as [Hws [Hbr _]].
      rewrite (parse_elements_items xs x f rest IH Hjson) by lia.
      assert (Hshape : exists c' r', join "," (map item_text (x :: xs)) ++ String "]" rest
                                     = String c' r' /\ is_ws c' = false
                                     /\ Ascii.eqb c' "]" = false).
      { destruct xs; cbn [map]; [cbn [join fold_right]|rewrite join_cons];
          rewrite E; cbn [append]; do 2 eexists; repeat split; eassumption. }
      destruct Hshape as [c' [r' [-> [Hws' Hbr']]]].
      rewrite skip_ws_start by exact Hws'.
      destruct c' as [[] [] [] [] [] [] [] []]; try discriminate Hbr'; reflexivity.
  - cbn [json_value] in Hjson.
    apply andb_true_iff in Hjson as [Hjson Hvals].
    apply andb_true_iff in Hjson as [Hjson Hord].
    apply andb_true_iff in Hjson as [Hcls Hkeys].
    destruct cls; try discriminate Hcls.
    rewrite (item_text_object props Hvals) in Hfuel |- *.
    cbn [String.length] in Hfuel. rewrite length_append in Hfuel.
    cbn [String.length] in Hfuel. cbn [append].
    destruct fuel as [|f]; [lia|].
    rewrite parse_value_S, skip_ws_start by reflexivity.
    change (Ascii.eqb "{" dquote) with false.
    change (Ascii.eqb "{" "[") with false.
    change (Ascii.eqb "{" "{") with true. cbv iota.
    rewrite append_assoc. cbn [append].
    destruct props as [|[k v] ps].
    + reflexivity.
    + rewrite (parse_members_props ps (k, v) f rest IH Hvals) by lia.
      rewrite (object_of_distinct_members _ Hkeys Hord).
      destruct ps; cbn [map]; [cbn [join fold_right]|rewrite join_cons];
        rewrite ?append_assoc, member_text_shape;
        rewrite skip_ws_start by reflexivity; reflexivity.
Qed.

(** Parsing tolerates white space, rounds numbers to the nearest binary64,
    lists array indices first and refuses what is not JSON. *)
Example JSON_parse_samples :
  JSON_parse " [1, -20 ,[ ] , null, true]  "
  = Normal (JArr [JNum 1; JNum (-20); JArr []; JNull; JBool true])
  /\ JSON_parse "[1,]" = Throw SyntaxError
  /\ JSON_parse "01" = Throw SyntaxError
  /\ JSON_parse "nul" = Throw SyntaxError
  /\ JSON_parse "[1.5e3, 0.1, -0, 9007199254740993, 1e400]"
     = Normal (JArr [JNum 1500; JDouble (DFinite false 3602879701896397 (-55));
                     JDouble DNegZero; JDouble (DFinite false 1 53);
                     JDouble (DInfinity false)])
  /\ JSON_parse "1." = Throw SyntaxError
  /\ JSON_parse ("{" ++ quote "b" ++ ":1," ++ quote "10" ++ ":2,"
                     ++ quote "9" ++ ":3," ++ quote "b" ++ ":4}")
     = Normal (JObj ClsPlain [("9", JNum 3); ("10", JNum 2); ("b", JNum 4)])
  /\ JSON_stringify (JArr [JDouble (DFinite false 3602879701896397 (-55));
                           JDouble (DFinite false 1 53); JDouble (DFinite true 1 (-1074));
                           JDouble (DFinite false 1 70); JDouble DNegZero; JDouble DNaN])
     = Some "[0.1,9007199254740992,-5e-324,1.1805916207174113e+21,0,null]"
  /\ JSON_stringify (JArr [JNum 7; JUndefined; JArr []]) = Some "[7,null,[]]"
  /\ JSON_stringify (JObj ClsPlain [("gone", JUndefined)]) = Some "{}"
  /\ JSON_stringify JUndefined = None.
Proof. vm_compute. repeat split. Qed.

(** [JSON.parse(JSON.stringify(v))] is [v] for every JSON value. *)
Lemma JSON_parse_stringify (v : JsValue) :
  json_value v = true ->
  JSON_stringify v = Some (item_text v)
  /\ JSON_parse (item_text v) = Normal v.
Proof.
  intros Hjson. split; [now apply serialize_some|].
  unfold JSON_parse.
  pose proof (json_value_round_trips v Hjson
                (2 * String.length (item_text v) + 2)%nat EmptyString) as H.
  rewrite append_nil_r in H. rewrite H; [reflexivity | lia | reflexivity].
Qed.

Lemma features_are_json (fs : list string) : forallb json_value (map JStr fs) = true.
Proof. induction fs as [|f fs IH]; simpl; [reflexivity | exact IH]. Qed.

Lemma metadata_json_value (m : LicenseMetadata) :
  metadata_json m = true -> json_value (metadata_value m) = true.
Proof.
  unfold metadata_json, metadata_value.
  destruct m as [sw ver fs [t|] [d|]]; cbn [expiresAt customData software version features];
    intros H; apply andb_true_iff in H as [Ht Hd];
    cbn [json_value class_eqb app map fst snd forallb] in *;
    rewrite ?features_are_json, ?Ht; cbn [andb] in *;
    rewrite ?Hd; reflexivity.
Qed.



(* ================================================================== *)
(** * Properties of amounts: BigInt texts, gas cost, wei and ether     *)
(* ================================================================== *)

(** ** Texts without white space *)

Lemma digit_is_no_space (c : ascii) : is_digit c = true -> is_str_ws c = false.
Proof.
  destruct c as [[] [] [] [] [] [] [] []]; intros H; try discriminate H; reflexivity.
Qed.

Lemma trim_start_digits (s : string) : all_digits s = true -> trim_start s = s.
Proof.
  destruct s as [|c s]; [reflexivity|]. simpl. intros H.
  apply andb_true_iff in H as [Hc _]. now rewrite (digit_is_no_space c Hc).
Qed.

Lemma trim_end_digits (s : string) : all_digits s = true -> trim_end s = s.
Proof.
  induction s as [|c s IH]; [reflexivity|]. simpl. intros H.
  apply andb_true_iff in H as [Hc Hs]. rewrite (IH Hs).
  destruct s; [now rewrite (digit_is_no_space c Hc) | reflexivity].
Qed.

(** A non-empty text of decimal digits is read as the number it denotes,
    leading zeros included. *)
Lemma StringToBigInt_digits (s : string) :
  all_digits s = true -> s <> EmptyString ->
  StringToBigInt s = digits_value 10 s 0.
Proof.
  intros Hall Hne. unfold StringToBigInt.
  rewrite (trim_start_digits s Hall), (trim_end_digits s Hall).
  destruct s as [|c s]; [contradiction|].
  cbn [all_digits] in Hall. apply andb_true_iff in Hall as [Hc Hs].
  assert (Hsign : Ascii.eqb c "+" = false /\ Ascii.eqb c "-" = false)
    by (destruct c as [[] [] [] [] [] [] [] []]; try discriminate Hc; split; reflexivity).
  destruct Hsign as [Hplus Hminus].
  unfold natural.
  destruct (Ascii.eqb c "0").
  - destruct s as [|p s].
    + now rewrite Hplus, Hminus.
    + cbn [all_digits] in Hs. apply andb_true_iff in Hs as [Hp _].
      assert (Hpre : (Ascii.eqb p "x" || Ascii.eqb p "X") = false
                     /\ (Ascii.eqb p "o" || Ascii.eqb p "O") = false
                     /\ (Ascii.eqb p "b" || Ascii.eqb p "B") = false)
        by (destruct p as [[] [] [] [] [] [] [] []]; try discriminate Hp;
            repeat split; reflexivity).
      destruct Hpre as [-> [-> ->]]. now rewrite Hplus, Hminus.
  - now rewrite Hplus, Hminus.
Qed.

Lemma StringToBigInt_dec (n : Z) : StringToBigInt (dec n) = Some n.
Proof.
  destruct (Z.neg_nonneg_cases n) as [Hneg | Hpos].
  - destruct n as [|p|p]; try lia.
    assert (Hpp : 0 <= Z.pos p) by lia.
    pose proof (dec_all_digits _ Hpp) as Hall.
    pose proof (dec_value (Z.pos p) 0 Hpp) as Hval.
    pose proof (dec_not_empty (Z.pos p)) as Hne.
    assert (Hdec : dec (Z.neg p) = String "-" (dec (Z.pos p))) by reflexivity.
    rewrite Hdec. unfold StringToBigInt.
    cbn [trim_start]. change (is_str_ws "-") with false. cbv iota.
    assert (Htrim : trim_end (String "-" (dec (Z.pos p))) = String "-" (dec (Z.pos p))).
    { cbn [trim_end]. rewrite (trim_end_digits _ Hall).
      destruct (dec (Z.pos p)); [contradiction | reflexivity]. }
    rewrite Htrim. change (Ascii.eqb "-" "0") with false.
    change (Ascii.eqb "-" "+") with false. change (Ascii.eqb "-" "-") with true.
    cbv iota. unfold natural.
    destruct (dec (Z.pos p)) eqn:E; [contradiction|].
    rewrite Hval. f_equal; lia.
  - rewrite (StringToBigInt_digits _ (dec_all_digits n Hpos) (dec_not_empty n)).
    rewrite (dec_value n 0 Hpos). f_equal; lia.
Qed.

Lemma trim_start_blank (s : string) : blank s = true -> trim_start s = EmptyString.
Proof.
  induction s as [|c s IH]; [reflexivity|]. simpl. intros H.
  apply andb_true_iff in H as [Hc Hs]. rewrite Hc. now apply IH.
Qed.

(** X1. calculateGasCost on the decimal texts of two integers answers the
    decimal text of their product, exactly, whatever their size.  A blank
    operand (empty or white space only) is read as zero: the cost is the
    text 0, not an error. *)
Theorem calculateGasCost_product (limit price : Z) :
  calculateGasCost (dec limit) (dec price) = Normal (dec (limit * price))
  /\ (forall nothing,
        blank nothing = true ->
        calculateGasCost nothing (dec price) = Normal "0"
        /\ calculateGasCost (dec limit) nothing = Normal "0").
Proof.
  split.
  - unfold calculateGasCost, BigInt. now rewrite !StringToBigInt_dec.
  - intros nothing Hblank.
    assert (Hzero : StringToBigInt nothing = Some 0).
    { unfold StringToBigInt. now rewrite (trim_start_blank _ Hblank). }
    unfold calculateGasCost, BigInt. rewrite Hzero, !StringToBigInt_dec.
    split; [reflexivity|]. now rewrite Z.mul_0_r.
Qed.

(** ** Digits and their number *)

Lemma digits_pointless (s : string) : all_digits s = true -> pointless s = true.
Proof.
  induction s as [|c s IH]; simpl; [reflexivity|]. intros H.
  apply andb_true_iff in H as [Hc Hs]. rewrite (IH Hs), andb_true_r.
  destruct c as [[] [] [] [] [] [] [] []]; try discriminate Hc; reflexivity.
Qed.

(** A number with a non-zero leading digit is at least the power of ten of
    its remaining digits. *)
Lemma leading_digit_bound (d : Decimal.uint) :
  match d with
  | Decimal.Nil | Decimal.D0 _ => True
  | Decimal.D1 t | Decimal.D2 t | Decimal.D3 t | Decimal.D4 t | Decimal.D5 t
  | Decimal.D6 t | Decimal.D7 t | Decimal.D8 t | Decimal.D9 t =>
      (10 ^ DecimalPos.Unsigned.usize t <= Pos.of_uint d)%N
  end.
Proof.
  destruct d as [|t|t|t|t|t|t|t|t|t|t]; try exact I;
    match goal with
    | |- (_ <= Pos.of_uint (?k t))%N =>
        rewrite (of_uint_head k _ t (fun x => eq_refl) eq_refl)
    end;
    simpl DecimalPos.Unsigned.of_lu;
    generalize (10 ^ DecimalPos.Unsigned.usize t)%N (Pos.of_uint t); intros X Y; lia.
Qed.

(** An integer below [10^k] has at most [k] digits. *)
Lemma dec_length_bound (n : Z) (k : nat) :
  0 <= n < 10 ^ Z.of_nat k -> (1 <= k)%nat ->
  (String.length (dec n) <= k)%nat.
Proof.
  intros [Hn Hlt] Hk.
  destruct (Z.eq_dec n 0) as [-> | Hnz]; [simpl; lia|].
  destruct (dec_nonneg n Hn) as [d [-> [Hval [Hnil Hhead]]]].
  specialize (Hhead ltac:(lia)).
  pose proof (leading_digit_bound d) as Hbound.
  apply Nat2Z.inj_le. rewrite uint_length.
  destruct d as [|t|t|t|t|t|t|t|t|t|t]; try contradiction;
    cbn [DecimalPos.Unsigned.usize]; rewrite N2Z.inj_succ;
    apply N2Z.inj_le in Hbound; rewrite N2Z.inj_pow in Hbound;
    change (Z.of_N 10) with 10 in Hbound;
    assert (Hpow : 10 ^ Z.of_N (DecimalPos.Unsigned.usize t) < 10 ^ Z.of_nat k) by lia;
    apply Z.pow_lt_mono_r_iff in Hpow; lia.
Qed.

(** ** weiToEther and etherToWei *)

Lemma before_point_pointless (a : string) :
  pointless a = true -> before_point a = (a, None).
Proof.
  induction a as [|c a IH]; simpl; [reflexivity|]. intros H.
  apply andb_true_iff in H as [Hc Ha]. apply negb_true_iff in Hc.
  now rewrite Hc, (IH Ha).
Qed.

Lemma before_point_split (a b : string) :
  pointless a = true -> before_point (a ++ String "." b) = (a, Some b).
Proof.
  induction a as [|c a IH]; simpl; [reflexivity|]. intros H.
  apply andb_true_iff in H as [Hc Ha]. apply negb_true_iff in Hc.
  now rewrite Hc, (IH Ha).
Qed.

(** The eighteen fraction digits of a remainder below one ether. *)
Lemma fraction_digits (r : Z) :
  0 <= r < ether_unit ->
  String.length (pad_left 18 (dec r)) = 18%nat
  /\ all_digits (pad_left 18 (dec r)) = true
  /\ forall acc, digits_value 10 (pad_left 18 (dec r)) acc = Some (acc * ether_unit + r).
Proof.
  intros Hr.
  assert (Hlen : (String.length (dec r) <= 18)%nat)
    by (apply dec_length_bound; [exact Hr | lia]).
  unfold pad_left. split; [|split].
  - rewrite length_append, zeros_length. lia.
  - rewrite all_digits_app, all_digits_zeros, dec_all_digits by lia. reflexivity.
  - intros acc.
    rewrite digits_value_app, digits_value_zeros, dec_value by lia.
    f_equal. rewrite <- Z.mul_assoc, <- Z.pow_add_r by lia.
    replace (Z.of_nat (18 - String.length (dec r)) + Z.of_nat (String.length (dec r)))
      with 18 by lia.
    reflexivity.
Qed.

(** What [etherToWei] makes of a whole part and eighteen fraction digits. *)
Lemma etherToWei_parts (whole fraction : string) :
  pointless whole = true -> pointless fraction = true ->
  String.length fraction = 18%nat ->
  etherToWei (EtherText (whole ++ "." ++ fraction)) = whole ++ fraction.
Proof.
  intros Hw Hf Hlen. unfold etherToWei, split_point.
  cbn [append]. rewrite (before_point_split whole fraction Hw).
  rewrite (before_point_pointless fraction Hf). cbn [fst].
  unfold pad_right. rewrite Hlen. cbn [Nat.sub zeros].
  rewrite append_nil_r. rewrite <- Hlen at 1. now rewrite take_all.
Qed.

Lemma whole_and_fraction_value (w : Z) :
  0 <= w ->
  StringToBigInt (dec (w / ether_unit) ++ pad_left 18 (dec (w mod ether_unit)))
  = Some w.
Proof.
  intros Hw.
  assert (Hunit : 0 < ether_unit) by reflexivity.
  pose proof (Z.mod_pos_bound w ether_unit Hunit) as Hr.
  pose proof (Z.div_pos w ether_unit Hw Hunit) as Hq.
  destruct (fraction_digits _ Hr) as [Hlen [Hall Hval]].
  rewrite StringToBigInt_digits.
  - rewrite digits_value_app, dec_value, Hval by exact Hq.
    f_equal. rewrite Z.mul_0_l, Z.add_0_l.
    rewrite (Z.div_mod w ether_unit) at 3 by lia. lia.
  - now rewrite all_digits_app, dec_all_digits, Hall.
  - pose proof (dec_not_empty (w / ether_unit)).
    destruct (dec (w / ether_unit)); [contradiction | discriminate].
Qed.

(** X2. Round trip of amounts.  For every non-negative amount of wei,
    weiToEther prints the whole ethers, a point and exactly eighteen
    fraction digits, and etherToWei turns that text into digits that denote
    the original amount. *)
Theorem weiToEther_etherToWei (w : Z) :
  0 <= w ->
  exists fraction,
    weiToEther (WeiBigInt w) = Normal (dec (w / ether_unit) ++ "." ++ fraction)
    /\ weiToEther (WeiText (dec w)) = weiToEther (WeiBigInt w)
    /\ String.length fraction = 18%nat
    /\ all_digits fraction = true
    /\ StringToBigInt
         (etherToWei (EtherText (dec (w / ether_unit) ++ "." ++ fraction)))
       = Some w.
Proof.
  intros Hw.
  assert (Hunit : 0 < ether_unit) by reflexivity.
  pose proof (Z.mod_pos_bound w ether_unit Hunit) as Hr.
  pose proof (Z.div_pos w ether_unit Hw Hunit) as Hq.
  destruct (fraction_digits _ Hr) as [Hlen [Hall _]].
  exists (pad_left 18 (dec (w mod ether_unit))).
  repeat split; try assumption.
  - unfold weiToEther. rewrite Z.quot_div_nonneg, Z.rem_mod_nonneg by lia.
    reflexivity.
  - unfold weiToEther, BigInt. now rewrite StringToBigInt_dec.
  - rewrite etherToWei_parts; try assumption.
    + now apply whole_and_fraction_value.
    + apply digits_pointless, dec_all_digits, Hq.
    + now apply digits_pointless.
Qed.

Lemma weiToEther_etherToWei_witness :
  0 <= 1500000000000000042
  /\ exists fraction,
       weiToEther (WeiBigInt 1500000000000000042)
       = Normal (dec (1500000000000000042 / ether_unit) ++ "." ++ fraction)
       /\ weiToEther (WeiText (dec 1500000000000000042))
          = weiToEther (WeiBigInt 1500000000000000042)
       /\ String.length fraction = 18%nat
       /\ all_digits fraction = true
       /\ StringToBigInt
            (etherToWei
               (EtherText (dec (1500000000000000042 / ether_unit) ++ "." ++ fraction)))
          = Some 1500000000000000042.
Proof.
  split; [lia|].
  exact (weiToEther_etherToWei 1500000000000000042 ltac:(lia)).
Defined.

(** X3. The sign of a negative amount above minus one ether is misplaced:
    the whole part is printed as 0 and the minus sign ends up inside the
    fraction, so the text denotes no number. *)
Theorem weiToEther_negative (w : Z) :
  - ether_unit < w < 0 ->
  weiToEther (WeiBigInt w)
  = Normal ("0." ++ pad_left 18 (String "-" (dec (- w))))
  /\ all_digits (pad_left 18 (String "-" (dec (- w)))) = false.
Proof.
  intros Hw. split.
  - unfold weiToEther.
    assert (Hq : Z.quot w ether_unit = 0)
      by (apply Z.quot_small_iff; [discriminate | unfold ether_unit in *; lia]).
    assert (Hr : Z.rem w ether_unit = w)
      by (pose proof (Z.quot_rem' w ether_unit) as H; rewrite Hq in H; lia).
    rewrite Hq, Hr.
    destruct w as [|p|p]; try lia. reflexivity.
  - unfold pad_left. rewrite all_digits_app. cbn [all_digits].
    change (is_digit "-") with false. cbn [andb]. apply andb_false_r.
Qed.

Lemma weiToEther_negative_witness :
  - ether_unit < -1 < 0
  /\ weiToEther (WeiBigInt (-1)) = Normal "0.0000000000000000-1".
Proof.
  split; [unfold ether_unit; lia|].
  exact (proj1 (weiToEther_negative (-1) ltac:(unfold ether_unit; lia))).
Defined.

Lemma StringToBigInt_minus_digits (s : string) :
  all_digits s = true -> s <> EmptyString ->
  StringToBigInt (String "-" s)
  = match digits_value 10 s 0 with
    | Some n => Some (- n)
    | None => None
    end.
Proof.
  intros Hall Hne. unfold StringToBigInt.
  cbn [trim_start]. change (is_str_ws "-") with false. cbv iota.
  assert (Htrim : trim_end (String "-" s) = String "-" s).
  { cbn [trim_end]. rewrite (trim_end_digits _ Hall).
    destruct s; [contradiction | reflexivity]. }
  rewrite Htrim. change (Ascii.eqb "-" "0") with false.
  change (Ascii.eqb "-" "+") with false. change (Ascii.eqb "-" "-") with true.
  cbv iota. unfold natural. destruct s; [contradiction | reflexivity].
Qed.

Lemma dec_pointless (n : Z) : pointless (dec n) = true.
Proof.
  destruct n as [|p|p]; try reflexivity.
  - apply digits_pointless, dec_all_digits. lia.
  - change (dec (Z.neg p)) with (String "-" (dec (Z.pos p))).
    cbn [pointless]. change (Ascii.eqb "-" ".") with false. cbn [negb andb].
    apply digits_pointless, dec_all_digits. lia.
Qed.

(** X4. A whole number of ethers, positive or negative, becomes that number
    followed by eighteen zeros: the text denotes the number times 10^18. *)
Theorem etherToWei_whole (n : Z) :
  safe_integer n = true ->
  etherToWei (EtherNumber n) = dec n ++ zeros 18
  /\ etherToWei (EtherText (dec n)) = dec n ++ zeros 18
  /\ StringToBigInt (etherToWei (EtherNumber n)) = Some (n * ether_unit).
Proof.
  intros _.
  assert (Hrun : etherToWei (EtherNumber n) = dec n ++ zeros 18).
  { unfold etherToWei, split_point.
    rewrite (before_point_pointless _ (dec_pointless n)). reflexivity. }
  split; [exact Hrun|]. split; [exact Hrun|]. rewrite Hrun.
  destruct (Z.neg_nonneg_cases n) as [Hneg | Hpos].
  - destruct n as [|p|p]; try lia.
    change (dec (Z.neg p)) with (String "-" (dec (Z.pos p))). cbn [append].
    rewrite StringToBigInt_minus_digits.
    + rewrite digits_value_app, dec_value, digits_value_zeros by lia.
      cbv iota; f_equal; unfold ether_unit; lia.
    + rewrite all_digits_app, dec_all_digits, all_digits_zeros by lia. reflexivity.
    + pose proof (dec_not_empty (Z.pos p)).
      destruct (dec (Z.pos p)); [contradiction | discriminate].
  - rewrite StringToBigInt_digits.
    + rewrite digits_value_app, dec_value, digits_value_zeros by lia.
      cbv iota; f_equal; unfold ether_unit; lia.
    + rewrite all_digits_app, dec_all_digits, all_digits_zeros by lia. reflexivity.
    + pose proof (dec_not_empty n).
      destruct (dec n); [contradiction | discriminate].
Qed.

Lemma etherToWei_whole_witness :
  safe_integer (-2) = true
  /\ etherToWei (EtherNumber (-2)) = dec (-2) ++ zeros 18
  /\ etherToWei (EtherText (dec (-2))) = dec (-2) ++ zeros 18
  /\ StringToBigInt (etherToWei (EtherNumber (-2))) = Some (-2 * ether_unit).
Proof.
  split; [reflexivity|].
  exact (etherToWei_whole (-2) eq_refl).
Defined.

Lemma first_piece_app (f g : string) :
  pointless f = true ->
  fst (before_point (f ++ g)) = f ++ fst (before_point g).
Proof.
  induction f as [|c f IH]; simpl; [reflexivity|]. intros H.
  apply andb_true_iff in H as [Hc Hf]. apply negb_true_iff in Hc. rewrite Hc.
  specialize (IH Hf). destruct (before_point (f ++ g)). simpl in *. now rewrite IH.
Qed.

(** X5. Fraction digits beyond the eighteenth are dropped, not rounded, and
    nothing after a second point is read. *)
Theorem etherToWei_truncates (whole fraction extra : string) :
  pointless whole = true -> pointless fraction = true ->
  String.length fraction = 18%nat ->
  etherToWei (EtherText (whole ++ "." ++ fraction ++ extra)) = whole ++ fraction.
Proof.
  intros Hw Hf Hlen. unfold etherToWei, split_point.
  cbn [append]. rewrite (before_point_split whole (fraction ++ extra) Hw).
  rewrite (first_piece_app fraction extra Hf).
  unfold pad_right. rewrite length_append, Hlen.
  cbn [Nat.add Nat.sub zeros]. rewrite append_nil_r.
  rewrite <- Hlen at 1. now rewrite take_app.
Qed.

Lemma etherToWei_truncates_witness :
  pointless "1" = true /\ pointless "000000000000000001" = true
  /\ String.length "000000000000000001" = 18%nat
  /\ etherToWei (EtherText ("1" ++ "." ++ "000000000000000001" ++ "9"))
     = "1" ++ "000000000000000001".
Proof.
  repeat (split; [reflexivity|]).
  exact (etherToWei_truncates "1" "000000000000000001" "9" eq_refl eq_refl eq_refl).
Defined.

Lemma drop_trailing_zeros_restore (s : string) :
  drop_trailing_zeros s
  ++ zeros (String.length s - String.length (drop_trailing_zeros s)) = s
  /\ (String.length (drop_trailing_zeros s) <= String.length s)%nat.
Proof.
  induction s as [|c s [IH Hlen]]; [split; reflexivity|].
  cbn [drop_trailing_zeros].
  destruct (drop_trailing_zeros s) as [|k kept] eqn:E.
  - cbn [String.length append] in IH. rewrite Nat.sub_0_r in IH.
    destruct (Ascii.eqb_spec c "0") as [-> | Hc].
    + cbn [String.length append Nat.sub zeros]. rewrite IH. split; [reflexivity | lia].
    + cbn [String.length append Nat.sub]. rewrite Nat.sub_0_r, IH.
      split; [reflexivity | lia].
  - cbn [String.length append] in *. cbn [Nat.sub]. rewrite IH.
    split; [reflexivity | lia].
Qed.

Lemma drop_trailing_zeros_digits (s : string) :
  all_digits s = true -> all_digits (drop_trailing_zeros s) = true.
Proof.
  induction s as [|c s IH]; [reflexivity|]. cbn [all_digits drop_trailing_zeros].
  intros H. apply andb_true_iff in H as [Hc Hs]. specialize (IH Hs).
  destruct (drop_trailing_zeros s).
  - destruct (Ascii.eqb c "0"); [reflexivity|]. cbn [all_digits]. now rewrite Hc.
  - cbn [all_digits] in *. now rewrite Hc, IH.
Qed.

(** etherToWei on the text formatEther prints. *)
Lemma etherToWei_formatEther_digits (w : Z) :
  0 <= w ->
  etherToWei (EtherText (formatEther w))
  = dec (w / ether_unit) ++ pad_left 18 (dec (w mod ether_unit)).
Proof.
  intros Hw.
  assert (Hunit : 0 < ether_unit) by reflexivity.
  pose proof (Z.mod_pos_bound w ether_unit Hunit) as Hr.
  pose proof (Z.div_pos w ether_unit Hw Hunit) as Hq.
  destruct (fraction_digits _ Hr) as [Hlen [Hall _]].
  unfold formatEther, formatUnits.
    replace (w <? 0) with false by (symmetry; apply Z.ltb_ge; exact Hw).
    rewrite Z.abs_eq by exact Hw.
    change (10 ^ Z.of_nat 18) with ether_unit.
    set (digits := pad_left 18 (dec (w mod ether_unit))) in *.
    destruct (drop_trailing_zeros_restore digits) as [Hrestore Hshort].
    pose proof (drop_trailing_zeros_digits digits Hall) as Hkept.
    set (fraction := match drop_trailing_zeros digits with
                     | EmptyString => "0"
                     | String a s => String a s
                     end).
    assert (Hfrac : all_digits fraction = true
                    /\ pad_right 18 fraction = digits).
    { subst fraction. unfold pad_right.
      destruct (drop_trailing_zeros digits) as [|k kept] eqn:E.
      - split; [reflexivity|].
        cbn [String.length append] in Hrestore. rewrite Nat.sub_0_r, Hlen in Hrestore.
        exact Hrestore.
      - split; [exact Hkept|]. now rewrite <- Hlen. }
    destruct Hfrac as [Hfd Hpad].
    unfold etherToWei, split_point. cbn [append].
    rewrite (before_point_split _ fraction
               (digits_pointless _ (dec_all_digits _ Hq))).
    rewrite (before_point_pointless _ (digits_pointless _ Hfd)). cbn [fst].
    rewrite Hpad. rewrite <- Hlen at 1. now rewrite take_all.
Qed.

(** X6. etherToWei reads back what formatEther prints: for every
    non-negative amount of wei, the digits it produces from the ether text
    denote the original amount. *)
Theorem etherToWei_formatEther (w : Z) :
  0 <= w ->
  etherToWei (EtherText (formatEther w))
  = dec (w / ether_unit) ++ pad_left 18 (dec (w mod ether_unit))
  /\ StringToBigInt (etherToWei (EtherText (formatEther w))) = Some w.
Proof.
  intros Hw.
  assert (Hunit : 0 < ether_unit) by reflexivity.
  pose proof (Z.mod_pos_bound w ether_unit Hunit) as Hr.
  pose proof (Z.div_pos w ether_unit Hw Hunit) as Hq.
  rewrite (etherToWei_formatEther_digits w Hw).
  split; [reflexivity|]. now apply whole_and_fraction_value.
Qed.

Lemma etherToWei_formatEther_witness :
  0 <= 420000000000000
  /\ formatEther 420000000000000 = "0.00042"
  /\ StringToBigInt (etherToWei (EtherText (formatEther 420000000000000)))
     = Some 420000000000000.
Proof.
  split; [lia|]. split; [vm_compute; reflexivity|].
  exact (proj2 (etherToWei_formatEther 420000000000000 ltac:(lia))).
Defined.

(* ================================================================== *)
(** * Properties of role hashes and tables                             *)
(* ================================================================== *)

Lemma hex_char_is_hex (n : N) :
  (n < 16)%N -> is_hex (hex_char n) = true /\ is_lower_hex (hex_char n) = true.
Proof.
  intros H.
  assert (Hcases : In n [0;1;2;3;4;5;6;7;8;9;10;11;12;13;14;15]%N).
  { simpl. lia. }
  simpl in Hcases.
  repeat (destruct Hcases as [<- | Hcases]; [split; reflexivity|]). contradiction.
Qed.

Lemma utf8_bytes_small (s : string) : Forall (fun b => (b < 256)%N) (utf8 s).
Proof.
  induction s as [|c s IH]; [constructor|].
  cbn [utf8]. apply Forall_app. split; [|exact IH].
  unfold utf8_char.
  pose proof (N_ascii_bounded c) as Hc.
  destruct (N_of_ascii c <? 128)%N eqn:E.
  - repeat constructor. lia.
  - apply N.ltb_ge in E.
    assert (N_of_ascii c / 64 < 4)%N by (apply N.Div0.div_lt_upper_bound; lia).
    pose proof (N.mod_upper_bound (N_of_ascii c) 64 ltac:(lia)).
    repeat constructor; lia.
Qed.

Lemma hex_of_bytes_shape (bytes : list N) :
  Forall (fun b => (b < 256)%N) bytes ->
  all_hex (hex_of_bytes bytes) = true
  /\ String.length (hex_of_bytes bytes) = (2 * List.length bytes)%nat.
Proof.
  induction 1 as [|b bytes Hb _ [IHhex IHlen]]; [split; reflexivity|].
  cbn [hex_of_bytes all_hex String.length List.length].
  rewrite IHhex, IHlen.
  rewrite (proj1 (hex_char_is_hex (b / 16)
                    ltac:(apply N.Div0.div_lt_upper_bound; lia))).
  rewrite (proj1 (hex_char_is_hex (b mod 16)
                    ltac:(apply N.mod_upper_bound; lia))).
  split; [reflexivity | lia].
Qed.

Lemma hex_of_bytes_lower (bytes : list N) :
  Forall (fun b => (b < 256)%N) bytes ->
  all_lower_hex (hex_of_bytes bytes) = true.
Proof.
  induction 1 as [|b bytes Hb _ IH]; [reflexivity|].
  cbn [hex_of_bytes all_lower_hex]. rewrite IH.
  rewrite (proj2 (hex_char_is_hex (b / 16)
                    ltac:(apply N.Div0.div_lt_upper_bound; lia))).
  rewrite (proj2 (hex_char_is_hex (b mod 16)
                    ltac:(apply N.mod_upper_bound; lia))).
  reflexivity.
Qed.

Lemma all_lower_hex_app (a b : string) :
  all_lower_hex (a ++ b) = all_lower_hex a && all_lower_hex b.
Proof.
  induction a as [|c a IH]; simpl; [reflexivity|]. now rewrite IH, andb_assoc.
Qed.

Lemma all_lower_hex_zeros (n : nat) : all_lower_hex (zeros n) = true.
Proof. induction n as [|n IH]; simpl; [reflexivity | exact IH]. Qed.

(** X7. A role hash is 0x followed by lower-case hexadecimal digits
    ([0-9a-f]): 64 of them when the role has at most 32 UTF-8 bytes, two per
    byte when it has more, so a longer role does not fit 32 bytes.  It is
    never taken for an address. *)
Theorem generateRoleHash_shape (role : string) :
  exists body,
    generateRoleHash role = "0x" ++ body
    /\ all_lower_hex body = true
    /\ String.length body = Nat.max 64 (2 * List.length (utf8 role))
    /\ isValidAddress (generateRoleHash role) = false.
Proof.
  exists (pad_left 64 (hex_of_bytes (utf8 role))).
  destruct (hex_of_bytes_shape _ (utf8_bytes_small role)) as [_ Hlen].
  pose proof (hex_of_bytes_lower _ (utf8_bytes_small role)) as Hhex.
  assert (Hbody : String.length (pad_left 64 (hex_of_bytes (utf8 role)))
                  = Nat.max 64 (2 * List.length (utf8 role))).
  { unfold pad_left. rewrite length_append, zeros_length, Hlen. lia. }
  repeat split.
  - unfold pad_left. now rewrite all_lower_hex_app, all_lower_hex_zeros, Hhex.
  - exact Hbody.
  - unfold generateRoleHash. cbn [append isValidAddress].
    rewrite Hbody.
    destruct (Nat.eqb_spec (Nat.max 64 (2 * List.length (utf8 role))) 40) as [E|E];
      [lia | reflexivity].
Qed.

Lemma zeros_add (a b : nat) : zeros (a + b) = zeros a ++ zeros b.
Proof. induction a as [|a IH]; simpl; [reflexivity | now rewrite IH]. Qed.

(** X8. Role hashes collide: a leading NUL character is absorbed by the
    padding, so a role of fewer than 32 bytes and the same role with a NUL
    in front have the same hash. *)
Theorem generateRoleHash_collision (role : string) :
  (List.length (utf8 role) < 32)%nat ->
  generateRoleHash (String "000" role) = generateRoleHash role
  /\ String "000" role <> role.
Proof.
  intros Hlen. split.
  - destruct (hex_of_bytes_shape _ (utf8_bytes_small role)) as [_ Hhex].
    unfold generateRoleHash. f_equal.
    cbn [utf8]. change (utf8_char "000") with [0%N]. cbn [app hex_of_bytes].
    change (hex_char (0 / 16)) with "0"%char.
    change (hex_char (0 mod 16)) with "0"%char.
    unfold pad_left. cbn [String.length]. rewrite Hhex.
    replace (64 - 2 * List.length (utf8 role))%nat
      with ((64 - S (S (2 * List.length (utf8 role)))) + 2)%nat by lia.
    rewrite zeros_add, append_assoc. reflexivity.
  - intros H. apply (f_equal String.length) in H. simpl in H. lia.
Qed.

Lemma generateRoleHash_collision_witness :
  (List.length (utf8 "ADMIN") < 32)%nat
  /\ generateRoleHash (String "000" "ADMIN") = generateRoleHash "ADMIN".
Proof.
  split; [vm_compute; lia|].
  exact (proj1 (generateRoleHash_collision "ADMIN" ltac:(vm_compute; lia))).
Defined.


(* ================================================================== *)
(** * Properties of the validators and of error messages               *)
(* ================================================================== *)

Lemma lookup_app_left {A : Type} (k : string) (l1 l2 : list (string * A)) (v : A) :
  lookup k l1 = Some v -> lookup k (l1 ++ l2)%list = Some v.
Proof.
  induction l1 as [|[k' v'] l1 IH]; simpl; [discriminate|].
  destruct (String.eqb k k'); [trivial | exact IH].
Qed.

Lemma lookup_map_values (f : JsValue -> JsValue) (k : string)
      (props : list (string * JsValue)) :
  lookup k (map_values f props)
  = match lookup k props with
    | Some v => Some (f v)
    | None => None
    end.
Proof.
  induction props as [|[k' v'] props IH]; simpl; [reflexivity|].
  destruct (String.eqb k k'); [reflexivity | exact IH].
Qed.

Lemma metadata_has_no_hasOwnProperty (m : LicenseMetadata) :
  exists props,
    metadata_value m = JObj ClsPlain props
    /\ lookup "hasOwnProperty" props = None
    /\ (exists a, lookup "software" props = Some a)
    /\ (exists b, lookup "version" props = Some b)
    /\ (exists c, lookup "features" props = Some c).
Proof.
  unfold metadata_value. eexists. split; [reflexivity|].
  destruct (expiresAt m), (customData m); repeat split; eexists; reflexivity.
Qed.

(** X10. The validators look at the presence of the required properties
    only.  Every [LicenseMetadata] value passes validateLicenseMetadata and
    every [NetworkConfig] value passes validateNetworkConfig, and an
    accepted object stays accepted whatever its values are replaced with.
    On [undefined] and [null] validateLicenseMetadata answers [false], while
    validateNetworkConfig throws a [TypeError]. *)
Theorem validators_check_presence
    (m : LicenseMetadata) (c : NetworkConfig) (f : JsValue -> JsValue)
    (props : list (string * JsValue)) (nothing : JsValue) :
  validateLicenseMetadata (metadata_value m) = Normal true
  /\ validateNetworkConfig (network_config_value c) = Normal true
  /\ (validateLicenseMetadata (JObj ClsPlain props) = Normal true ->
      validateLicenseMetadata (JObj ClsPlain (map_values f props)) = Normal true)
  /\ (validateNetworkConfig (JObj ClsPlain props) = Normal true ->
      validateNetworkConfig (JObj ClsPlain (map_values f props)) = Normal true)
  /\ (has_properties nothing = false ->
      validateLicenseMetadata nothing = Normal false
      /\ validateNetworkConfig nothing
         = Throw (TypeError_read "hasOwnProperty" nothing)).
Proof.
  split; [|split; [|split; [|split]]].
  - destruct (metadata_has_no_hasOwnProperty m)
      as [ps [-> [Hno [[a Ha] [[b Hb] [d Hd]]]]]].
    unfold validateLicenseMetadata. cbn [truthy typeof_object negb orb].
    cbn [every_own call_hasOwnProperty]. now rewrite Hno, Ha, Hb, Hd.
  - reflexivity.
  - unfold validateLicenseMetadata. cbn [truthy typeof_object negb orb].
    cbn [every_own call_hasOwnProperty].
    rewrite !lookup_map_values.
    destruct (lookup "hasOwnProperty" props); [discriminate|].
    destruct (lookup "software" props); [|discriminate].
    destruct (lookup "version" props); [|discriminate].
    destruct (lookup "features" props); [|discriminate].
    reflexivity.
  - unfold validateNetworkConfig. cbn [every_own call_hasOwnProperty].
    rewrite !lookup_map_values.
    destruct (lookup "hasOwnProperty" props); [discriminate|].
    destruct (lookup "chainId" props); [|discriminate].
    destruct (lookup "rpcUrl" props); [|discriminate].
    destruct (lookup "explorerUrl" props); [|discriminate].
    destruct (lookup "name" props); [|discriminate].
    reflexivity.
  - destruct nothing; try discriminate; intros _; split; reflexivity.
Qed.

(** X11. An object with an own property named hasOwnProperty makes both
    validators throw a [TypeError] instead of answering. *)
Theorem validators_throw_on_shadowed_hasOwnProperty
    (cls : JsClass) (props : list (string * JsValue)) (shadow : JsValue) :
  lookup "hasOwnProperty" props = Some shadow ->
  validateLicenseMetadata (JObj cls props)
  = Throw (TypeError_not_callable "metadata.hasOwnProperty")
  /\ validateNetworkConfig (JObj cls props)
     = Throw (TypeError_not_callable "config.hasOwnProperty").
Proof.
  intros H. unfold validateLicenseMetadata, validateNetworkConfig.
  cbn [truthy typeof_object negb orb every_own call_hasOwnProperty].
  now rewrite H.
Qed.

Lemma validators_throw_on_shadowed_hasOwnProperty_witness :
  lookup "hasOwnProperty"
         [("software", JStr "App"); ("hasOwnProperty", JNum 1)] = Some (JNum 1)
  /\ validateLicenseMetadata
       (JObj ClsPlain [("software", JStr "App"); ("hasOwnProperty", JNum 1)])
     = Throw (TypeError_not_callable "metadata.hasOwnProperty").
Proof.
  split; [reflexivity|].
  exact (proj1 (validators_throw_on_shadowed_hasOwnProperty ClsPlain
                  [("software", JStr "App"); ("hasOwnProperty", JNum 1)]
                  (JNum 1) eq_refl)).
Defined.

(** Every normalised error is a [LicenseChainError] built from a kind, a
    message and the wrapped cause. *)
Lemma fromEthersError_built (cause code : JsValue) :
  get_prop cause "code" = Normal code ->
  exists message,
    fromEthersError cause
    = Normal (new_LicenseChainError (ethers_kind code) message
                (original_error_details cause))
    /\ (ethers_kind code = INSUFFICIENT_FUNDS ->
        message = "Insufficient funds for transaction")
    /\ (ethers_kind code = GAS_ESTIMATION_FAILED -> message = "Gas estimation failed")
    /\ (ethers_kind code = TRANSACTION_REVERTED -> message = "Transaction reverted")
    /\ (ethers_kind code = NETWORK_ERROR -> message = "Network error occurred").
Proof.
  intros Hcode.
  assert (Hprops : has_properties cause = true)
    by (destruct cause; simpl in *; congruence).
  destruct (get_prop_total cause "message" Hprops) as [m Hm].
  unfold fromEthersError. rewrite Hcode, Hm.
  destruct code as [| |b|n|[|?| |? ? ?]|s|items|cls props];
    try (eexists; repeat split; try reflexivity; discriminate).
  unfold strict_eq_str, ethers_kind, ethers_table, lookup.
  rewrite !(String.eqb_sym s).
  repeat match goal with
         | |- context [String.eqb ?k s] =>
             destruct (String.eqb k s);
             [eexists; repeat split; try reflexivity; discriminate|]
         end.
  eexists; repeat split; try reflexivity; discriminate.
Qed.

Lemma fromRpcError_built (cause code : JsValue) :
  get_prop cause "code" = Normal code ->
  exists message,
    fromRpcError cause
    = Normal (new_LicenseChainError (rpc_kind code) message
                (original_error_details cause))
    /\ (rpc_kind code = VALIDATION_ERROR -> message = "Invalid parameters")
    /\ (rpc_kind code = TRANSACTION_FAILED -> message = "Transaction failed").
Proof.
  intros Hcode.
  assert (Hprops : has_properties cause = true)
    by (destruct cause; simpl in *; congruence).
  destruct (get_prop_total cause "message" Hprops) as [m Hm].
  unfold fromRpcError. rewrite Hcode, Hm.
  destruct code as [| |b|n|[|?| |? ? ?]|s|items|cls props];
    try (eexists; repeat split; try reflexivity; discriminate).
  unfold strict_eq_num, rpc_kind, rpc_table, find, fst, snd.
  rewrite !(Z.eqb_sym n).
  repeat match goal with
         | |- context [Z.eqb ?k n] =>
             destruct (Z.eqb k n);
             [eexists; repeat split; try reflexivity; discriminate|]
         end.
  eexists; repeat split; try reflexivity; discriminate.
Qed.

Lemma formatErrorMessage_built (k : ErrorCodes) (message : string) (details : JsValue) :
  formatErrorMessage (new_LicenseChainError k message details)
  = Normal (JStr (if String.eqb message EmptyString
                  then "Unknown error occurred" else message)).
Proof.
  unfold formatErrorMessage, new_LicenseChainError. cbn [get_prop lookup].
  change (String.eqb "message" "message") with true. cbv iota.
  cbn [truthy]. destruct (String.eqb message EmptyString); reflexivity.
Qed.



(* ================================================================== *)
(** * Retry classification of normalised errors                        *)
(* ================================================================== *)

(** On a [LicenseChainError] the classification reads the kind and the
    message text, and never throws. *)
Lemma isRetryableError_built (k : ErrorCodes) (message : string) (details : JsValue) :
  isRetryableError (new_LicenseChainError k message details)
  = Normal (retryable_by k message).
Proof.
  unfold isRetryableError, retryable_by.
  induction retryableErrors as [|c rest IH]; [reflexivity|].
  cbn [some_code_matches existsb].
  unfold new_LicenseChainError at 1 2. cbn [get_prop lookup].
  change (String.eqb "code" "message") with false.
  change (String.eqb "code" "name") with false.
  change (String.eqb "code" "code") with true.
  change (String.eqb "message" "message") with true.
  cbv iota. cbn [strict_eq_str optional_includes].
  destruct (String.eqb (code_string k) c); [reflexivity|].
  destruct (str_includes message c); [reflexivity|].
  cbn [orb]. exact IH.
Qed.

Lemma rpc_kind_cases (code : JsValue) :
  rpc_kind code = RPC_ERROR \/ rpc_kind code = VALIDATION_ERROR
  \/ rpc_kind code = TRANSACTION_FAILED.
Proof.
  destruct code as [| |b|n|[|?| |? ? ?]|s|items|cls props]; try (left; reflexivity).
  unfold rpc_kind, rpc_table, find, fst, snd.
  repeat match goal with
         | |- context [Z.eqb ?k n] => destruct (Z.eqb k n); [auto|]
         end.
  auto.
Qed.

Lemma ethers_kind_cases (code : JsValue) :
  ethers_kind code = INSUFFICIENT_FUNDS \/ ethers_kind code = GAS_ESTIMATION_FAILED
  \/ ethers_kind code = TRANSACTION_REVERTED \/ ethers_kind code = NETWORK_ERROR
  \/ ethers_kind code = UNKNOWN_ERROR.
Proof.
  destruct code as [| |b|n|[|?| |? ? ?]|s|items|cls props]; try (do 4 right; reflexivity).
  unfold ethers_kind, ethers_table, lookup.
  repeat match goal with
         | |- context [String.eqb s ?k] => destruct (String.eqb s k); [auto 6|]
         end.
  auto 6.
Qed.





(* ================================================================== *)
(** * Failures of the facade                                           *)
(* ================================================================== *)

Section FacadeFailures.

Context {W : Type}.
Variable send : ContractCall -> Overrides -> W -> Settled TransactionResponse * W.
Variable wait : TransactionResponse -> option Z -> W -> Settled TransactionReceipt * W.
Variable estimateGas : ContractCall -> W -> Settled Z * W.
Variable getFeeData : W -> Settled FeeData * W.
Variable read_string : ContractCall -> W -> Settled string * W.
Variable ethers_id : string -> string.

(** What the [catch] blocks reject with, told by the cause. *)
Lemma rethrow_normalized_rejection (A : Type) (cause : JsValue) (st : Run W) :
  rethrow_normalized (A := A) cause st = (Rejected (normalized_rejection cause), st).
Proof.
  unfold rethrow_normalized, normalized_rejection.
  destruct (fromEthersError cause); reflexivity.
Qed.



(** X17. Stored metadata that is not JSON text (the empty text included)
    makes [getLicenseMetadata] reject what the parser throws, a
    [SyntaxError], normalised by [fromEthersError]: a [LicenseChainError] of
    kind [UNKNOWN_ERROR] that holds the [SyntaxError]; the raw [SyntaxError]
    never escapes.  The stored text holds no [\u] escape above [00ff], which
    strings of the embedding cannot hold. *)
Theorem getLicenseMetadata_malformed
    (tokenId : Z) (st : Run W) (text : string) (w' : W) :
  read_string (CallGetLicenseMetadata tokenId) (world st) = (Fulfilled text, w') ->
  narrow_escapes text = true ->
  (forall v, JSON_parse text <> Normal v) ->
  exists cause,
    JSON_parse text = Throw cause
    /\ class_of cause = Some ClsSyntaxError
    /\ getLicenseMetadata read_string tokenId st
       = (Rejected (normalized_rejection cause),
          {| world := w'; trace := EvRead (CallGetLicenseMetadata tokenId) :: trace st |})
    /\ kind_of (normalized_rejection cause) = Some UNKNOWN_ERROR
    /\ original_cause (normalized_rejection cause) = Some cause
    /\ normalized_rejection cause <> cause.
Proof.
  intros Hread _ Hbad.
  assert (Hparse : JSON_parse text = Throw SyntaxError).
  { unfold JSON_parse in *.
    destruct (parse_value _ text) as [[v rest]|]; [|reflexivity].
    destruct (skip_ws rest); [|reflexivity].
    now contradiction (Hbad v). }
  exists SyntaxError. split; [exact Hparse|]. split; [reflexivity|].
  split.
  - unfold getLicenseMetadata, try_catch, bind, request, eval.
    rewrite Hread, Hparse. cbn [throw]. apply rethrow_normalized_rejection.
  - repeat split. discriminate.
Qed.

End FacadeFailures.

(** A node that answers a transaction with a revert: [pause] rejects with
    the revert normalised, after the one send. *)
Example reverted_transaction_sample :
  run_mutation reverting_send stub_wait stub_id sample_config Pause (start tt)
  = (Rejected (new_LicenseChainError TRANSACTION_REVERTED "Transaction reverted"
                 (original_error_details call_exception)),
     {| world := tt; trace := [EvSend CallPause (config_overrides sample_config)] |}).
Proof. reflexivity. Qed.

Lemma getLicenseMetadata_malformed_witness :
  stored EmptyString (CallGetLicenseMetadata 7) (world (start tt))
  = (Fulfilled EmptyString, tt)
  /\ narrow_escapes EmptyString = true
  /\ (forall v, JSON_parse EmptyString <> Normal v)
  /\ exists cause,
       getLicenseMetadata (stored EmptyString) 7 (start tt)
       = (Rejected (normalized_rejection cause),
          {| world := tt; trace := [EvRead (CallGetLicenseMetadata 7)] |})
       /\ kind_of (normalized_rejection cause) = Some UNKNOWN_ERROR.
Proof.
  assert (Hbad : forall v, JSON_parse EmptyString <> Normal v) by discriminate.
  split; [reflexivity|]. split; [reflexivity|]. split; [exact Hbad|].
  destruct (getLicenseMetadata_malformed (stored EmptyString) 7 (start tt)
              EmptyString tt eq_refl eq_refl Hbad)
    as [cause [_ [_ [Hrun [Hkind _]]]]].
  exists cause. split; [exact Hrun | exact Hkind].
Defined.

(* ================================================================== *)
(** * Normalising twice                                                *)
(* ================================================================== *)

(** The message a second normalisation gives an error of kind [k] and
    message [m]. *)
Lemma fromEthersError_of_built (k : ErrorCodes) (m : string) (d : JsValue) :
  exists m',
    fromEthersError (new_LicenseChainError k m d)
    = Normal (new_LicenseChainError (renormalized k) m'
                (original_error_details (new_LicenseChainError k m d)))
    /\ (renormalized k = UNKNOWN_ERROR ->
        (if String.eqb m' EmptyString then "Unknown error occurred" else m')
        = (if String.eqb m EmptyString then "Unknown error occurred" else m))
    /\ (renormalized k = INSUFFICIENT_FUNDS -> m' = "Insufficient funds for transaction")
    /\ (renormalized k = NETWORK_ERROR -> m' = "Network error occurred").
Proof.
  unfold fromEthersError, new_LicenseChainError at 1 2.
  cbn [get_prop lookup].
  change (String.eqb "code" "message") with false.
  change (String.eqb "code" "name") with false.
  change (String.eqb "code" "code") with true.
  change (String.eqb "message" "message") with true.
  cbv iota.
  destruct k; cbn [code_string strict_eq_str renormalized];
    try (change (String.eqb _ "INSUFFICIENT_FUNDS") with false);
    try (change (String.eqb _ "UNPREDICTABLE_GAS_LIMIT") with false);
    try (change (String.eqb _ "CALL_EXCEPTION") with false);
    try (change (String.eqb _ "NETWORK_ERROR") with false);
    try (change (String.eqb "INSUFFICIENT_FUNDS" "INSUFFICIENT_FUNDS") with true);
    try (change (String.eqb "NETWORK_ERROR" "NETWORK_ERROR") with true);
    cbv iota;
    try (eexists; split; [reflexivity|];
         unfold message_or; cbn [truthy to_string];
         destruct (String.eqb m EmptyString) eqn:Hm; cbn [negb];
         [ repeat split; discriminate
         | rewrite Hm; repeat split; discriminate ]);
    eexists; (split; [reflexivity|]); repeat split; discriminate.
Qed.



(* ================================================================== *)
(** * Properties of the reading methods                                *)
(* ================================================================== *)

Section ReadingProperties.

Context {W : Type}.
Variable read_bool : BoolCall -> W -> Settled bool * W.
Variable read_string : ContractCall -> W -> Settled string * W.
Variable ethers_id : string -> string.

(** What the [catch] block of a reading method rejects with. *)
Lemma normalized_cases (E A : Type) (cause : JsValue) (s : Session E W) :
  exists e,
    normalized (A := A) cause s = (Rejected e, s)
    /\ (fromEthersError cause = Normal e
        \/ has_properties cause = false /\ e = TypeError_read "code" cause)
    /\ (forall code,
          get_prop cause "code" = Normal code ->
          kind_of e = Some (ethers_kind code)
          /\ original_cause e = Some cause
          /\ is_LicenseChainError e = true).
Proof.
  unfold normalized.
  destruct (has_properties cause) eqn:Hp.
  - destruct (get_prop_total cause "code" Hp) as [code Hcode].
    destruct (fromEthersError_kind cause code Hcode) as [e [He [Hk [Ho Hl]]]].
    rewrite He. exists e. split; [reflexivity|]. split; [left; reflexivity|].
    intros code' Hcode'. rewrite Hcode in Hcode'. injection Hcode' as <-. auto.
  - destruct cause; try discriminate Hp;
      (eexists; split; [reflexivity|]; split; [right; split; reflexivity | discriminate]).
Qed.


(** [getLicenseMetadata], step by step. *)
Lemma getLicenseMetadata_steps (tokenId : Z) (st : Run W) :
  getLicenseMetadata read_string tokenId st
  = match read_string (CallGetLicenseMetadata tokenId) (world st) with
    | (Fulfilled text, w1) =>
        match JSON_parse text with
        | Normal v =>
            (Fulfilled v,
             {| world := w1;
                trace := EvRead (CallGetLicenseMetadata tokenId) :: trace st |})
        | Throw t =>
            rethrow_normalized t
              {| world := w1;
                 trace := EvRead (CallGetLicenseMetadata tokenId) :: trace st |}
        end
    | (Rejected cause, w1) =>
        rethrow_normalized cause
          {| world := w1;
             trace := EvRead (CallGetLicenseMetadata tokenId) :: trace st |}
    end.
Proof.
  unfold getLicenseMetadata, try_catch, bind, request, eval.
  destruct (read_string _ (world st)) as [[text|cause] w1]; [|reflexivity].
  destruct (JSON_parse text); reflexivity.
Qed.




(** Stored metadata that reads [null] has no [features] to hand out: the
    [TypeError] of the property read is rejected in normalised form. *)
Lemma getLicenseVerification_null_metadata
    (tokenId : Z) (s : Session ReadEvent W) (isValid : bool) (w1 w2 : W) :
  read_bool (CallVerifyLicense tokenId) (s_world s) = (Fulfilled isValid, w1) ->
  read_string (CallGetLicenseMetadata tokenId) w1 = (Fulfilled "null", w2) ->
  exists e,
    fst (getLicenseVerification read_bool read_string tokenId s) = Rejected e
    /\ kind_of e = Some UNKNOWN_ERROR
    /\ original_cause e = Some (TypeError_read "features" JNull).
Proof.
  intros Hvalid Hread.
  unfold getLicenseVerification, catching, and_then, ask, call_method.
  rewrite Hvalid. cbn [s_world s_log].
  rewrite getLicenseMetadata_steps. cbn [world trace].
  rewrite Hread.
  assert (Hparse : JSON_parse "null" = Normal JNull) by (vm_compute; reflexivity).
  rewrite Hparse. cbn [world trace map app get_prop evaluate reject].
  eexists. split; [reflexivity|]. split; reflexivity.
Qed.

End ReadingProperties.




(* ================================================================== *)
(** * Bounds of the retry wrapper                                      *)
(* ================================================================== *)

Section RetryBounds.

Context {W T : Type}.
Variable fn : W -> Settled T * W.
Variable timer : Z -> W -> W.

(** The loop invokes the operation [k] times, at least once and at most as
    often as iterations remain, sleeps between the invocations only, and
    gives up only after the last iteration. *)
Lemma retry_loop_invariant (maxRetries baseDelay : Z) :
  forall (remaining : nat) (i : Z) (lastError : JsValue) (st : RetryState W),
    Z.of_nat remaining = maxRetries - i \/ remaining = O ->
    exists k,
      (k <= remaining)%nat
      /\ ((0 < remaining)%nat -> (1 <= k)%nat)
      /\ rs_calls (snd (retry_loop fn timer maxRetries baseDelay remaining i lastError st))
         = (rs_calls st + k)%nat
      /\ rs_sleeps (snd (retry_loop fn timer maxRetries baseDelay remaining i lastError st))
         = (List.rev (schedule baseDelay i (Nat.pred k)) ++ rs_sleeps st)%list
      /\ (forall e,
            fst (retry_loop fn timer maxRetries baseDelay remaining i lastError st)
            = Rejected e ->
            k = remaining).
Proof.
  induction remaining as [|r IH]; intros i lastError st Hrem.
  - exists O. cbn [retry_loop fst snd Nat.pred]. repeat split; try lia.
  - destruct Hrem as [Hrem|Hrem]; [|discriminate].
    cbn [retry_loop]. unfold invoke.
    destruct (fn (rs_world st)) as [[v|e] w1].
    + exists 1%nat. cbn [fst snd rs_calls rs_sleeps Nat.pred].
      repeat split; try lia. discriminate.
    + destruct (Z.eqb_spec i (maxRetries - 1)) as [Hi|Hi].
      * exists 1%nat. cbn [fst snd rs_calls rs_sleeps Nat.pred].
        repeat split; try lia.
      * destruct (IH (i + 1) e
                     (sleep timer (baseDelay * 2 ^ i)
                        {| rs_world := w1;
                           rs_calls := S (rs_calls st);
                           rs_sleeps := rs_sleeps st |}))
          as [k [Hle [Hpos [Hcalls [Hsleeps Hrej]]]]]; [left; lia|].
        assert (Hr : (0 < r)%nat) by lia.
        specialize (Hpos Hr).
        exists (S k). cbv zeta.
        split; [lia|]. split; [lia|].
        split; [rewrite Hcalls; cbn [sleep rs_calls]; lia|].
        split.
        -- rewrite Hsleeps. cbn [sleep rs_sleeps Nat.pred].
           destruct k as [|k']; [lia|].
           cbn [Nat.pred]. rewrite schedule_step. cbn [List.rev].
           rewrite <- app_assoc. reflexivity.
        -- intros e' He'. f_equal. exact (Hrej e' He').
Qed.

(** X23. Whatever the operation does, [retryWithBackoff] invokes it at most
    [maxRetries] times (three by default), and exactly that often before it
    gives up.  It sleeps between invocations only, never after the last
    one; the delays double from [baseDelay] (one second by default) and add
    up to [baseDelay * (2^(calls - 1) - 1)]. *)
Theorem retryWithBackoff_bounds (maxRetries baseDelay : option Z) (w : W) :
  let attempts := match maxRetries with Some m => m | None => 3 end in
  let delay := match baseDelay with Some d => d | None => 1000 end in
  let run := retryWithBackoff fn timer maxRetries baseDelay w in
  (rs_calls (snd run) <= Z.to_nat attempts)%nat
  /\ (forall e, fst run = Rejected e -> rs_calls (snd run) = Z.to_nat attempts)
  /\ List.rev (rs_sleeps (snd run)) = schedule delay 0 (Nat.pred (rs_calls (snd run)))
  /\ total (rs_sleeps (snd run))
     = delay * (2 ^ Z.of_nat (Nat.pred (rs_calls (snd run))) - 1).
Proof.
  cbv zeta. unfold retryWithBackoff.
  set (attempts := match maxRetries with Some m => m | None => 3 end).
  set (delay := match baseDelay with Some d => d | None => 1000 end).
  destruct (retry_loop_invariant attempts delay (Z.to_nat attempts) 0 JUndefined
              {| rs_world := w; rs_calls := 0; rs_sleeps := [] |})
    as [k [Hle [_ [Hcalls [Hsleeps Hrej]]]]].
  { destruct (Z.to_nat attempts) eqn:Hn; [right; reflexivity | left; lia]. }
  cbn [rs_calls rs_sleeps Nat.add] in Hcalls, Hsleeps.
  rewrite app_nil_r in Hsleeps.
  rewrite Hcalls, Hsleeps.
  split; [exact Hle|]. split; [exact Hrej|].
  split; [apply rev_involutive|].
  rewrite total_rev, total_schedule, geometric_sum_closed. reflexivity.
Qed.

End RetryBounds.

(* ================================================================== *)
(** * Invariants of network resolution                                 *)
(* ================================================================== *)

Lemma rpcUrl_or_not_empty (rpcUrl : option string) (fallback : string) :
  fallback <> EmptyString -> rpcUrl_or rpcUrl fallback <> EmptyString.
Proof.
  intros Hf. unfold rpcUrl_or. destruct rpcUrl as [u|]; [|exact Hf].
  destruct (String.eqb_spec u EmptyString); assumption.
Qed.

Lemma rpcUrl_or_given (url fallback : string) :
  url <> EmptyString -> rpcUrl_or (Some url) fallback = url.
Proof.
  intros Hu. unfold rpcUrl_or.
  destruct (String.eqb_spec url EmptyString); [contradiction | reflexivity].
Qed.

(** X24. Every network record that [getNetworkConfig] resolves has a
    non-zero chain id and a non-empty endpoint, uses the endpoint that was
    passed when one was passed, and is accepted by [validateNetworkConfig].
    For every network but ["custom"] the chain id that was passed is
    ignored. *)
Theorem getNetworkConfig_resolved
    (network : string) (rpcUrl : option string) (chainId : option Z)
    (c : NetworkConfig) :
  getNetworkConfig network rpcUrl chainId = Normal (Resolved c) ->
  nc_chainId c <> 0
  /\ nc_rpcUrl c <> EmptyString
  /\ (forall url, rpcUrl = Some url -> url <> EmptyString -> nc_rpcUrl c = url)
  /\ (network <> "custom" ->
      forall other, getNetworkConfig network rpcUrl other = Normal (Resolved c))
  /\ validateNetworkConfig (network_config_value c) = Normal true.
Proof.
  intros H.
  assert (Hvalid : validateNetworkConfig (network_config_value c) = Normal true)
    by reflexivity.
  unfold getNetworkConfig in *.
  destruct (String.eqb_spec network "custom") as [->|Hn].
  - assert (Hcustom :
      exists id url,
        chainId = Some id /\ rpcUrl = Some url
        /\ negb (id =? 0) && negb (String.eqb url EmptyString) = true
        /\ c = {| nc_chainId := id; nc_rpcUrl := url;
                  nc_explorerUrl := "https://etherscan.io";
                  nc_name := "Custom Network" |}).
    { destruct chainId as [id|], rpcUrl as [url|]; try discriminate H.
      destruct (negb (id =? 0) && negb (String.eqb url EmptyString)) eqn:Ht;
        [|discriminate H].
      injection H as <-. exists id, url. repeat split. exact Ht. }
    destruct Hcustom as [id [url [-> [-> [Ht ->]]]]].
    apply andb_true_iff in Ht as [Hid Hurl].
    apply negb_true_iff in Hid, Hurl.
    apply Z.eqb_neq in Hid. apply String.eqb_neq in Hurl.
    cbn [nc_chainId nc_rpcUrl].
    split; [exact Hid|]. split; [exact Hurl|].
    split; [intros url' Hu _; now injection Hu|].
    split; [intros Hc; now contradiction Hc | exact Hvalid].
  - assert (Hshape :
      nc_chainId c <> 0
      /\ exists fallback,
           fallback <> EmptyString /\ nc_rpcUrl c = rpcUrl_or rpcUrl fallback).
    { unfold configs in H. cbn [lookup] in H.
      repeat (destruct (String.eqb network _);
              [ injection H as <-; cbn [nc_chainId nc_rpcUrl];
                split; [discriminate | eexists; split; [|reflexivity]; discriminate]
              | ]).
      destruct (existsb _ _); discriminate H. }
    destruct Hshape as [Hid [fallback [Hf Hurl]]].
    split; [exact Hid|].
    split; [rewrite Hurl; now apply rpcUrl_or_not_empty|].
    split; [intros url -> Hu; rewrite Hurl; now apply rpcUrl_or_given|].
    split; [intros _ other; exact H | exact Hvalid].
Qed.

Lemma getNetworkConfig_resolved_witness :
  getNetworkConfig "polygon" (Some "https://rpc.example") (Some 5)
  = Normal (Resolved {| nc_chainId := 137;
                        nc_rpcUrl := "https://rpc.example";
                        nc_explorerUrl := "https://polygonscan.com";
                        nc_name := "Polygon Mainnet" |})
  /\ nc_chainId {| nc_chainId := 137;
                   nc_rpcUrl := "https://rpc.example";
                   nc_explorerUrl := "https://polygonscan.com";
                   nc_name := "Polygon Mainnet" |} <> 0.
Proof.
  split; [reflexivity|].
  exact (proj1 (getNetworkConfig_resolved "polygon" (Some "https://rpc.example")
                  (Some 5) _ eq_refl)).
Defined.

(* ================================================================== *)
(** * Properties of the LicenseChainEthereum class                     *)
(* ================================================================== *)

Lemma normalized_is_rejection (E W A : Type) (cause : JsValue) (s : Session E W) :
  normalized (A := A) cause s = (Rejected (normalized_rejection cause), s).
Proof.
  unfold normalized, evaluate, normalized_rejection.
  destruct (fromEthersError cause); reflexivity.
Qed.

Section SdkProperties.

Context {P Wl F C H W : Type}.
Variable new_Web3Provider : JsValue -> Completion P.
Variable new_JsonRpcProvider : string -> Completion P.
Variable new_Wallet : string -> P -> Completion Wl.
Variable new_ContractFactory : Artifact -> string -> Wl -> Completion F.
Variable factory_deploy : F -> list JsValue -> W -> Settled C * W.
Variable waitForDeployment : C -> W -> Settled unit * W.
Variable contract_getAddress : C -> W -> Settled string * W.
Variable new_Contract : string -> Wl -> Completion H.
Variable ethers_isAddress : string -> bool.
Variable provider_getFeeData : P -> W -> Settled FeeData * W.
Variable provider_getBalance : P -> string -> W -> Settled Z * W.

(** X25. The constructor resolves the network before it looks at anything
    else: a network that does not resolve, such as ["custom"] without an
    endpoint, throws the resolution's plain [Error] even when a wallet
    provider is configured.  Only for a network that resolves does the lack
    of both a wallet provider and an endpoint throw a [LicenseChainError] of
    kind [CONFIGURATION_ERROR].  The network configuration of a constructed
    instance is what the resolution gave. *)
Theorem constructor_checks_network_first (cfg : SdkConfig) :
  (forall e,
     getNetworkConfig (network (settings cfg)) (rpcUrl (settings cfg))
                      (chainId (settings cfg)) = Throw e ->
     constructor new_Web3Provider new_JsonRpcProvider new_Wallet cfg = Throw e)
  /\ (network (settings cfg) = "custom" ->
      absent (rpcUrl (settings cfg)) = true ->
      constructor new_Web3Provider new_JsonRpcProvider new_Wallet cfg
      = Throw (new_Error "Unsupported network: custom"))
  /\ (forall resolved,
        getNetworkConfig (network (settings cfg)) (rpcUrl (settings cfg))
                         (chainId (settings cfg)) = Normal resolved ->
        truthy (walletProvider cfg) = false ->
        absent (rpcUrl (settings cfg)) = true ->
        constructor new_Web3Provider new_JsonRpcProvider new_Wallet cfg
        = Throw configuration_missing
        /\ kind_of configuration_missing = Some CONFIGURATION_ERROR)
  /\ (forall sdk,
        constructor new_Web3Provider new_JsonRpcProvider new_Wallet cfg = Normal sdk ->
        getNetworkConfig (network (settings cfg)) (rpcUrl (settings cfg))
                         (chainId (settings cfg))
        = Normal (getNetworkConfig_of sdk)).
Proof.
  split; [|split; [|split]]; cycle 3.
  - intros sdk. unfold constructor, getNetworkConfig_of.
    destruct (getNetworkConfig _ _ _) as [resolved|e]; [|discriminate].
    destruct (if truthy (walletProvider cfg) then _ else _) as [p|e]; [|discriminate].
    destruct (match privateKey (settings cfg) with Some _ => _ | None => _ end)
      as [w|e]; [|discriminate].
    intros E. injection E as <-. reflexivity.
  - intros e He. unfold constructor. now rewrite He.
  - intros Hn Ha.
    assert (Hr : getNetworkConfig (network (settings cfg)) (rpcUrl (settings cfg))
                                  (chainId (settings cfg))
                 = Throw (new_Error "Unsupported network: custom")).
    { rewrite Hn. unfold getNetworkConfig.
      change (String.eqb "custom" "custom") with true. cbv iota.
      destruct (rpcUrl (settings cfg)) as [u|]; cbn [absent] in Ha;
        destruct (chainId (settings cfg)) as [id|]; try reflexivity.
      rewrite Ha. cbn [negb]. rewrite andb_false_r. reflexivity. }
    unfold constructor. now rewrite Hr.
  - intros resolved Hr Hw Ha. split; [|reflexivity].
    unfold constructor. rewrite Hr, Hw.
    destruct (rpcUrl (settings cfg)) as [u|]; cbn [absent] in Ha;
      [rewrite Ha|]; reflexivity.
Qed.

(** What a constructed instance holds. *)
Lemma constructor_result (cfg : SdkConfig) (sdk : LicenseChainEthereum P Wl) :
  constructor new_Web3Provider new_JsonRpcProvider new_Wallet cfg = Normal sdk ->
  config sdk = cfg
  /\ getNetworkConfig (network (settings cfg)) (rpcUrl (settings cfg))
                      (chainId (settings cfg)) = Normal (networkConfig sdk)
  /\ (wallet sdk = None <-> absent (privateKey (settings cfg)) = true).
Proof.
  unfold constructor.
  destruct (getNetworkConfig _ _ _) as [resolved|e]; [|discriminate].
  destruct (if truthy (walletProvider cfg) then _ else _) as [p|e]; [|discriminate].
  destruct (privateKey (settings cfg)) as [key|]; cbn [absent].
  - destruct (String.eqb key EmptyString).
    + intros E. injection E as <-. cbn. repeat split.
    + destruct (new_Wallet key p) as [wl|e]; [|discriminate].
      intros E. injection E as <-. cbn. repeat split; discriminate.
  - intros E. injection E as <-. cbn. repeat split.
Qed.

(** X26. An instance constructed without a private key holds no wallet,
    with or without a wallet provider.  Each of its three deployments
    rejects with a [LicenseChainError] of kind [UNAUTHORIZED] without asking
    the node for anything, and so does [getContract], after it rejected an
    address the library does not accept with kind [INVALID_ADDRESS]. *)
Theorem without_private_key
    (cfg : SdkConfig) (sdk : LicenseChainEthereum P Wl) (s : Session SdkEvent W) :
  constructor new_Web3Provider new_JsonRpcProvider new_Wallet cfg = Normal sdk ->
  absent (privateKey (settings cfg)) = true ->
  (forall d,
     run_deployment new_ContractFactory factory_deploy waitForDeployment
                    contract_getAddress new_Contract sdk d s
     = (Rejected wallet_missing, s))
  /\ (forall address,
        getContract new_Contract ethers_isAddress sdk address s
        = (Rejected (if ethers_isAddress address
                     then wallet_missing else invalidAddress address), s))
  /\ kind_of wallet_missing = Some UNAUTHORIZED
  /\ (forall address, kind_of (invalidAddress address) = Some INVALID_ADDRESS).
Proof.
  intros Hsdk Hkey.
  destruct (constructor_result cfg sdk Hsdk) as [_ [_ Hwallet]].
  apply Hwallet in Hkey.
  split; [|split; [|split]].
  - intros d. destruct d; cbn [run_deployment];
      unfold deployLicenseContract, deployMultiSigLicenseContract,
             deployUpgradeableLicenseContract;
      rewrite Hkey; reflexivity.
  - intros address. unfold getContract. rewrite Hkey.
    destruct (ethers_isAddress address); reflexivity.
  - reflexivity.
  - reflexivity.
Qed.


(** X28. When the node reports no gas price, [getGasPrice] answers ["0"],
    while [estimateGasMintLicense], asking the same provider, prices the
    estimate at 20 gwei; a reported price of zero is printed as ["0"] by the
    one and replaced by 20 gwei by the other. *)
Theorem gas_price_fallbacks
    (sdk : LicenseChainEthereum P Wl) (s : Session SdkEvent W) (fd : FeeData) (w1 : W) :
  provider_getFeeData (provider sdk) (s_world s) = (Fulfilled fd, w1) ->
  fd_gasPrice fd = None \/ fd_gasPrice fd = Some 0 ->
  getGasPrice provider_getFeeData sdk s
  = (Fulfilled "0", {| s_world := w1; s_log := EvFeeData :: s_log s |})
  /\ (forall (estimateGas : ContractCall -> W -> Settled Z * W)
             (options : MintOptions) (st : Run W) (limit : Z),
        estimateGas (mint_call options) (world st) = (Fulfilled limit, s_world s) ->
        exists g,
          fst (estimateGasMintLicense estimateGas (provider_getFeeData (provider sdk))
                                      options st)
          = Fulfilled g
          /\ ge_gasPrice g = "20000000000"
          /\ ge_totalCost g = formatEther (limit * 20000000000)).
Proof.
  intros Hfee Hnone. split.
  - unfold getGasPrice, catching, and_then, ask, resolve. rewrite Hfee.
    destruct Hnone as [-> | ->]; reflexivity.
  - intros estimateGas options st limit Hest.
    unfold estimateGasMintLicense, try_catch, bind, request, ret.
    unfold mint_call in Hest. cbv zeta. rewrite Hest. cbn [world trace].
    rewrite Hfee. eexists. split; [reflexivity|].
    cbn [ge_gasPrice ge_totalCost].
    destruct Hnone as [-> | ->]; cbn [Z.eqb]; split; reflexivity.
Qed.

(** X29. [getBalance] answers the balance in ether, as [formatEther] prints
    it: a decimal fraction from which [etherToWei] recovers the balance in
    wei that the node reported. *)
Theorem getBalance_in_ether
    (sdk : LicenseChainEthereum P Wl) (s : Session SdkEvent W) (address : string)
    (balance : Z) (w1 : W) :
  provider_getBalance (provider sdk) address (s_world s) = (Fulfilled balance, w1) ->
  0 <= balance ->
  exists text,
    getBalance provider_getBalance sdk address s
    = (Fulfilled text, {| s_world := w1; s_log := EvBalance address :: s_log s |})
    /\ text = formatEther balance
    /\ is_decimal_integer text = false
    /\ StringToBigInt (etherToWei (EtherText text)) = Some balance.
Proof.
  intros Hread Hpos.
  exists (formatEther balance). split.
  - unfold getBalance, catching, and_then, ask, resolve. now rewrite Hread.
  - split; [reflexivity|]. split; [apply formatUnits_has_point|].
    assert (Hunit : 0 < ether_unit) by reflexivity.
    pose proof (Z.mod_pos_bound balance ether_unit Hunit) as Hr.
    pose proof (Z.div_pos balance ether_unit Hpos Hunit) as Hq.
    rewrite (etherToWei_formatEther_digits balance Hpos).
    now apply whole_and_fraction_value.
Qed.

End SdkProperties.

Lemma without_private_key_witness :
  constructor stub_Web3Provider stub_JsonRpcProvider stub_Wallet browser_config
  = Normal browser_sdk
  /\ absent (privateKey (settings browser_config)) = true
  /\ getContract (W := unit) stub_Contract isValidAddress browser_sdk
                 "0x00000000000000000000000000000000000000aa" (fresh tt)
     = (Rejected wallet_missing, fresh tt).
Proof.
  split; [reflexivity|]. split; [reflexivity|].
  destruct (without_private_key stub_Web3Provider stub_JsonRpcProvider stub_Wallet
              stub_ContractFactory stub_deploy stub_waitForDeployment
              stub_getAddress stub_Contract isValidAddress
              browser_config browser_sdk (fresh tt) eq_refl eq_refl)
    as [_ [Hget _]].
  exact (Hget "0x00000000000000000000000000000000000000aa").
Defined.


Lemma gas_price_fallbacks_witness :
  stub_provider_feeData (provider server_sdk) tt
  = (Fulfilled {| fd_gasPrice := None;
                  fd_maxFeePerGas := None;
                  fd_maxPriorityFeePerGas := None |}, tt)
  /\ getGasPrice stub_provider_feeData server_sdk (fresh tt)
     = (Fulfilled "0", {| s_world := tt; s_log := [EvFeeData] |}).
Proof.
  split; [reflexivity|].
  exact (proj1 (gas_price_fallbacks stub_provider_feeData server_sdk (fresh tt)
                  {| fd_gasPrice := None;
                     fd_maxFeePerGas := None;
                     fd_maxPriorityFeePerGas := None |} tt eq_refl
                  (or_introl eq_refl))).
Defined.

Lemma getBalance_in_ether_witness :
  stub_getBalance (provider server_sdk) "0xabc" tt
  = (Fulfilled (15 * 10 ^ 17), tt)
  /\ 0 <= 15 * 10 ^ 17
  /\ exists text,
       getBalance stub_getBalance server_sdk "0xabc" (fresh tt)
       = (Fulfilled text, {| s_world := tt; s_log := [EvBalance "0xabc"] |})
       /\ text = formatEther (15 * 10 ^ 17)
       /\ is_decimal_integer text = false
       /\ StringToBigInt (etherToWei (EtherText text)) = Some (15 * 10 ^ 17).
Proof.
  assert (Hpos : 0 <= 15 * 10 ^ 17) by (vm_compute; discriminate).
  split; [reflexivity|]. split; [exact Hpos|].
  exact (getBalance_in_ether stub_getBalance server_sdk (fresh tt) "0xabc"
           (15 * 10 ^ 17) tt eq_refl Hpos).
Defined.

(* ================================================================== *)
(** * Properties of the error factories                                *)
(* ================================================================== *)

